(** * The T5 attention core of libai: a shallow embedding

    Source files embedded here:
    - [projects/T5/models/layer_norm.py]        (module [LayerNorm])
    - [projects/T5/models/attention.py]         (module [MultiheadAttention])
    - [projects/T5/models/transformer_layer.py] (module [TransformerLayer])

    Conventions of the embedding.
    - Tensors are nested lists of real numbers, one list level per
      dimension: float32 arithmetic is idealised to [R], so every
      statement is about the exact arithmetic the code approximates.  A
      nested list keeps no size for the dimensions below an empty one;
      [shape1] and [shape2] read such a size as zero.
    - Layout descriptors (placement, sbp) carry no numeric content:
      [to_global] is the identity on values.
    - Python exceptions are values of [exn]; a function that may raise
      returns a [result].  A shape mismatch inside an array operation is
      a [RuntimeError].
    - The random maps of the layer (its dropouts) and its weights are
      fields of the layer record: one call of [forward] applies each of
      them once.
    - [forward] of the attention layer is embedded once, as
      [forward_trace], which also records the values its local variables
      take; [forward] projects the returned tuple out of it. *)

From Stdlib Require Import String Reals.Reals Psatz ZArith Bool Lia Lra List.
Import ListNotations.


(** ** Python exceptions and the error monad *)

Inductive exn : Type :=
| AssertionError
| ValueError (msg : string)
| AttributeError
| ZeroDivisionError
| IndexError
| TypeError
| RuntimeError
| OverflowError.

Inductive result (A : Type) : Type :=
| Ok (a : A)
| Raise (e : exn).

Arguments Ok {A} a.
Arguments Raise {A} e.

Definition bind {A B : Type} (c : result A) (k : A -> result B) : result B :=
  match c with
  | Ok a => k a
  | Raise e => Raise e
  end.

Declare Scope py_scope.
Delimit Scope py_scope with py.
Notation "x <- c ;; k" := (bind c (fun x => k))
  (at level 61, c at next level, right associativity) : py_scope.
Notation "' p <- c ;; k" := (bind c (fun x => let 'p := x in k))
  (at level 61, p pattern, c at next level, right associativity) : py_scope.
Open Scope py_scope.

Fixpoint mapM {A B : Type} (f : A -> result B) (l : list A) : result (list B) :=
  match l with
  | [] => Ok []
  | a :: l' =>
      b <- f a ;;
      bs <- mapM f l' ;;
      Ok (b :: bs)
  end.

(** ** Tensors *)

Definition Vec := list R.
Definition Mat := list Vec.
Definition T3 := list Mat.
Definition T4 := list T3.

Inductive dtype : Type := float16 | bfloat16 | float32.

(** A precision cast: the identity on the idealised values. *)
Definition to_dtype {A : Type} (d : dtype) (x : A) : A := x.

Definition rsum (v : Vec) : R := fold_right Rplus 0%R v.

Definition mean (v : Vec) : R := (rsum v / INR (length v))%R.

Definition rsqrt (x : R) : R := (/ sqrt x)%R.

(** Elementwise product of two vectors under the broadcasting rule: equal
    lengths, or one side of length one. *)
Definition broadcast_mul (a b : Vec) : result Vec :=
  if Nat.eqb (length a) (length b) then Ok (map (fun p => (fst p * snd p)%R) (combine a b))
  else match a, b with
       | [x], _ => Ok (map (fun y => (x * y)%R) b)
       | _, [y] => Ok (map (fun x => (x * y)%R) a)
       | _, _ => Raise RuntimeError
       end.

Definition scale (c : R) (x : T3) : T3 := map (map (map (Rmult c))) x.

(** ** layer_norm.py *)

Module LayerNorm.

Record t : Type := {
  weight : Vec;
  weight_dtype : dtype;
  variance_epsilon : R
}.

(** [__init__]: the weight starts as ones of [normalized_shape], float32. *)
Definition init (normalized_shape : nat) (eps : R) : t :=
  {| weight := repeat 1%R normalized_shape;
     weight_dtype := float32;
     variance_epsilon := eps |}.

(** The body of [forward] on one slice along the last dimension. *)
Definition forward_row (self : t) (hidden_states : Vec) : result Vec :=
  let variance := mean (map (fun x => (x ^ 2)%R) (to_dtype float32 hidden_states)) in
  let hidden_states :=
    map (fun x => (x * rsqrt (variance + variance_epsilon self))%R) hidden_states in
  let hidden_states :=
    match weight_dtype self with
    | float16 | bfloat16 => to_dtype (weight_dtype self) hidden_states
    | float32 => hidden_states
    end in
  broadcast_mul (weight self) hidden_states.

Definition forward (self : t) (hidden_states : T3) : result T3 :=
  mapM (mapM (forward_row self)) hidden_states.

Definition with_eps (self : t) (eps : R) : t :=
  {| weight := weight self;
     weight_dtype := weight_dtype self;
     variance_epsilon := eps |}.

End LayerNorm.

(** ** Elementwise helpers of the bucket computation *)

(** [.to(flow.long)] on a float tensor element: truncation toward zero. *)
Definition to_long (x : R) : Z :=
  if Rle_dec 0 x then Int_part x else (- Int_part (- x))%Z.

Definition map2 {A B : Type} (f : A -> B) (m : list (list A)) : list (list B) :=
  map (map f) m.

Definition zipWith {A B C : Type} (f : A -> B -> C) (a : list A) (b : list B) : list C :=
  map (fun p => f (fst p) (snd p)) (combine a b).

Definition zipWith2 {A B C : Type} (f : A -> B -> C)
    (a : list (list A)) (b : list (list B)) : list (list C) :=
  zipWith (zipWith f) a b.

(** [flow.where(cond, x, y)] on tensors of one shape. *)
Definition where_ {A : Type} (cond : list (list bool)) (x y : list (list A)) : list (list A) :=
  zipWith2 (fun (c : bool) (xy : A * A) => if c then fst xy else snd xy)
           cond (zipWith2 pair x y).


(** ** Array operations of the tensor runtime

    The runtime raises on a shape mismatch; every such failure is
    [RuntimeError].  An operation that builds a new tensor ([a + b],
    [flow.mul(a, b)]) broadcasts either operand against the other.  A
    Python augmented assignment on a tensor ([a += b]) works in place: it
    writes [a + b] into [a], whose shape cannot change, so [b] has to
    broadcast into the shape of [a]. *)

Definition dot (a b : Vec) : result R :=
  if Nat.eqb (length a) (length b) then Ok (rsum (zipWith Rmult a b)) else Raise RuntimeError.

(** Broadcasting along one dimension: equal sizes, or a size of one on
    either side. *)
Definition bzip {A B C : Type} (f : A -> B -> result C) (a : list A) (b : list B)
    : result (list C) :=
  if Nat.eqb (length a) (length b) then mapM (fun p => f (fst p) (snd p)) (combine a b)
  else match a, b with
       | [x], _ => mapM (f x) b
       | _, [y] => mapM (fun x => f x y) a
       | _, _ => Raise RuntimeError
       end.

Definition broadcast3 (f : R -> R -> R) (a b : T3) : result T3 :=
  bzip (bzip (bzip (fun x y => Ok (f x y)))) a b.

Definition broadcast4 (f : R -> R -> R) (a b : T4) : result T4 :=
  bzip (broadcast3 f) a b.

Definition map4 (f : R -> R) (a : T4) : T4 := map (map (map (map f))) a.

(** Broadcasting into the left operand along one dimension: equal sizes,
    or a size of one on the right. *)
Definition bzip_into {A B : Type} (f : A -> B -> result A) (a : list A) (b : list B)
    : result (list A) :=
  if Nat.eqb (length a) (length b) then mapM (fun p => f (fst p) (snd p)) (combine a b)
  else match b with
       | [y] => mapM (fun x => f x y) a
       | _ => Raise RuntimeError
       end.

(** An in-place elementwise operation on 4-d tensors, [a op= b]. *)
Definition inplace4 (f : R -> R -> R) (a b : T4) : result T4 :=
  bzip_into (bzip_into (bzip_into (bzip_into (fun x y => Ok (f x y))))) a b.

(** [flow.matmul(a, b, transpose_b=True)] on one pair of matrices. *)
Definition matmul_nt (a b : Mat) : result Mat :=
  mapM (fun row => mapM (dot row) b) a.

Definition transpose (m : Mat) : Mat :=
  match m with
  | [] => []
  | r :: _ => map (fun c => map (fun row => nth c row 0%R) m) (seq 0 (length r))
  end.

(** [flow.matmul(a, b)] on one pair of matrices. *)
Definition matmul_nn (a b : Mat) : result Mat :=
  mapM (fun row => mapM (dot row) (transpose b)) a.

(** Both batch dimensions of a 4-d product must agree. *)
Definition zipM {A B C : Type} (f : A -> B -> result C) (a : list A) (b : list B)
    : result (list C) :=
  if Nat.eqb (length a) (length b) then mapM (fun p => f (fst p) (snd p)) (combine a b)
  else Raise RuntimeError.

Definition matmul_transpose_b (a b : T4) : result T4 := zipM (zipM matmul_nt) a b.

Definition matmul (a b : T4) : result T4 := zipM (zipM matmul_nn) a b.

Definition softmax_row (v : Vec) : Vec :=
  let denom := rsum (map exp v) in
  map (fun x => (exp x / denom)%R) v.

(** [flow.softmax(x, dim=-1)]. *)
Definition softmax (x : T4) : T4 := map (map (map softmax_row)) x.

(** [flow._C.fused_scale_mask_softmax(x, mask, fill_value)]: positions where
    the mask is zero are replaced by [fill_value] before the softmax. *)
Definition fused_scale_mask_softmax (x mask : T4) (fill_value : R) : result T4 :=
  masked <- broadcast4 (fun s m => if Req_dec_T m 0 then fill_value else s) x mask ;;
  Ok (softmax masked).

(** [x.view(bsz, -1, num_heads, width).permute(0, 2, 1, 3)] on a
    [bsz, len, num_heads * width] tensor.  The batch of [x] has to be [bsz]. *)
Fixpoint chunks (n width : nat) (v : Vec) : list Vec :=
  match n with
  | O => []
  | S n' => firstn width v :: chunks n' width (skipn width v)
  end.

Definition split_heads (num_heads width : nat) (m : Mat) : result (list Mat) :=
  rows <- mapM (fun row => if Nat.eqb (length row) (num_heads * width)
                           then Ok (chunks num_heads width row)
                           else Raise RuntimeError) m ;;
  Ok (map (fun h => map (fun r => nth h r []) rows) (seq 0 num_heads)).

Definition view_heads (bsz num_heads width : nat) (x : T3) : result T4 :=
  if Nat.eqb (length x) bsz then mapM (split_heads num_heads width) x
  else Raise RuntimeError.

(** [flow.chunk(x, chunks=n, dim=-1)], piece number [i], for a last
    dimension of [n * width]. *)
Definition chunk (width i : nat) (x : T4) : T4 :=
  map (map (map (fun v => firstn width (skipn (i * width) v)))) x.

(** [flow.cat((a, b), dim=2)]: every other dimension must agree. *)
Definition same_width (a b : Mat) : bool :=
  forallb (fun r => forallb (fun r' => Nat.eqb (length r) (length r')) b) a.

Definition cat_dim2 (a b : T4) : result T4 :=
  zipM (zipM (fun x y => if same_width x y then Ok (x ++ y) else Raise RuntimeError)) a b.

(** [context.transpose(1, 2).view(bsz, tgt_len, hidden_size)] on one entry
    of the batch: position after position, the rows of the heads side by
    side; the view then cuts these elements into [tgt_len] rows of
    [hidden_size], and needs exactly as many elements as that. *)
Definition merge_heads (tgt_len hidden_size : nat) (heads : list Mat) : result Mat :=
  let positions := length (hd [] heads) in
  let flat :=
    concat (map (fun i => concat (map (fun h : Mat => nth i h []) heads))
                (seq 0 positions)) in
  if Nat.eqb (length flat) (tgt_len * hidden_size)
  then Ok (chunks tgt_len hidden_size flat)
  else Raise RuntimeError.

(** [x.shape[2]] of a 4-d tensor and [x.shape[1]] of a 3-d tensor. *)
Definition shape2 (x : T4) : nat := length (hd [] (hd [] x)).
Definition shape1 (x : T3) : nat := length (hd [] x).

(** [flow.zeros((1, h, q, k))]. *)
Definition zeros (h q k : nat) : T4 := [repeat (repeat (repeat 0%R k) q) h].

(** [x[:, :, -n:, :]]: Python keeps the last [n] rows, and all of them when
    [n] is zero or exceeds their number. *)
Definition last_rows {A : Type} (n : nat) (l : list A) : list A :=
  if Nat.eqb n 0 then l else skipn (length l - n) l.

Definition slice_last_rows (n : nat) (x : T4) : T4 := map (map (last_rows n)) x.

(** [to_global]: a change of layout, the identity on values. *)
Definition to_global {A : Type} (x : A) : A := x.

(** ** Layers of the library that the attention layer is built from *)

Module Linear.

Record t : Type := {
  in_features : nat;
  out_features : nat;
  weight : Mat
}.

(** Modelled from the spec: [libai.layers.linear.Linear] is not part of the
    sources at hand; section 6 describes it as a parameterized linear map.
    With [bias=False] it multiplies every slice along the last dimension by
    the transposed [out_features x in_features] weight. *)
Definition forward (self : t) (x : T3) : result T3 :=
  mapM (mapM (fun row => mapM (dot row) (weight self))) x.

End Linear.

Module Embedding.

Record t : Type := {
  num_embeddings : nat;
  embedding_dim : nat;
  weight : Mat
}.

(** Modelled from the spec: [libai.layers.embedding.Embedding] is not part
    of the sources at hand; section 4.2 describes a learned table of shape
    (num_buckets, num_heads) that is looked up by bucket index. *)
Definition forward (self : t) (indices : list (list Z)) : result (list (list Vec)) :=
  mapM (mapM (fun i : Z =>
                if (i <? 0)%Z then Raise IndexError
                else match nth_error (weight self) (Z.to_nat i) with
                     | Some v => Ok v
                     | None => Raise IndexError
                     end)) indices.

End Embedding.

(** ** Binding the arguments of a call

    Python binds the arguments of a call to the parameters of the [def]
    before the body runs, and raises TypeError when they do not match. *)

Module Call.

(** The parameters of a [def] after [self]: those that can also be
    passed by position, in order; the keyword-only ones after [*]; and
    the ones that have no default. *)
Record signature : Type := {
  positional : list string;
  keyword_only : list string;
  required : list string
}.

Definition mem (x : string) (l : list string) : bool := existsb (String.eqb x) l.

(** A call with [npos] positional arguments and the keywords [keywords]:
    too many positional arguments, a keyword that names no parameter, a
    parameter that gets two values and a required parameter left
    without value are each a TypeError. *)
Definition bind_arguments (sig : signature) (npos : nat) (keywords : list string)
    : result unit :=
  if Nat.ltb (length (positional sig)) npos then Raise TypeError
  else if existsb (fun k => negb (mem k (positional sig ++ keyword_only sig))) keywords
  then Raise TypeError
  else if existsb (fun k => mem k (firstn npos (positional sig))) keywords
  then Raise TypeError
  else if existsb (fun r => negb (mem r (firstn npos (positional sig) ++ keywords)))
                  (required sig)
  then Raise TypeError
  else Ok tt.

End Call.

(** ** attention.py: MultiheadAttention *)

Module MultiheadAttention.

Record t : Type := {
  hidden_size : nat;
  relative_attention_num_buckets : Z;
  has_relative_attention_bias : bool;
  is_decoder : bool;
  num_heads : nat;
  head_size : nat;
  dropout : T4 -> T4;
  norm_factor : R;
  coeff : option Z;
  is_cross_attention : bool;
  scale_mask_softmax_fusion : bool;
  bias_dropout_fusion : bool;
  output_dropout : T3 -> T3;
  fused_bias_add_dropout : T3 -> T3;
  query : Linear.t;
  key_value : Linear.t;
  query_key_value : Linear.t;
  dense : Linear.t;
  relative_attention_bias : Embedding.t
}.

(** Modelled from the spec: the constructors [nn.Dropout] of oneflow and
    [Linear] and [Embedding] of [libai.layers] are not part of the
    sources at hand, and the spec does not say when they raise.  A call
    that [__init__] makes to one of them, [nn.Dropout(p)],
    [Linear(in_features, out_features)] or
    [Embedding(num_embeddings, embedding_dim)], is recorded with its
    arguments; whether it raises, and what, is an input of [__init__]
    (the field [p_raises] below). *)
Inductive external_call : Type :=
| Dropout_call (p : R)
| Linear_call (in_features out_features : Z)
| Embedding_call (num_embeddings embedding_dim : Z).

(** What the constructor receives from outside the arithmetic: the
    initialised weights, the sampled dropout maps, and for every call to
    an outside constructor whether it raises, and what. *)
Record params : Type := {
  p_dropout : T4 -> T4;
  p_output_dropout : T3 -> T3;
  p_fused_bias_add_dropout : T3 -> T3;
  p_query : Mat;
  p_key_value : Mat;
  p_query_key_value : Mat;
  p_dense : Mat;
  p_relative_attention_bias : Mat;
  p_raises : external_call -> option exn
}.

Definition construct (p : params) (c : external_call) : result unit :=
  match p_raises p c with
  | Some e => Raise e
  | None => Ok tt
  end.

(** The element of [relative_postion_if_large] at a position whose
    magnitude is [relative_position]; [log_ratio] is the Python scalar
    [math.log(max_distance / max_exact)]. *)
Definition if_large (relative_position max_exact num_buckets : Z) (log_ratio : R) : Z :=
  let v := (max_exact
            + to_long (ln (IZR relative_position / IZR max_exact) / log_ratio
                       * IZR (num_buckets - max_exact)))%Z in
  Z.min v (num_buckets - 1).

(** [_relative_position_bucket]. *)
Definition _relative_position_bucket (relative_position : list (list Z))
    (bidirectional : bool) (num_buckets max_distance : Z) : result (list (list Z)) :=
  let relative_buckets := map2 (fun _ : Z => 0%Z) relative_position in
  let num_buckets := if bidirectional then (num_buckets / 2)%Z else num_buckets in
  let relative_buckets :=
    if bidirectional
    then map2 (fun p => (0 + (if 0 <? p then 1 else 0) * num_buckets)%Z) relative_position
    else relative_buckets in
  let relative_position :=
    if bidirectional
    then map2 Z.abs relative_position
    else map2 (fun p => (-1 * Z.min p 0)%Z) relative_position in
  let max_exact := (num_buckets / 2)%Z in
  let is_small := map2 (fun p => (p <? max_exact)%Z) relative_position in
  log_ratio <-
    (if (max_exact =? 0)%Z then Raise ZeroDivisionError
     else if (max_distance * max_exact <=? 0)%Z then Raise (ValueError "math domain error")
     else Ok (ln (IZR max_distance / IZR max_exact))) ;;
  let relative_postion_if_large :=
    map2 (fun p => if_large p max_exact num_buckets log_ratio) relative_position in
  let chosen := where_ is_small relative_position relative_postion_if_large in
  Ok (zipWith2 Z.add relative_buckets chosen).

(** The same computation for a single position, used to read off the
    elements of the result. *)
Definition bucket_at (p : Z) (bidirectional : bool) (num_buckets max_distance : Z) : Z :=
  let nb := if bidirectional then (num_buckets / 2)%Z else num_buckets in
  let offset := if bidirectional then ((if 0 <? p then 1 else 0) * nb)%Z else 0%Z in
  let q := if bidirectional then Z.abs p else (-1 * Z.min p 0)%Z in
  let max_exact := (nb / 2)%Z in
  (offset + (if (q <? max_exact)%Z then q
             else if_large q max_exact nb (ln (IZR max_distance / IZR max_exact))))%Z.

(** The parameters of [__init__]. *)
Definition init_signature : Call.signature :=
  {| Call.positional :=
       ["hidden_size"; "num_attention_heads"; "relative_attention_num_buckets";
        "is_cross_attention"; "attention_dropout_prob"; "output_dropout_prob";
        "init_method"; "output_layer_init_method"; "bias_dropout_fusion";
        "scale_mask_softmax_fusion"; "apply_query_key_layer_scaling"]%string;
     Call.keyword_only :=
       ["layer_idx"; "has_relative_attention_bias"; "is_decoder"]%string;
     Call.required :=
       ["hidden_size"; "num_attention_heads"; "relative_attention_num_buckets"]%string |}.

(** The conversion of a Python integer to a float, as [float(n)] and as
    the division of a float by [n] perform it, raises OverflowError when
    [n] rounds beyond the largest double, that is from a magnitude of
    2^1024 - 2^970 on. *)
Definition float_overflows (n : Z) : bool := (2 ^ 1024 - 2 ^ 970 <=? Z.abs n)%Z.

(** [__init__].  Sizes are Python integers.  The statements run in the
    order of the source: the assert, [nn.Dropout], the square root, the
    depth coefficient, the second [nn.Dropout] unless the bias add is
    fused, the [Linear] layers of the kind of attention, the output
    [Linear], and the [Embedding] when the layer owns a bias table.  The
    record holds sizes as naturals; an attribute that the constructor
    does not set (the projections of the other kind of attention, the
    bias table of a layer without one) is never read by [forward], and
    the record carries the weight of [p] there. *)
Definition init (hidden_size num_attention_heads relative_attention_num_buckets : Z)
    (is_cross_attention : bool) (attention_dropout_prob output_dropout_prob : R)
    (bias_dropout_fusion scale_mask_softmax_fusion apply_query_key_layer_scaling : bool)
    (layer_idx : Z) (has_relative_attention_bias is_decoder : bool)
    (p : params) : result t :=
  _ <- (if (num_attention_heads =? 0)%Z then Raise ZeroDivisionError
        else if (hidden_size mod num_attention_heads =? 0)%Z then Ok tt
        else Raise AssertionError) ;;
  let num_heads := num_attention_heads in
  let head_size := (hidden_size / num_attention_heads)%Z in
  _ <- construct p (Dropout_call attention_dropout_prob) ;;
  norm_factor <- (if float_overflows head_size then Raise OverflowError
                  else if (head_size <? 0)%Z then Raise (ValueError "math domain error")
                  else if (head_size =? 0)%Z then Raise ZeroDivisionError
                  else Ok (1 / sqrt (INR (Z.to_nat head_size)))%R) ;;
  let coeff : option Z := None in
  '(coeff, norm_factor) <-
    (if apply_query_key_layer_scaling then
       let c := (layer_idx + 1)%Z in
       if float_overflows c then Raise OverflowError
       else if (c =? 0)%Z then Raise ZeroDivisionError
       else Ok (Some c, (norm_factor / IZR c)%R)
     else Ok (coeff, norm_factor)) ;;
  _ <- (if bias_dropout_fusion then Ok tt
        else construct p (Dropout_call output_dropout_prob)) ;;
  _ <- (if is_cross_attention then
          _ <- construct p (Linear_call hidden_size hidden_size) ;;
          construct p (Linear_call hidden_size (hidden_size * 2))
        else construct p (Linear_call hidden_size (hidden_size * 3))) ;;
  _ <- construct p (Linear_call hidden_size hidden_size) ;;
  _ <- (if has_relative_attention_bias
        then construct p (Embedding_call relative_attention_num_buckets num_heads)
        else Ok tt) ;;
  Ok {| hidden_size := Z.to_nat hidden_size;
        relative_attention_num_buckets := relative_attention_num_buckets;
        has_relative_attention_bias := has_relative_attention_bias;
        is_decoder := is_decoder;
        num_heads := Z.to_nat num_heads;
        head_size := Z.to_nat head_size;
        dropout := p_dropout p;
        norm_factor := norm_factor;
        coeff := coeff;
        is_cross_attention := is_cross_attention;
        scale_mask_softmax_fusion := scale_mask_softmax_fusion;
        bias_dropout_fusion := bias_dropout_fusion;
        output_dropout := p_output_dropout p;
        fused_bias_add_dropout := p_fused_bias_add_dropout p;
        query := {| Linear.in_features := Z.to_nat hidden_size;
                    Linear.out_features := Z.to_nat hidden_size;
                    Linear.weight := p_query p |};
        key_value := {| Linear.in_features := Z.to_nat hidden_size;
                        Linear.out_features := Z.to_nat (hidden_size * 2);
                        Linear.weight := p_key_value p |};
        query_key_value := {| Linear.in_features := Z.to_nat hidden_size;
                              Linear.out_features := Z.to_nat (hidden_size * 3);
                              Linear.weight := p_query_key_value p |};
        dense := {| Linear.in_features := Z.to_nat hidden_size;
                    Linear.out_features := Z.to_nat hidden_size;
                    Linear.weight := p_dense p |};
        relative_attention_bias :=
          {| Embedding.num_embeddings := Z.to_nat relative_attention_num_buckets;
             Embedding.embedding_dim := Z.to_nat num_heads;
             Embedding.weight := p_relative_attention_bias p |} |}.

(** The calls that [__init__] makes to constructors outside the sources
    at hand when its own arithmetic goes through, in their order. *)
Definition init_calls (hidden_size num_attention_heads relative_attention_num_buckets : Z)
    (is_cross_attention : bool) (attention_dropout_prob output_dropout_prob : R)
    (bias_dropout_fusion has_relative_attention_bias : bool) : list external_call :=
  [Dropout_call attention_dropout_prob]
  ++ (if bias_dropout_fusion then [] else [Dropout_call output_dropout_prob])
  ++ (if is_cross_attention
      then [Linear_call hidden_size hidden_size;
            Linear_call hidden_size (hidden_size * 2)]
      else [Linear_call hidden_size (hidden_size * 3)])
  ++ [Linear_call hidden_size hidden_size]
  ++ (if has_relative_attention_bias
      then [Embedding_call relative_attention_num_buckets num_attention_heads]
      else []).

(** [compute_bias]. *)
Definition compute_bias (self : t) (query_length key_length : nat) : result T4 :=
  let context_position := map Z.of_nat (seq 0 query_length) in
  let memory_position := map Z.of_nat (seq 0 key_length) in
  let relative_position :=
    map (fun c => map (fun m => (m - c)%Z) memory_position) context_position in
  relative_position_bucket <-
    _relative_position_bucket relative_position (negb (is_decoder self))
      (relative_attention_num_buckets self) 128 ;;
  values <- Embedding.forward (relative_attention_bias self) relative_position_bucket ;;
  let values :=
    [map (fun h => map2 (fun v : Vec => nth h v 0%R) values) (seq 0 (num_heads self))] in
  Ok values.

(** The first component of what [forward] returns: the output alone, or
    the output paired with the cache when [use_cache] is set. *)
Inductive attn_output : Type :=
| Plain (output : T3)
| WithCache (output : T3) (past_key_value : T4 * T4).

(** The values bound to the local variables of [forward] along one call. *)
Record trace : Type := {
  t_query : T4;
  t_key : T4;
  t_value : T4;
  t_raw_scores : T4;          (* [attention_scores] at its definition *)
  t_unmasked_bias : T4;       (* [position_bias] before the mask is folded in *)
  t_position_bias : T4;       (* [position_bias] when it is added *)
  t_biased_scores : T4;       (* [attention_scores] after the bias is added *)
  t_attention_scores : T4;    (* [attention_scores] handed to the softmax *)
  t_attention_weights : T4;
  t_result : attn_output * T4
}.

(** [if self.coeff is not None: attention_scores *= self.coeff]. *)
Definition apply_coeff (self : t) (attention_scores : T4) : T4 :=
  match coeff self with
  | Some c => map4 (fun s => (s * IZR c)%R) attention_scores
  | None => attention_scores
  end.

Definition no_key_value_source : string :=
  "past_key_value and encoder_states cannot be None at the same time.".

(** [forward], with the values of its local variables recorded. *)
Definition forward_trace (self : t) (hidden_states : T3) (encoder_states : option T3)
    (attention_mask : option T4) (past_key_value : option (list T4)) (use_cache : bool)
    (position_bias : option T4) (query_length : option nat) : result trace :=
  let encoder_states := option_map to_global encoder_states in
  let attention_mask := option_map to_global attention_mask in
  let bsz := length hidden_states in
  let tgt_len := shape1 hidden_states in
  let real_seq_length := tgt_len in
  past_key_value <-
    match past_key_value with
    | Some [k; v] => Ok (Some (k, v))
    | Some _ => Raise AssertionError
    | None => Ok None
    end ;;
  let real_seq_length :=
    match past_key_value with
    | Some (k, _) =>
        (real_seq_length + match query_length with None => shape2 k | Some q => q end)%nat
    | None => real_seq_length
    end in
  let key_length :=
    match encoder_states with
    | None => real_seq_length
    | Some e => shape1 e
    end in
  '(query, key, value) <-
    (if is_cross_attention self then
       query <- Linear.forward (query self) hidden_states ;;
       query <- view_heads bsz (num_heads self) (head_size self) query ;;
       match past_key_value with
       | Some (key, value) => Ok (query, key, value)
       | None =>
           match encoder_states with
           | Some encoder_states =>
               key_value <- Linear.forward (key_value self) encoder_states ;;
               key_value <- view_heads bsz (num_heads self) (2 * head_size self) key_value ;;
               Ok (query, chunk (head_size self) 0 key_value,
                   chunk (head_size self) 1 key_value)
           | None => Raise (ValueError no_key_value_source)
           end
       end
     else
       query_key_value <- Linear.forward (query_key_value self) hidden_states ;;
       query_key_value <-
         view_heads bsz (num_heads self) (3 * head_size self) query_key_value ;;
       let query := chunk (head_size self) 0 query_key_value in
       let key := chunk (head_size self) 1 query_key_value in
       let value := chunk (head_size self) 2 query_key_value in
       match past_key_value with
       | Some (past_key, past_value) =>
           key <- cat_dim2 (to_dtype float32 past_key) key ;;
           value <- cat_dim2 (to_dtype float32 past_value) value ;;
           Ok (query, key, value)
       | None => Ok (query, key, value)
       end) ;;
  let past_key_value := if use_cache then Some (key, value) else past_key_value in
  attention_scores <- matmul_transpose_b query key ;;
  let raw_scores := attention_scores in
  '(unmasked_bias, position_bias, attention_mask) <-
    match position_bias with
    | None =>
        position_bias <-
          (if negb (has_relative_attention_bias self)
           then Ok (zeros (num_heads self) real_seq_length key_length)
           else compute_bias self real_seq_length key_length) ;;
        let position_bias :=
          match past_key_value with
          | Some _ => slice_last_rows (shape1 hidden_states) position_bias
          | None => position_bias
          end in
        let unmasked_bias := position_bias in
        match attention_mask with
        | None => Raise AttributeError
        | Some attention_mask =>
            let attention_mask := to_global attention_mask in
            position_bias <-
              inplace4 Rplus position_bias
                (map4 (fun m => ((1 - m) * -1000)%R) attention_mask) ;;
            let attention_mask := to_global attention_mask in
            Ok (unmasked_bias, position_bias, Some attention_mask)
        end
    | Some position_bias => Ok (position_bias, position_bias, attention_mask)
    end ;;
  attention_scores <- inplace4 Rplus attention_scores position_bias ;;
  let biased_scores := attention_scores in
  '(attention_scores, attention_weights) <-
    match attention_mask with
    | Some attention_mask =>
        if scale_mask_softmax_fusion self then
          attention_weights <-
            fused_scale_mask_softmax attention_scores attention_mask (-10000) ;;
          Ok (attention_scores, attention_weights)
        else
          let attention_scores := apply_coeff self attention_scores in
          attention_scores <- broadcast4 Rmult attention_scores attention_mask ;;
          attention_scores <-
            broadcast4 Rminus attention_scores
              (map4 (fun m => (10000 * (1 - m))%R) attention_mask) ;;
          Ok (attention_scores, softmax attention_scores)
    | None => Ok (attention_scores, softmax attention_scores)
    end ;;
  let attention_weights := dropout self attention_weights in
  context <- matmul attention_weights value ;;
  context <- mapM (merge_heads tgt_len (hidden_size self)) context ;;
  output <- Linear.forward (dense self) context ;;
  let output :=
    if bias_dropout_fusion self then fused_bias_add_dropout self output
    else output_dropout self output in
  let output :=
    match use_cache, past_key_value with
    | true, Some kv => WithCache output kv
    | _, _ => Plain output
    end in
  Ok {| t_query := query;
        t_key := key;
        t_value := value;
        t_raw_scores := raw_scores;
        t_unmasked_bias := unmasked_bias;
        t_position_bias := position_bias;
        t_biased_scores := biased_scores;
        t_attention_scores := attention_scores;
        t_attention_weights := attention_weights;
        t_result := (output, position_bias) |}.

(** [forward]. *)
Definition forward (self : t) (hidden_states : T3) (encoder_states : option T3)
    (attention_mask : option T4) (past_key_value : option (list T4)) (use_cache : bool)
    (position_bias : option T4) (query_length : option nat)
    : result (attn_output * T4) :=
  tr <- forward_trace self hidden_states encoder_states attention_mask past_key_value
          use_cache position_bias query_length ;;
  Ok (t_result tr).

End MultiheadAttention.

(** ** transformer_layer.py: TransformerLayer *)

Module TransformerLayer.

(** [self.drop_path]: [nn.Identity()] unless a drop-path probability is
    configured.  [DropPath] lives outside the sources at hand and is
    applied to whatever the attention layer returned, so it is carried as
    a function on that value. *)
Inductive drop_path_module : Type :=
| Identity
| DropPath (f : MultiheadAttention.attn_output -> result MultiheadAttention.attn_output).

Definition apply_drop_path (m : drop_path_module) (x : MultiheadAttention.attn_output)
    : result MultiheadAttention.attn_output :=
  match m with
  | Identity => Ok x
  | DropPath f => f x
  end.

Record t : Type := {
  layer_idx : Z;
  is_decoder : bool;
  drop_path : drop_path_module;
  input_layernorm : LayerNorm.t;
  self_attention : MultiheadAttention.t;
  post_attention_layernorm : LayerNorm.t;
  cross_attention : MultiheadAttention.t;
  post_cross_attention_layernorm : LayerNorm.t;
  mlp : T3 -> T3
}.

(** What [forward] returns: [output] (paired with [presents] under
    [use_cache]), [position_bias] and, for a decoder, the bias of the
    cross attention. *)
Record output : Type := {
  out : T3;
  presents : option (list T4);
  position_bias : T4;
  encoder_decoder_position_bias : option T4
}.

(** [attention_output, presents = attention_output] under [use_cache]. *)
Definition unpack_cache (x : MultiheadAttention.attn_output)
    : result (T3 * (T4 * T4)) :=
  match x with
  | MultiheadAttention.WithCache o kv => Ok (o, kv)
  | MultiheadAttention.Plain _ => Raise TypeError
  end.

(** A tensor is expected where the residual is added. *)
Definition as_tensor (x : MultiheadAttention.attn_output) : result T3 :=
  match x with
  | MultiheadAttention.Plain o => Ok o
  | MultiheadAttention.WithCache _ _ => Raise TypeError
  end.

(** [forward]. *)
Definition forward (self : t) (hidden_states : T3) (attention_mask : option T4)
    (encoder_states : option T3) (encoder_attention_mask : option T4)
    (past_key_value : option (list T4)) (use_cache : bool)
    (position_bias encoder_decoder_position_bias : option T4) : result output :=
  let hidden_states := to_global hidden_states in
  let attention_mask := option_map to_global attention_mask in
  '(self_attn_past_key_value, cross_attn_past_key_value) <-
    match past_key_value with
    | Some past_key_value =>
        if is_decoder self then
          if Nat.eqb (length past_key_value) 4
          then Ok (Some (firstn 2 past_key_value), Some (skipn 2 past_key_value))
          else Raise AssertionError
        else Ok (Some past_key_value, None)
    | None => Ok (None, None)
    end ;;
  layernorm_output <- LayerNorm.forward (input_layernorm self) hidden_states ;;
  '(attention_output, position_bias) <-
    MultiheadAttention.forward (self_attention self) layernorm_output None
      attention_mask self_attn_past_key_value use_cache position_bias None ;;
  attention_output <- apply_drop_path (drop_path self) attention_output ;;
  '(attention_output, presents) <-
    (if use_cache then
       '(o, kv) <- unpack_cache attention_output ;;
       Ok (o, Some [fst kv; snd kv])
     else
       o <- as_tensor attention_output ;;
       Ok (o, None)) ;;
  hidden_states <- broadcast3 Rplus hidden_states attention_output ;;
  layernorm_output <- LayerNorm.forward (post_attention_layernorm self) hidden_states ;;
  '(hidden_states, layernorm_output, presents, encoder_decoder_position_bias) <-
    (if is_decoder self then
       let query_length :=
         match presents with
         | Some presents => Some (shape2 (nth 0 presents []))
         | None => None
         end in
       '(attention_output, encoder_decoder_position_bias) <-
         MultiheadAttention.forward (cross_attention self) layernorm_output
           encoder_states encoder_attention_mask cross_attn_past_key_value use_cache
           encoder_decoder_position_bias query_length ;;
       '(attention_output, presents) <-
         (if use_cache then
            '(o, kv) <- unpack_cache attention_output ;;
            match presents with
            | Some presents =>
                Ok (MultiheadAttention.Plain o, Some (presents ++ [fst kv; snd kv]))
            | None => Raise TypeError
            end
          else Ok (attention_output, presents)) ;;
       attention_output <- apply_drop_path (drop_path self) attention_output ;;
       attention_output <- as_tensor attention_output ;;
       hidden_states <- broadcast3 Rplus hidden_states attention_output ;;
       layernorm_output <-
         LayerNorm.forward (post_cross_attention_layernorm self) hidden_states ;;
       Ok (hidden_states, layernorm_output, presents, Some encoder_decoder_position_bias)
     else Ok (hidden_states, layernorm_output, presents, encoder_decoder_position_bias)) ;;
  let mlp_output := mlp self layernorm_output in
  mlp_output <- apply_drop_path (drop_path self) (MultiheadAttention.Plain mlp_output) ;;
  mlp_output <- as_tensor mlp_output ;;
  output <- broadcast3 Rplus hidden_states mlp_output ;;
  Ok {| out := output;
        presents := presents;
        position_bias := position_bias;
        encoder_decoder_position_bias :=
          if is_decoder self then encoder_decoder_position_bias else None |}.

(** The attributes that [__init__] stores before it builds the sublayers
    and that [build_attention] reads. *)
Record attributes : Type := {
  attr_hidden_size : Z;
  attr_num_attention_heads : Z;
  attr_head_size : Z;
  attr_attention_dropout_prob : R;
  attr_output_dropout_prob : R;
  attr_layer_idx : Z
}.

(** The keywords of the call in [build_attention], after its two
    positional arguments. *)
Definition build_attention_keywords : list string :=
  ["head_size"; "relative_attention_num_buckets"; "is_cross_attention";
   "attention_dropout_prob"; "output_dropout_prob"; "init_method";
   "output_layer_init_method"; "layer_idx"; "has_relative_attention_bias";
   "is_decoder"]%string.

(** [build_attention]: the call [MultiheadAttention(...)].  The weights
    and dropout maps that the constructor would draw are [p]. *)
Definition build_attention (self : attributes) (is_cross_attention : bool)
    (relative_attention_num_buckets : Z) (has_relative_attention_bias is_decoder : bool)
    (p : MultiheadAttention.params) : result MultiheadAttention.t :=
  _ <- Call.bind_arguments MultiheadAttention.init_signature 2 build_attention_keywords ;;
  MultiheadAttention.init (attr_hidden_size self) (attr_num_attention_heads self)
    relative_attention_num_buckets is_cross_attention
    (attr_attention_dropout_prob self) (attr_output_dropout_prob self)
    false false false
    (attr_layer_idx self) has_relative_attention_bias is_decoder p.

End TransformerLayer.

Module MHA := MultiheadAttention.

(** The layer with another value stored in [self.norm_factor]. *)
Definition with_norm_factor (self : MHA.t) (nf : R) : MHA.t :=
  {| MHA.hidden_size := MHA.hidden_size self;
     MHA.relative_attention_num_buckets := MHA.relative_attention_num_buckets self;
     MHA.has_relative_attention_bias := MHA.has_relative_attention_bias self;
     MHA.is_decoder := MHA.is_decoder self;
     MHA.num_heads := MHA.num_heads self;
     MHA.head_size := MHA.head_size self;
     MHA.dropout := MHA.dropout self;
     MHA.norm_factor := nf;
     MHA.coeff := MHA.coeff self;
     MHA.is_cross_attention := MHA.is_cross_attention self;
     MHA.scale_mask_softmax_fusion := MHA.scale_mask_softmax_fusion self;
     MHA.bias_dropout_fusion := MHA.bias_dropout_fusion self;
     MHA.output_dropout := MHA.output_dropout self;
     MHA.fused_bias_add_dropout := MHA.fused_bias_add_dropout self;
     MHA.query := MHA.query self;
     MHA.key_value := MHA.key_value self;
     MHA.query_key_value := MHA.query_key_value self;
     MHA.dense := MHA.dense self;
     MHA.relative_attention_bias := MHA.relative_attention_bias self |}.

(** Indexing: a row [x[b][h][i]] and an element [x[b][h][i][j]]. *)
Definition row4 (x : T4) (b h i : nat) : option Vec :=
  match nth_error x b with
  | Some xb => match nth_error xb h with
               | Some m => nth_error m i
               | None => None
               end
  | None => None
  end.

Definition entry4 (x : T4) (b h i j : nat) : option R :=
  match row4 x b h i with
  | Some row => nth_error row j
  | None => None
  end.

(** The sizes [forward] computes from its arguments. *)
Definition real_seq_length (hidden_states : T3) (past_key_value : option (list T4))
    (query_length : option nat) : nat :=
  match past_key_value with
  | Some l => shape1 hidden_states
              + match query_length with None => shape2 (nth 0 l []) | Some q => q end
  | None => shape1 hidden_states
  end.

Definition key_length (hidden_states : T3) (encoder_states : option T3)
    (past_key_value : option (list T4)) (query_length : option nat) : nat :=
  match encoder_states with
  | None => real_seq_length hidden_states past_key_value query_length
  | Some e => shape1 e
  end.

(** The bias [forward] builds when none is supplied, before slicing. *)
Definition built_bias (self : MHA.t) (hidden_states : T3) (encoder_states : option T3)
    (past_key_value : option (list T4)) (query_length : option nat) : result T4 :=
  let rsl := real_seq_length hidden_states past_key_value query_length in
  let kl := key_length hidden_states encoder_states past_key_value query_length in
  if negb (MHA.has_relative_attention_bias self)
  then Ok (zeros (MHA.num_heads self) rsl kl)
  else MHA.compute_bias self rsl kl.

(** [past_key_value is not None] at the point where the bias is sliced:
    the argument was supplied, or [use_cache] has just rebound it. *)
Definition cache_in_play (past_key_value : option (list T4)) (use_cache : bool) : bool :=
  use_cache || match past_key_value with Some _ => true | None => false end.

(** The two mask penalties, read off the values of one call. *)
Definition bias_penalty (mask : T4) : T4 := map4 (fun m => ((1 - m) * -1000)%R) mask.
Definition score_penalty (mask : T4) : T4 := map4 (fun m => (10000 * (1 - m))%R) mask.

Definition folds_bias_penalty (tr : MHA.trace) (mask : T4) : Prop :=
  broadcast4 Rplus (MHA.t_unmasked_bias tr) (bias_penalty mask) = Ok (MHA.t_position_bias tr)
  /\ MHA.t_position_bias tr <> MHA.t_unmasked_bias tr.

Definition subtracts_score_penalty (self : MHA.t) (tr : MHA.trace) (mask : T4) : Prop :=
  exists kept,
    broadcast4 Rmult (MHA.apply_coeff self (MHA.t_biased_scores tr)) mask = Ok kept
    /\ broadcast4 Rminus kept (score_penalty mask) = Ok (MHA.t_attention_scores tr)
    /\ MHA.t_attention_scores tr <> kept.

(** Every [x[b][h]] has [n] positions along the sequence dimension. *)
Definition rows (n : nat) (x : T4) : Prop :=
  Forall (Forall (fun m : Mat => length m = n)) x.

(** [cache] is [past] with exactly [n] positions appended to every
    [past[b][h]]: one entry per entry of the batch and per head, none
    added and none lost. *)
Definition extends_by (n : nat) (past cache : T4) : Prop :=
  Forall2 (Forall2 (fun (m m' : Mat) => exists new, length new = n /\ m' = m ++ new))
          past cache.

(** Every [x[b]] has [n] positions: the query length of a hidden state. *)
Definition query_len (n : nat) (x : T3) : Prop :=
  Forall (fun m : Mat => length m = n) x.

(** Stochastic depth acts on the hidden state: whatever [self.drop_path]
    does to an (output, cache) pair, the cache comes back as it went in. *)
Definition keeps_cache (m : TransformerLayer.drop_path_module) : Prop :=
  match m with
  | TransformerLayer.Identity => True
  | TransformerLayer.DropPath f =>
      forall o kv y, f (MHA.WithCache o kv) = Ok y -> exists o', y = MHA.WithCache o' kv
  end.

(** Which exceptions a computation can raise. *)
Definition raises_only {A : Type} (P : exn -> Prop) (c : result A) : Prop :=
  forall e, c = Raise e -> P e.

Definition not_no_key_value_source (e : exn) : Prop :=
  e <> ValueError MHA.no_key_value_source.


(** ** Shapes

    A list of [n] elements that all satisfy [P]; tensors of a given shape
    are such lists, level by level. *)
Definition shaped {A : Type} (n : nat) (P : A -> Prop) (l : list A) : Prop :=
  length l = n /\ Forall P l.

Definition vec_shape (c : nat) (v : Vec) : Prop := length v = c.
Definition mat_shape (r c : nat) (m : Mat) : Prop := shaped r (vec_shape c) m.
Definition t3_shape (b r c : nat) (x : T3) : Prop := shaped b (mat_shape r c) x.
Definition t4_shape (b h r c : nat) (x : T4) : Prop := shaped b (t3_shape h r c) x.

(** Two sizes that broadcast against each other, and the size that results. *)
Definition compat (n m : nat) : Prop := n = m \/ n = 1%nat \/ m = 1%nat.
Definition bres (n m : nat) : nat := if Nat.eqb n 1 then m else n.

(** The weights have the shapes the constructor asks for, and dropout
    keeps the shape of the attention weights. *)
Definition well_formed (self : MHA.t) : Prop :=
  MHA.hidden_size self = (MHA.num_heads self * MHA.head_size self)%nat
  /\ mat_shape (MHA.hidden_size self) (MHA.hidden_size self) (Linear.weight (MHA.query self))
  /\ mat_shape (2 * MHA.hidden_size self) (MHA.hidden_size self)
       (Linear.weight (MHA.key_value self))
  /\ mat_shape (3 * MHA.hidden_size self) (MHA.hidden_size self)
       (Linear.weight (MHA.query_key_value self))
  /\ mat_shape (MHA.hidden_size self) (MHA.hidden_size self) (Linear.weight (MHA.dense self))
  /\ (forall b h r c x, t4_shape b h r c x -> t4_shape b h r c (MHA.dropout self x)).

(** A tensor that broadcasts into the shape [(b, h, r, c)]: each of its
    sizes is that of the target, or one. *)
Definition fits (n m : nat) : Prop := m = n \/ m = 1%nat.

Definition t4_fits (b h r c : nat) (x : T4) : Prop :=
  exists b' h' r' c',
    t4_shape b' h' r' c' x /\ fits b b' /\ fits h h' /\ fits r r' /\ fits c c'.

(** The bias and mask arguments of a well-shaped incremental step of self
    attention over a batch of [bsz] with [L] cached positions: a supplied
    bias, with or without a mask, that broadcasts into the scores; or no
    bias, a layer without bias table, and a mask that broadcasts into the
    bias of one batch entry that the layer builds and adds the mask to in
    place. *)
Definition step_arguments_fit (self : MHA.t) (bsz L : nat) (encoder_states : option T3)
    (attention_mask position_bias : option T4) (query_length : option nat) : Prop :=
  match position_bias with
  | Some b =>
      t4_fits bsz (MHA.num_heads self) 1 (L + 1) b
      /\ match attention_mask with
         | Some m => t4_fits bsz (MHA.num_heads self) 1 (L + 1) m
         | None => True
         end
  | None =>
      MHA.has_relative_attention_bias self = false
      /\ encoder_states = None /\ query_length = None
      /\ (0 < MHA.num_heads self)%nat
      /\ exists m, attention_mask = Some m /\ t4_fits 1 (MHA.num_heads self) 1 (L + 1) m
  end.

(** A tensor of shape [(b, h, r, c)] whose entries all satisfy [Q]. *)
Definition t4_all (Q : R -> Prop) (b h r c : nat) (x : T4) : Prop :=
  shaped b (shaped h (shaped r (shaped c Q))) x.

(** A mask of ones that broadcasts into the shape [(b, h, r, c)]. *)
Definition ones_mask (b h r c : nat) (m : T4) : Prop :=
  exists b' h' r' c',
    t4_all (eq 1%R) b' h' r' c' m /\ fits b b' /\ fits h h' /\ fits r r' /\ fits c c'.

(** ** Indexing under broadcasting

    The element of a list that broadcasting aligns with position [i]: the
    only element of a list of length one, the element at [i] otherwise. *)
Definition bnth {A : Type} (l : list A) (i : nat) : option A :=
  match l with
  | [x] => Some x
  | _ => nth_error l i
  end.

(** The entry of [x] that broadcasting aligns with position (b, h, i, j). *)
Definition bentry4 (x : T4) (b h i j : nat) : option R :=
  match bnth x b with
  | Some xb =>
      match bnth xb h with
      | Some m =>
          match bnth m i with
          | Some row => bnth row j
          | None => None
          end
      | None => None
      end
  | None => None
  end.

(** A slice [x[b][i]] along the last dimension of a 3-d tensor. *)
Definition row3 (x : T3) (b i : nat) : option Vec :=
  match nth_error x b with
  | Some m => nth_error m i
  | None => None
  end.

(** The mean of the squares of a slice. *)
Definition mean_square (v : Vec) : R := mean (map (fun x => (x ^ 2)%R) v).

(** ** Indexing matrices of buckets *)

(** An element [m[i][j]] of a matrix given as a list of rows. *)
Definition entry2 {A : Type} (m : list (list A)) (i j : nat) : option A :=
  match nth_error m i with
  | Some row => nth_error row j
  | None => None
  end.

(** The row of the bias table that [compute_bias] looks up for the key
    at position [j] and the query at position [i]. *)
Definition bias_row (self : MHA.t) (i j : nat) : option Vec :=
  nth_error (Embedding.weight (MHA.relative_attention_bias self))
    (Z.to_nat (MHA.bucket_at (Z.of_nat j - Z.of_nat i) (negb (MHA.is_decoder self))
                 (MHA.relative_attention_num_buckets self) 128)).

(** The bucket count suits the direction of the layer and the table has a
    row for every bucket. *)
Definition bias_table_fits (self : MHA.t) : Prop :=
  ((if MHA.is_decoder self then 2 else 4) <= MHA.relative_attention_num_buckets self)%Z
  /\ (MHA.relative_attention_num_buckets self / 2 < 128)%Z
  /\ (Z.to_nat (MHA.relative_attention_num_buckets self)
      <= length (Embedding.weight (MHA.relative_attention_bias self)))%nat.

(** The layer with a bias table switched on. *)
Definition with_bias_table (self : MHA.t) (num_buckets : Z) (is_decoder : bool)
    (table : Mat) : MHA.t :=
  {| MHA.hidden_size := MHA.hidden_size self;
     MHA.relative_attention_num_buckets := num_buckets;
     MHA.has_relative_attention_bias := true;
     MHA.is_decoder := is_decoder;
     MHA.num_heads := MHA.num_heads self;
     MHA.head_size := MHA.head_size self;
     MHA.dropout := MHA.dropout self;
     MHA.norm_factor := MHA.norm_factor self;
     MHA.coeff := MHA.coeff self;
     MHA.is_cross_attention := MHA.is_cross_attention self;
     MHA.scale_mask_softmax_fusion := MHA.scale_mask_softmax_fusion self;
     MHA.bias_dropout_fusion := MHA.bias_dropout_fusion self;
     MHA.output_dropout := MHA.output_dropout self;
     MHA.fused_bias_add_dropout := MHA.fused_bias_add_dropout self;
     MHA.query := MHA.query self;
     MHA.key_value := MHA.key_value self;
     MHA.query_key_value := MHA.query_key_value self;
     MHA.dense := MHA.dense self;
     MHA.relative_attention_bias :=
       {| Embedding.num_embeddings := Z.to_nat num_buckets;
          Embedding.embedding_dim := MHA.num_heads self;
          Embedding.weight := table |} |}.

(** ** Calls on arguments of fitting shapes *)










(** [flow.cat((a, b), dim=1)] on two hidden states of one batch size: the
    positions of [b] follow those of [a]. *)
Definition cat_dim1 (a b : T3) : T3 := zipWith (@app Vec) a b.

(** The matrix [x[b][h]] of a 4-d tensor. *)
Definition mat4 (x : T4) (b h : nat) : option Mat :=
  match nth_error x b with
  | Some xb => nth_error xb h
  | None => None
  end.

(** ** Concrete layers used to exercise the definitions *)

Module Fixtures.

Definition ident (n : nat) : Mat :=
  map (fun i => map (fun j => if Nat.eqb i j then 1%R else 0%R) (seq 0 n)) (seq 0 n).

(** Identity projections, dropout switched off, no bias table. *)
Definition plain_params (n : nat) : MultiheadAttention.params :=
  {| MultiheadAttention.p_dropout := fun x => x;
     MultiheadAttention.p_output_dropout := fun x => x;
     MultiheadAttention.p_fused_bias_add_dropout := fun x => x;
     MultiheadAttention.p_query := ident n;
     MultiheadAttention.p_key_value := ident n ++ ident n;
     MultiheadAttention.p_query_key_value := ident n ++ ident n ++ ident n;
     MultiheadAttention.p_dense := ident n;
     MultiheadAttention.p_relative_attention_bias := [];
     MultiheadAttention.p_raises := fun _ => None |}.

Definition build (hidden heads : nat) (cross scaling : bool) (layer_idx : Z)
    : result MultiheadAttention.t :=
  MultiheadAttention.init (Z.of_nat hidden) (Z.of_nat heads) 32 cross 0 0 false false
    scaling layer_idx false false (plain_params hidden).

(** The layer [build] constructs when scaling by depth is off. *)
Definition layer (hidden heads : nat) (cross : bool) : MultiheadAttention.t :=
  {| MHA.hidden_size := hidden;
     MHA.relative_attention_num_buckets := 32;
     MHA.has_relative_attention_bias := false;
     MHA.is_decoder := false;
     MHA.num_heads := heads;
     MHA.head_size := hidden / heads;
     MHA.dropout := fun x => x;
     MHA.norm_factor := (1 / sqrt (INR (hidden / heads)))%R;
     MHA.coeff := None;
     MHA.is_cross_attention := cross;
     MHA.scale_mask_softmax_fusion := false;
     MHA.bias_dropout_fusion := false;
     MHA.output_dropout := fun x => x;
     MHA.fused_bias_add_dropout := fun x => x;
     MHA.query := {| Linear.in_features := hidden;
                     Linear.out_features := hidden;
                     Linear.weight := ident hidden |};
     MHA.key_value := {| Linear.in_features := hidden;
                         Linear.out_features := hidden * 2;
                         Linear.weight := ident hidden ++ ident hidden |};
     MHA.query_key_value :=
       {| Linear.in_features := hidden;
          Linear.out_features := hidden * 3;
          Linear.weight := ident hidden ++ ident hidden ++ ident hidden |};
     MHA.dense := {| Linear.in_features := hidden;
                     Linear.out_features := hidden;
                     Linear.weight := ident hidden |};
     MHA.relative_attention_bias :=
       {| Embedding.num_embeddings := 32;
          Embedding.embedding_dim := heads;
          Embedding.weight := [] |} |}.

(** A decoder layer over [layer], with the identity as feed-forward. *)
Definition decoder (hidden heads : nat) : TransformerLayer.t :=
  {| TransformerLayer.layer_idx := 0;
     TransformerLayer.is_decoder := true;
     TransformerLayer.drop_path := TransformerLayer.Identity;
     TransformerLayer.input_layernorm := LayerNorm.init hidden 1e-5;
     TransformerLayer.self_attention := layer hidden heads false;
     TransformerLayer.post_attention_layernorm := LayerNorm.init hidden 1e-5;
     TransformerLayer.cross_attention := layer hidden heads true;
     TransformerLayer.post_cross_attention_layernorm := LayerNorm.init hidden 1e-5;
     TransformerLayer.mlp := fun x => x |}.

(** An encoder layer over [layer], with the identity as feed-forward. *)
Definition encoder (hidden heads : nat) : TransformerLayer.t :=
  {| TransformerLayer.layer_idx := 0;
     TransformerLayer.is_decoder := false;
     TransformerLayer.drop_path := TransformerLayer.Identity;
     TransformerLayer.input_layernorm := LayerNorm.init hidden 1e-5;
     TransformerLayer.self_attention := layer hidden heads false;
     TransformerLayer.post_attention_layernorm := LayerNorm.init hidden 1e-5;
     TransformerLayer.cross_attention := layer hidden heads true;
     TransformerLayer.post_cross_attention_layernorm := LayerNorm.init hidden 1e-5;
     TransformerLayer.mlp := fun x => x |}.

(** The layer [build] constructs with scaling by depth at layer index 1. *)
Definition scaled_layer (hidden heads : nat) : MultiheadAttention.t :=
  {| MHA.hidden_size := hidden;
     MHA.relative_attention_num_buckets := 32;
     MHA.has_relative_attention_bias := false;
     MHA.is_decoder := false;
     MHA.num_heads := heads;
     MHA.head_size := hidden / heads;
     MHA.dropout := fun x => x;
     MHA.norm_factor := (1 / sqrt (INR (hidden / heads)) / 2)%R;
     MHA.coeff := Some 2%Z;
     MHA.is_cross_attention := false;
     MHA.scale_mask_softmax_fusion := false;
     MHA.bias_dropout_fusion := false;
     MHA.output_dropout := fun x => x;
     MHA.fused_bias_add_dropout := fun x => x;
     MHA.query := MHA.query (layer hidden heads false);
     MHA.key_value := MHA.key_value (layer hidden heads false);
     MHA.query_key_value := MHA.query_key_value (layer hidden heads false);
     MHA.dense := MHA.dense (layer hidden heads false);
     MHA.relative_attention_bias := MHA.relative_attention_bias (layer hidden heads false) |}.

(** A norm of one feature with the default epsilon. *)
Definition norm : LayerNorm.t := LayerNorm.init 1 1e-6.

(** A bias table whose row [i] holds [i] for every head. *)
Definition table (num_buckets heads : nat) : Mat :=
  map (fun i => repeat (INR i) heads) (seq 0 num_buckets).

(** [layer] with a table of 8 buckets, in the unidirectional mode of a
    decoder. *)
Definition biased_layer (hidden heads : nat) : MultiheadAttention.t :=
  with_bias_table (layer hidden heads false) 8 true (table 8 heads).

End Fixtures.

(* ------------------------------------------------------------------ *)
(** * Properties *)

Local Open Scope R_scope.

(** ** Running a computation in the error monad *)

Lemma bind_Ok {A B : Type} (c : result A) (k : A -> result B) (b : B) :
  bind c k = Ok b -> exists a, c = Ok a /\ k a = Ok b.
Proof. destruct c as [a|e]; simpl; [eauto | discriminate]. Qed.

Lemma bind_Raise {A B : Type} (c : result A) (k : A -> result B) (e : exn) :
  bind c k = Raise e -> c = Raise e \/ exists a, c = Ok a /\ k a = Raise e.
Proof. destruct c as [a|e']; simpl; [eauto | intros [= ->]; now left]. Qed.

Lemma bind_always_raises {A B : Type} (c : result A) (k : A -> result B) :
  (forall a, exists e, k a = Raise e) -> exists e, bind c k = Raise e.
Proof. intros Hk. destruct c as [a|e]; simpl; [apply Hk | eauto]. Qed.

(** Evaluate a call on concrete tensors, leaving the real arithmetic as
    it stands. *)
Ltac run :=
  lazy -[Rplus Rmult Ropp Rinv Rminus Rdiv sqrt exp ln IZR INR Rle_dec Req_dec_T
         Int_part pow rsqrt].

Ltac run_in H :=
  lazy -[Rplus Rmult Ropp Rinv Rminus Rdiv sqrt exp ln IZR INR Rle_dec Req_dec_T
         Int_part pow rsqrt] in H.

(** One step through a successful run: split a bind, open a pair. *)
Ltac step_ok H :=
  match type of H with
  | bind _ _ = Ok _ =>
      let a := fresh "v" in
      let E := fresh "E" in
      apply bind_Ok in H; destruct H as (a & E & H)
  | context [match ?x with pair _ _ => _ end] => is_var x; destruct x
  end.

Lemma mapM_map {A B C : Type} (f : B -> result C) (g : A -> B) (l : list A) :
  mapM f (map g l) = mapM (fun a => f (g a)) l.
Proof. induction l as [|a l IH]; simpl; [reflexivity | rewrite IH; reflexivity]. Qed.

Lemma mapM_ext {A B : Type} (f g : A -> result B) (l : list A) :
  (forall a, f a = g a) -> mapM f l = mapM g l.
Proof.
  intros H. induction l as [|a l IH]; simpl; [reflexivity | rewrite H, IH; reflexivity].
Qed.

Lemma mapM_nth {A B : Type} {f : A -> result B} {l : list A} {l' : list B} {i : nat}
    {x : A} :
  mapM f l = Ok l' -> nth_error l i = Some x ->
  exists y, nth_error l' i = Some y /\ f x = Ok y.
Proof.
  revert l' i. induction l as [|a l IH]; intros l' i H Hx.
  - destruct i; discriminate.
  - simpl in H. repeat step_ok H. injection H as <-.
    destruct i as [|i]; simpl in *.
    + injection Hx as <-. eauto.
    + eauto.
Qed.

Lemma mapM_length {A B : Type} {f : A -> result B} {l : list A} {l' : list B} :
  mapM f l = Ok l' -> length l' = length l.
Proof.
  revert l'. induction l as [|a l IH]; intros l' H; simpl in H.
  - now injection H as <-.
  - repeat step_ok H. injection H as <-. simpl. f_equal. eauto.
Qed.

Lemma mapM_Forall {A B : Type} {f : A -> result B} {l : list A} {l' : list B}
    (P : A -> Prop) (Q : B -> Prop) :
  mapM f l = Ok l' -> Forall P l -> (forall a b, P a -> f a = Ok b -> Q b) -> Forall Q l'.
Proof.
  intros H HP Hf. revert l' H. induction HP as [|a l Ha HP IH]; intros l' H; simpl in H.
  - injection H as <-. constructor.
  - repeat step_ok H. injection H as <-. constructor; eauto.
Qed.

Lemma zipM_nth {A B C : Type} {f : A -> B -> result C} {a : list A} {b : list B}
    {c : list C} {i : nat} {x : A} {y : B} :
  zipM f a b = Ok c -> nth_error a i = Some x -> nth_error b i = Some y ->
  exists z, nth_error c i = Some z /\ f x y = Ok z.
Proof.
  unfold zipM. destruct (Nat.eqb (length a) (length b)); [|discriminate].
  intros H Hx Hy.
  assert (Hxy : nth_error (combine a b) i = Some (x, y)).
  { clear H. revert b i Hx Hy. induction a as [|a0 a IH]; intros [|b0 b] [|i] Hx Hy;
      simpl in *; try discriminate.
    - now injection Hx as <-; injection Hy as <-.
    - eauto. }
  destruct (mapM_nth H Hxy) as (z & Hz & Hf). eauto.
Qed.

Lemma zipM_Forall {A B C : Type} {f : A -> B -> result C} {a : list A} {b : list B}
    {c : list C} (P : A -> Prop) (Q : B -> Prop) (S : C -> Prop) :
  zipM f a b = Ok c -> Forall P a -> Forall Q b ->
  (forall x y z, P x -> Q y -> f x y = Ok z -> S z) -> Forall S c.
Proof.
  unfold zipM. destruct (Nat.eqb _ _); [|discriminate]. intros H HP HQ Hf.
  apply (mapM_Forall (fun p => P (fst p) /\ Q (snd p)) S H).
  - clear H. revert b HQ. induction HP as [|x a Hx HP IH]; intros b HQ; simpl.
    + constructor.
    + destruct HQ as [|y b Hy HQ]; constructor; auto.
  - intros [x y] z [Hx Hy]. simpl. eauto.
Qed.

(** ** In-place operations

    Where an in-place operation returns, the operation that builds a new
    tensor returns the same. *)

Lemma bzip_into_bzip {A B : Type} (f g : A -> B -> result A) (a : list A) (b : list B)
    (c : list A) :
  (forall x y z, f x y = Ok z -> g x y = Ok z) ->
  bzip_into f a b = Ok c -> bzip g a b = Ok c.
Proof.
  intros Hfg. unfold bzip_into, bzip.
  assert (Hm : forall (A' : Type) (f' g' : A' -> result A) (l : list A') (c' : list A),
             (forall x z, f' x = Ok z -> g' x = Ok z) ->
             mapM f' l = Ok c' -> mapM g' l = Ok c').
  { intros A' f' g' l. induction l as [|x l IH]; intros c' Hf' H; simpl in *.
    - exact H.
    - repeat step_ok H. injection H as <-.
      rewrite (Hf' _ _ E). cbn [bind]. rewrite (IH _ Hf' E0). reflexivity. }
  destruct (Nat.eqb_spec (length a) (length b)) as [E|E].
  - apply Hm. intros [x y] z. apply Hfg.
  - destruct b as [|y [|y' b]]; try discriminate.
    destruct a as [|x [|x' a]].
    + apply Hm. intros x z. apply Hfg.
    + simpl in E. contradiction.
    + apply Hm. intros x0 z. apply Hfg.
Qed.

Lemma inplace4_broadcast4 (f : R -> R -> R) (a b c : T4) :
  inplace4 f a b = Ok c -> broadcast4 f a b = Ok c.
Proof.
  unfold inplace4, broadcast4, broadcast3.
  apply bzip_into_bzip. intros x3 y3 z3.
  apply bzip_into_bzip. intros xm ym zm.
  apply bzip_into_bzip. intros xv yv zv.
  apply bzip_into_bzip. auto.
Qed.

(** ** RMS LayerNorm *)

Lemma rsum_map_scale (k : R) (v : Vec) : rsum (map (Rmult k) v) = k * rsum v.
Proof. induction v as [|a v IH]; simpl; [ring | rewrite IH; ring]. Qed.

Lemma mean_sq_scale (c : R) (v : Vec) :
  mean (map (fun x => x ^ 2) (map (Rmult c) v)) = c * c * mean (map (fun x => x ^ 2) v).
Proof.
  unfold mean. rewrite !length_map, map_map.
  replace (map (fun x => (c * x) ^ 2) v) with (map (Rmult (c * c)) (map (fun x => x ^ 2) v)).
  - rewrite rsum_map_scale. unfold Rdiv. ring.
  - rewrite map_map. apply map_ext. intros. ring.
Qed.

Lemma rsqrt_scale (c v e : R) : 0 < c -> rsqrt (c * c * v + e) = / c * rsqrt (v + e / (c * c)).
Proof.
  intros Hc. unfold rsqrt.
  replace (c * c * v + e) with ((c * c) * (v + e / (c * c))) by (field; lra).
  rewrite sqrt_mult_alt by nra. rewrite sqrt_square by lra.
  destruct (Req_dec (sqrt (v + e / (c * c))) 0) as [H0|H0].
  - rewrite H0. rewrite Rmult_0_r. rewrite Rinv_0. ring.
  - field. split; lra.
Qed.

Lemma forward_row_scale (self : LayerNorm.t) (c : R) (row : Vec) :
  0 < c ->
  LayerNorm.forward_row self (map (Rmult c) row)
  = LayerNorm.forward_row
      (LayerNorm.with_eps self (LayerNorm.variance_epsilon self / (c * c))) row.
Proof.
  intros Hc. unfold LayerNorm.forward_row, to_dtype. simpl.
  rewrite mean_sq_scale, rsqrt_scale by assumption.
  rewrite map_map.
  replace (map (fun x => c * x * (/ c * rsqrt (mean (map (fun x0 => x0 ^ 2) row)
                                     + LayerNorm.variance_epsilon self / (c * c)))) row)
    with (map (fun x => x * rsqrt (mean (map (fun x0 => x0 ^ 2) row)
                                     + LayerNorm.variance_epsilon self / (c * c))) row).
  - destruct (LayerNorm.weight_dtype self); reflexivity.
  - apply map_ext. intros a. field. lra.
Qed.

(** C6 (amended).  Scaling the input of the RMS norm by [c > 0] is the
    same as dividing its epsilon by [c * c]: [norm_eps (c * x)] equals
    [norm_(eps / c^2) x].  The output is unchanged by the scaling when the
    epsilon is zero. *)
Theorem rmsnorm_scale_shifts_epsilon (self : LayerNorm.t) (x : T3) (c : R) :
  0 < c ->
  LayerNorm.forward self (scale c x)
  = LayerNorm.forward
      (LayerNorm.with_eps self (LayerNorm.variance_epsilon self / (c * c))) x
  /\ (LayerNorm.variance_epsilon self = 0 ->
      LayerNorm.forward self (scale c x) = LayerNorm.forward self x).
Proof.
  intros Hc.
  assert (E : LayerNorm.forward self (scale c x)
              = LayerNorm.forward
                  (LayerNorm.with_eps self (LayerNorm.variance_epsilon self / (c * c))) x).
  { unfold LayerNorm.forward, scale. rewrite mapM_map. apply mapM_ext. intros m.
    rewrite mapM_map. apply mapM_ext. intros row. now apply forward_row_scale. }
  split; [exact E|]. intros H0. rewrite E, H0.
  replace (0 / (c * c)) with 0 by (field; lra).
  destruct self as [w d e]. simpl in H0. subst e. reflexivity.
Qed.

Lemma rmsnorm_scale_shifts_epsilon_witness :
  LayerNorm.forward Fixtures.norm (scale 2 [[[3; 4]]])
  = LayerNorm.forward
      (LayerNorm.with_eps Fixtures.norm (LayerNorm.variance_epsilon Fixtures.norm / (2 * 2)))
      [[[3; 4]]].
Proof.
  apply (proj1 (rmsnorm_scale_shifts_epsilon Fixtures.norm [[[3; 4]]] 2 ltac:(lra))).
Defined.

(** With the default epsilon [1e-6], the input [0.001] and the factor
    [1000]: the norm of the scaled input is above 0.99, the norm of the
    input itself below 0.75. *)
Lemma rmsnorm_scale_counterexample :
  0 < 1000 /\
  exists y1 y2,
    LayerNorm.forward Fixtures.norm (scale 1000 [[[1e-3]]]) = Ok [[[y1]]]
    /\ LayerNorm.forward Fixtures.norm [[[1e-3]]] = Ok [[[y2]]]
    /\ y2 < 0.75 /\ 0.99 < y1.
Proof.
  split; [lra|]. eexists. eexists. split; [reflexivity|]. split; [reflexivity|].
  simpl. unfold mean, rsqrt. simpl.
  replace ((1000 * 1e-3 * (1000 * 1e-3 * 1) + 0) / 1 + 1e-6) with (1 + 1e-6) by lra.
  replace ((1e-3 * (1e-3 * 1) + 0) / 1 + 1e-6) with 2e-6 by lra.
  assert (P1 : 0 < 1 + 1e-6) by lra.
  assert (P2 : 0 < 2e-6) by lra.
  pose proof (sqrt_lt_R0 _ P1) as S1. pose proof (sqrt_lt_R0 _ P2) as S2.
  pose proof (sqrt_sqrt _ (Rlt_le _ _ P1)) as Q1.
  pose proof (sqrt_sqrt _ (Rlt_le _ _ P2)) as Q2.
  set (a := sqrt (1 + 1e-6)) in *. set (b := sqrt 2e-6) in *.
  assert (Ha : a < 1.01) by nra.
  assert (Hb : 1.4e-3 < b) by nra.
  split.
  - apply Rmult_lt_reg_r with b; [assumption|].
    replace (1 * (1e-3 * / b) * b) with (1e-3 * (/ b * b)) by (field; lra).
    rewrite Rinv_l by lra. lra.
  - apply Rmult_lt_reg_r with a; [assumption|].
    replace (1 * (1000 * 1e-3 * / a) * a) with (/ a * a) by (field; lra).
    rewrite Rinv_l by lra. lra.
Qed.

(** ** Relative position buckets *)

Lemma zipWith_map {A B C D : Type} (f : B -> C -> D) (g : A -> B) (h : A -> C) (l : list A) :
  zipWith f (map g l) (map h l) = map (fun a => f (g a) (h a)) l.
Proof. unfold zipWith. induction l as [|a l IH]; simpl; [reflexivity | now rewrite IH]. Qed.

Lemma zipWith2_map2 {A B C D : Type} (f : B -> C -> D) (g : A -> B) (h : A -> C)
    (m : list (list A)) :
  zipWith2 f (map2 g m) (map2 h m) = map2 (fun a => f (g a) (h a)) m.
Proof.
  unfold zipWith2, map2. rewrite zipWith_map. apply map_ext. intros row. apply zipWith_map.
Qed.

Lemma where_map2 {A B : Type} (c : A -> bool) (g h : A -> B) (m : list (list A)) :
  where_ (map2 c m) (map2 g m) (map2 h m) = map2 (fun a => if c a then g a else h a) m.
Proof. unfold where_. rewrite zipWith2_map2, zipWith2_map2. reflexivity. Qed.

Lemma map2_map2 {A B C : Type} (f : B -> C) (g : A -> B) (m : list (list A)) :
  map2 f (map2 g m) = map2 (fun a => f (g a)) m.
Proof. unfold map2. rewrite map_map. apply map_ext. intros. apply map_map. Qed.

Lemma map2_ext {A B : Type} (f g : A -> B) (m : list (list A)) :
  (forall a, f a = g a) -> map2 f m = map2 g m.
Proof. intros H. unfold map2. apply map_ext. intros. now apply map_ext. Qed.

Section BucketBounds.

Local Open Scope Z_scope.

(** The vectorised function, read one position at a time. *)
Lemma relative_position_bucket_elementwise (rp : list (list Z)) (bidirectional : bool)
    (num_buckets max_distance : Z) :
  let nb := if bidirectional then num_buckets / 2 else num_buckets in
  nb / 2 <> 0 -> 0 < max_distance * (nb / 2) ->
  MHA._relative_position_bucket rp bidirectional num_buckets max_distance
  = Ok (map2 (fun p => MHA.bucket_at p bidirectional num_buckets max_distance) rp).
Proof.
  intros nb Hne Hpos. unfold MHA._relative_position_bucket. fold nb.
  destruct (Z.eqb_spec (nb / 2) 0) as [E|_]; [contradiction|].
  destruct (Z.leb_spec (max_distance * (nb / 2)) 0) as [E|_]; [lia|].
  cbn [bind]. f_equal. unfold MHA.bucket_at. fold nb.
  destruct bidirectional.
  - rewrite !map2_map2. rewrite where_map2. rewrite zipWith2_map2.
    apply map2_ext. intros p. lia.
  - rewrite !map2_map2. rewrite where_map2. rewrite zipWith2_map2.
    apply map2_ext. intros p. lia.
Qed.

Lemma to_long_nonneg (x : R) : (0 <= x)%R -> 0 <= to_long x.
Proof.
  intros Hx. unfold to_long. destruct (Rle_dec 0 x) as [_|N]; [|contradiction].
  destruct (base_Int_part x) as [_ Hlo].
  assert (H : (IZR (-1) < IZR (Int_part x))%R) by lra.
  apply lt_IZR in H. lia.
Qed.

Lemma ln_nonneg (x : R) : (1 <= x)%R -> (0 <= ln x)%R.
Proof.
  intros [H|H].
  - rewrite <- ln_1. left. apply ln_increasing; lra.
  - rewrite <- H, ln_1. lra.
Qed.

Lemma ratio_ge_1 (a b : Z) : 0 < b -> b <= a -> (1 <= IZR a / IZR b)%R.
Proof.
  intros Hb Hab. apply IZR_lt in Hb. apply IZR_le in Hab.
  apply Rmult_le_reg_r with (IZR b); [assumption|].
  unfold Rdiv. rewrite Rmult_assoc, Rinv_l by lra. lra.
Qed.

Lemma ratio_gt_1 (a b : Z) : 0 < b -> b < a -> (1 < IZR a / IZR b)%R.
Proof.
  intros Hb Hab. apply IZR_lt in Hb. apply IZR_lt in Hab.
  apply Rmult_lt_reg_r with (IZR b); [assumption|].
  unfold Rdiv. rewrite Rmult_assoc, Rinv_l by lra. lra.
Qed.

Lemma if_large_bounds (q max_exact nb max_distance : Z) :
  0 < max_exact -> max_exact <= q -> max_exact < max_distance -> max_exact <= nb - 1 ->
  0 <= MHA.if_large q max_exact nb (ln (IZR max_distance / IZR max_exact)) <= nb - 1.
Proof.
  intros Hme Hq Hmd Hnb. unfold MHA.if_large.
  assert (Hnum : (0 <= ln (IZR q / IZR max_exact))%R)
    by (apply ln_nonneg, ratio_ge_1; lia).
  assert (Hden : (0 < ln (IZR max_distance / IZR max_exact))%R).
  { rewrite <- ln_1. apply ln_increasing; [lra|]. apply ratio_gt_1; lia. }
  assert (Hw : (0 <= IZR (nb - max_exact))%R) by (apply IZR_le; lia).
  assert (Hprod : (0 <= ln (IZR q / IZR max_exact) / ln (IZR max_distance / IZR max_exact)
                        * IZR (nb - max_exact))%R).
  { apply Rmult_le_pos; [|assumption]. apply Rmult_le_pos; [assumption|].
    left. now apply Rinv_0_lt_compat. }
  pose proof (to_long_nonneg _ Hprod). lia.
Qed.

Lemma bucket_at_bounds (p : Z) (bidirectional : bool) (num_buckets max_distance : Z) :
  2 <= num_buckets -> (bidirectional = true -> 4 <= num_buckets) ->
  num_buckets / 2 < max_distance ->
  0 <= MHA.bucket_at p bidirectional num_buckets max_distance <= num_buckets - 1.
Proof.
  intros Hnb Hbi Hmd. unfold MHA.bucket_at.
  destruct bidirectional.
  - specialize (Hbi eq_refl).
    set (nb := num_buckets / 2). set (me := nb / 2).
    assert (Hnb2 : 2 <= nb) by (subst nb; apply Z.div_le_lower_bound; lia).
    assert (Hnb3 : 2 * nb <= num_buckets) by (subst nb; apply Z.mul_div_le; lia).
    assert (Hme1 : 1 <= me) by (subst me; apply Z.div_le_lower_bound; lia).
    assert (Hme2 : 2 * me <= nb) by (subst me; apply Z.mul_div_le; lia).
    destruct (Z.ltb_spec (Z.abs p) me) as [Hs|Hl].
    + destruct (Z.ltb_spec 0 p); lia.
    + pose proof (if_large_bounds (Z.abs p) me nb max_distance) as B.
      destruct (Z.ltb_spec 0 p); lia.
  - set (me := num_buckets / 2).
    assert (Hme1 : 1 <= me) by (subst me; apply Z.div_le_lower_bound; lia).
    assert (Hme2 : 2 * me <= num_buckets) by (subst me; apply Z.mul_div_le; lia).
    destruct (Z.ltb_spec (-1 * Z.min p 0) me) as [Hs|Hl].
    + lia.
    + pose proof (if_large_bounds (-1 * Z.min p 0) me num_buckets max_distance) as B. lia.
Qed.





End BucketBounds.

(** ** MultiheadAttention *)

(** The layers used as examples are what the constructor returns. *)
Lemma build_layer (hidden heads : nat) (cross : bool) :
  heads <> 0%nat -> (hidden mod heads)%nat = 0%nat -> (hidden / heads)%nat <> 0%nat ->
  MHA.float_overflows (Z.of_nat (hidden / heads)) = false ->
  Fixtures.build hidden heads cross false 0 = Ok (Fixtures.layer hidden heads cross).
Proof.
  intros Hh Hm Hs Hf. unfold Fixtures.build, MHA.init, MHA.construct.
  cbn [Fixtures.plain_params MHA.p_raises].
  destruct (Z.eqb_spec (Z.of_nat heads) 0) as [E|_]; [lia|].
  rewrite <- Nat2Z.inj_mod, Hm. cbn [Z.of_nat Z.eqb bind].
  rewrite <- Nat2Z.inj_div, Hf.
  destruct (Z.ltb_spec (Z.of_nat (hidden / heads)) 0) as [E|_]; [lia|].
  destruct (Z.eqb_spec (Z.of_nat (hidden / heads)) 0) as [E|_]; [lia|].
  destruct cross; cbn [bind];
    rewrite !Nat2Z.id;
    replace (Z.to_nat (Z.of_nat hidden * 2)) with (hidden * 2)%nat by lia;
    replace (Z.to_nat (Z.of_nat hidden * 3)) with (hidden * 3)%nat by lia;
    reflexivity.
Qed.

Lemma build_scaled_layer :
  Fixtures.build 1 1 false true 1 = Ok (Fixtures.scaled_layer 1 1).
Proof. reflexivity. Qed.

Lemma forward_trace_stages (self : MHA.t) hs enc mask pkv uc pb ql tr :
  MHA.forward_trace self hs enc mask pkv uc pb ql = Ok tr ->
  matmul_transpose_b (MHA.t_query tr) (MHA.t_key tr) = Ok (MHA.t_raw_scores tr)
  /\ broadcast4 Rplus (MHA.t_raw_scores tr) (MHA.t_position_bias tr)
     = Ok (MHA.t_biased_scores tr)
  /\ snd (MHA.t_result tr) = MHA.t_position_bias tr.
Proof.
  intros H. unfold MHA.forward_trace in H.
  repeat step_ok H.
  injection H as <-. simpl. auto using inplace4_broadcast4.
Qed.

Lemma dot_Ok {a b : Vec} {s : R} : dot a b = Ok s -> s = rsum (zipWith Rmult a b).
Proof. unfold dot. destruct (Nat.eqb _ _); [now intros [= <-] | discriminate]. Qed.

Lemma matmul_transpose_b_entry (q k s : T4) (b h i j : nat) (qrow krow : Vec) :
  matmul_transpose_b q k = Ok s ->
  row4 q b h i = Some qrow -> row4 k b h j = Some krow ->
  entry4 s b h i j = Some (rsum (zipWith Rmult qrow krow)).
Proof.
  unfold matmul_transpose_b, entry4, row4. intros H Hq Hk.
  destruct (nth_error q b) as [qb|] eqn:Eqb; [|discriminate].
  destruct (nth_error qb h) as [qm|] eqn:Eqh; [|discriminate].
  destruct (nth_error k b) as [kb|] eqn:Ekb; [|discriminate].
  destruct (nth_error kb h) as [km|] eqn:Ekh; [|discriminate].
  destruct (zipM_nth H Eqb Ekb) as (sb & -> & Hb).
  destruct (zipM_nth Hb Eqh Ekh) as (sm & -> & Hm).
  unfold matmul_nt in Hm.
  destruct (mapM_nth Hm Hq) as (srow & -> & Hrow).
  destruct (mapM_nth Hrow Hk) as (v & -> & Hv).
  now rewrite (dot_Ok Hv).
Qed.

(** C1 (amended).  The raw attention scores are the plain dot products
    of the query rows with the key rows, with no scale factor:
    [self.norm_factor] (1/sqrt(head_size), divided by [layer_idx + 1] under
    [apply_query_key_layer_scaling]) is set by the constructor and never
    read by [forward], which returns the same values whatever is stored
    there. *)
Theorem raw_scores_are_plain_dot_products (self : MHA.t) hs enc mask pkv uc pb ql tr :
  MHA.forward_trace self hs enc mask pkv uc pb ql = Ok tr ->
  (forall b h i j qrow krow,
      row4 (MHA.t_query tr) b h i = Some qrow ->
      row4 (MHA.t_key tr) b h j = Some krow ->
      entry4 (MHA.t_raw_scores tr) b h i j = Some (rsum (zipWith Rmult qrow krow)))
  /\ (forall nf,
        MHA.forward_trace (with_norm_factor self nf) hs enc mask pkv uc pb ql = Ok tr).
Proof.
  intros H. split.
  - intros b h i j qrow krow Hq Hk.
    destruct (forward_trace_stages _ _ _ _ _ _ _ _ _ H) as (Hm & _).
    exact (matmul_transpose_b_entry _ _ _ _ _ _ _ _ _ Hm Hq Hk).
  - intros nf. rewrite <- H. reflexivity.
Qed.

Lemma raw_scores_are_plain_dot_products_witness :
  exists tr qrow krow,
    MHA.forward_trace (Fixtures.layer 4 1 false) [[[1; 0; 0; 0]]] None None None false
      (Some [[[[0]]]]) None = Ok tr
    /\ row4 (MHA.t_query tr) 0 0 0 = Some qrow
    /\ row4 (MHA.t_key tr) 0 0 0 = Some krow
    /\ entry4 (MHA.t_raw_scores tr) 0 0 0 0 = Some (rsum (zipWith Rmult qrow krow)).
Proof.
  do 3 eexists. split; [reflexivity|]. split; [reflexivity|]. split; [reflexivity|].
  eapply (raw_scores_are_plain_dot_products (Fixtures.layer 4 1 false) [[[1; 0; 0; 0]]]
            None None None false (Some [[[[0]]]]) None); reflexivity.
Defined.

Lemma sqrt_4 : sqrt 4 = 2.
Proof. replace 4 with (2 * 2) by lra. apply sqrt_square. lra. Qed.

(** A layer built by the constructor with [hidden_size = 4] and one head
    has [norm_factor = 1/2]; on the hidden state (1, 0, 0, 0) with identity
    projections the raw score is the dot product 1, not 1/2. *)
Lemma raw_scores_scaled_counterexample :
  exists tr qk,
    Fixtures.build 4 1 false false 0 = Ok (Fixtures.layer 4 1 false)
    /\ MHA.forward_trace (Fixtures.layer 4 1 false) [[[1; 0; 0; 0]]] None None None false
         (Some [[[[0]]]]) None = Ok tr
    /\ matmul_transpose_b (MHA.t_query tr) (MHA.t_key tr) = Ok qk
    /\ MHA.t_raw_scores tr
       <> map4 (fun s => s * MHA.norm_factor (Fixtures.layer 4 1 false)) qk.
Proof.
  eexists. eexists. split; [reflexivity|]. split; [reflexivity|]. split; [reflexivity|].
  cbn. intros H. injection H as H.
  replace (1 + 1 + 1 + 1) with 4 in H by lra.
  rewrite sqrt_4 in H. lra.
Qed.

Lemma past_pair_inv (pkv : option (list T4)) (p : option (T4 * T4)) :
  match pkv with
  | Some [k; v] => Ok (Some (k, v))
  | Some _ => Raise AssertionError
  | None => Ok None
  end = Ok p ->
  (pkv = None /\ p = None) \/ (exists k v, pkv = Some [k; v] /\ p = Some (k, v)).
Proof.
  destruct pkv as [[|k [|v [|w l]]]|]; try discriminate; intros [= <-]; eauto.
Qed.

(** C2 (amended).  A supplied [position_bias] is added to the scores and
    returned as it is, with or without a cache.  The slice to the trailing
    rows of the current query length is applied to the bias the layer
    builds itself when none is supplied, whenever a cache is in play. *)
Theorem position_bias_resolution (self : MHA.t) hs enc mask pkv uc pb ql tr :
  MHA.forward_trace self hs enc mask pkv uc pb ql = Ok tr ->
  match pb with
  | Some b =>
      MHA.t_position_bias tr = b
      /\ broadcast4 Rplus (MHA.t_raw_scores tr) b = Ok (MHA.t_biased_scores tr)
      /\ snd (MHA.t_result tr) = b
  | None =>
      exists full,
        built_bias self hs enc pkv ql = Ok full
        /\ MHA.t_unmasked_bias tr
           = if cache_in_play pkv uc then slice_last_rows (shape1 hs) full else full
  end.
Proof.
  intros H. destruct pb as [b|].
  - destruct (forward_trace_stages _ _ _ _ _ _ _ _ _ H) as (_ & Hadd & Hret).
    unfold MHA.forward_trace in H. repeat step_ok H.
    injection E2 as <- <- <-. injection H as <-. simpl in *. auto.
  - unfold MHA.forward_trace in H.
    step_ok H. apply past_pair_inv in E.
    repeat step_ok H. injection H as <-. simpl.
    match goal with
    | Eb : bind (if negb _ then _ else _) _ = Ok _ |- _ =>
        apply bind_Ok in Eb; destruct Eb as (full & Efull & Eb);
        exists full; split;
        [ unfold built_bias, key_length, real_seq_length;
          destruct E as [[-> ->]|(k & w & -> & ->)]; destruct enc; exact Efull
        | destruct mask as [m|]; [|discriminate];
          simpl in Eb; step_ok Eb; injection Eb as <- _ _;
          unfold cache_in_play;
          destruct E as [[-> ->]|(k & w & -> & ->)]; destruct uc; reflexivity ]
    end.
Qed.

Lemma position_bias_resolution_witness :
  exists tr,
    MHA.forward_trace (Fixtures.layer 1 1 false) [[[1]]] None None
      (Some [[[[[1]; [1]]]]; [[[[1]; [1]]]]]) true (Some [[[[0; 0; 0]]]]) None = Ok tr
    /\ MHA.t_position_bias tr = [[[[0; 0; 0]]]]
    /\ broadcast4 Rplus (MHA.t_raw_scores tr) [[[[0; 0; 0]]]] = Ok (MHA.t_biased_scores tr)
    /\ snd (MHA.t_result tr) = [[[[0; 0; 0]]]].
Proof.
  eexists. split; [reflexivity|].
  apply (position_bias_resolution (Fixtures.layer 1 1 false) [[[1]]] None None
           (Some [[[[[1]; [1]]]]; [[[[1]; [1]]]]]) true (Some [[[[0; 0; 0]]]]) None).
  reflexivity.
Defined.

(** The supplied bias has the three rows of the running sequence, the
    query has two: the call fails on the unsliced bias, and succeeds once
    the caller has sliced it. *)
Lemma supplied_bias_sliced_counterexample :
  MHA.forward (Fixtures.layer 1 1 false) [[[1]; [1]]] None None
    (Some [[[[[1]]]]; [[[[1]]]]]) false (Some (zeros 1 3 3)) None
  = Raise RuntimeError
  /\ exists r,
       MHA.forward (Fixtures.layer 1 1 false) [[[1]; [1]]] None None
         (Some [[[[[1]]]]; [[[[1]]]]]) false
         (Some (slice_last_rows 2 (zeros 1 3 3))) None
       = Ok r.
Proof. split; [reflexivity | eexists; reflexivity]. Qed.

(** C3 (amended).  With a mask and without the fused softmax, every call
    multiplies the scores by the mask and subtracts [10000 * (1 - mask)];
    a call that is given no [position_bias] also folds
    [(1 - mask) * -1000] into the bias it adds and returns, so it applies
    both constants; a call that is given a bias leaves that bias alone. *)
Theorem mask_penalties (self : MHA.t) hs enc mask pkv uc pb ql tr :
  MHA.scale_mask_softmax_fusion self = false ->
  MHA.forward_trace self hs enc (Some mask) pkv uc pb ql = Ok tr ->
  (exists kept,
      broadcast4 Rmult (MHA.apply_coeff self (MHA.t_biased_scores tr)) mask = Ok kept
      /\ broadcast4 Rminus kept (score_penalty mask) = Ok (MHA.t_attention_scores tr))
  /\ match pb with
     | None =>
         broadcast4 Rplus (MHA.t_unmasked_bias tr) (bias_penalty mask)
         = Ok (MHA.t_position_bias tr)
     | Some b => MHA.t_unmasked_bias tr = b /\ MHA.t_position_bias tr = b
     end.
Proof.
  intros Hf H. unfold MHA.forward_trace in H. rewrite Hf in H.
  repeat step_ok H. injection H as <-. simpl. split.
  - match goal with
    | Em : match _ with Some _ => _ | None => _ end = Ok (_, _, ?am) |- _ =>
        assert (Ham : am = Some mask)
          by (destruct pb; simpl in Em;
              [ now injection Em as _ _ <-
              | apply bind_Ok in Em; destruct Em as (? & _ & Em);
                apply bind_Ok in Em; destruct Em as (? & _ & Em);
                now injection Em as _ _ <- ])
    end.
    subst.
    match goal with
    | Es : bind (broadcast4 Rmult _ _) _ = Ok _ |- _ =>
        apply bind_Ok in Es; destruct Es as (kept & Ek & Es);
        apply bind_Ok in Es; destruct Es as (out & Eo & Es);
        injection Es as <- _; exists kept; split; assumption
    end.
  - match goal with
    | Em : match _ with Some _ => _ | None => _ end = Ok (_, _, _) |- _ =>
        destruct pb; simpl in Em;
        [ now injection Em as <- <- _
        | apply bind_Ok in Em; destruct Em as (? & _ & Em);
          apply bind_Ok in Em; destruct Em as (? & Eb & Em);
          injection Em as <- <- _; apply inplace4_broadcast4; exact Eb ]
    end.
Qed.

Lemma mask_penalties_witness :
  exists tr,
    MHA.forward_trace (Fixtures.layer 1 1 false) [[[1]; [2]]] None
      (Some [[[[1; 0]; [1; 1]]]]) None false None None = Ok tr
    /\ (exists kept,
           broadcast4 Rmult (MHA.apply_coeff (Fixtures.layer 1 1 false)
                               (MHA.t_biased_scores tr)) [[[[1; 0]; [1; 1]]]] = Ok kept
           /\ broadcast4 Rminus kept (score_penalty [[[[1; 0]; [1; 1]]]])
              = Ok (MHA.t_attention_scores tr))
    /\ broadcast4 Rplus (MHA.t_unmasked_bias tr) (bias_penalty [[[[1; 0]; [1; 1]]]])
       = Ok (MHA.t_position_bias tr).
Proof.
  eexists. split; [reflexivity|].
  apply (mask_penalties (Fixtures.layer 1 1 false) [[[1]; [2]]] None
           [[[[1; 0]; [1; 1]]]] None false None None); reflexivity.
Defined.

(** One call, one mask, both constants: the returned bias carries -1000 at
    the masked position and the scores handed to the softmax carry -10000
    there. *)
Lemma single_penalty_counterexample :
  exists tr,
    MHA.forward_trace (Fixtures.layer 1 1 false) [[[1]; [2]]] None
      (Some [[[[1; 0]; [1; 1]]]]) None false None None = Ok tr
    /\ folds_bias_penalty tr [[[[1; 0]; [1; 1]]]]
    /\ subtracts_score_penalty (Fixtures.layer 1 1 false) tr [[[[1; 0]; [1; 1]]]]
    /\ entry4 (MHA.t_position_bias tr) 0 0 0 1 = Some (-1000)
    /\ entry4 (MHA.t_attention_scores tr) 0 0 0 1 = Some (-10000).
Proof.
  eexists. split; [reflexivity|]. split; [|split; [|split]].
  - split; [reflexivity|]. cbn. intros H. injection H as _ H _ _. lra.
  - eexists. split; [reflexivity|]. split; [reflexivity|].
    cbn. intros H. injection H as _ H _ _. lra.
  - cbn. f_equal. lra.
  - cbn. f_equal. lra.
Qed.

Lemma split_heads_rows (nh w : nat) (m : Mat) (hm : list Mat) :
  split_heads nh w m = Ok hm -> Forall (fun h => length h = length m) hm.
Proof.
  unfold split_heads. intros H. step_ok H. injection H as <-.
  apply Forall_forall. intros h Hin. apply in_map_iff in Hin as (i & <- & _).
  rewrite length_map. exact (mapM_length E).
Qed.

Lemma view_heads_rows (bsz nh w n : nat) (x : T3) (y : T4) :
  view_heads bsz nh w x = Ok y -> query_len n x -> rows n y.
Proof.
  unfold view_heads. destruct (Nat.eqb _ _); [|discriminate]. intros H Hx.
  apply (mapM_Forall (fun m => length m = n) _ H Hx).
  intros m hm Hm Hs. apply split_heads_rows in Hs. now rewrite Hm in Hs.
Qed.

Lemma chunk_rows (w i n : nat) (x : T4) : rows n x -> rows n (chunk w i x).
Proof.
  unfold rows, chunk. intros H. rewrite Forall_map.
  eapply Forall_impl; [|exact H]. intros hm Hhm. rewrite Forall_map.
  eapply Forall_impl; [|exact Hhm]. intros m Hm. simpl in *. now rewrite length_map.
Qed.

Lemma cat_dim2_rows (n m : nat) (a b c : T4) :
  cat_dim2 a b = Ok c -> rows n a -> rows m b -> rows (n + m) c.
Proof.
  unfold cat_dim2, rows. intros H Ha Hb.
  apply (zipM_Forall _ _ _ H Ha Hb). intros x y z Hx Hy Hz.
  apply (zipM_Forall _ _ _ Hz Hx Hy). intros p q r Hp Hq Hr.
  destruct (same_width p q); [|discriminate]. injection Hr as <-.
  rewrite length_app. lia.
Qed.

Lemma Linear_forward_query_len (l : Linear.t) (n : nat) (x y : T3) :
  Linear.forward l x = Ok y -> query_len n x -> query_len n y.
Proof.
  unfold Linear.forward, query_len. intros H Hx.
  apply (mapM_Forall _ _ H Hx). intros m m' Hm Hm'.
  now rewrite (mapM_length Hm').
Qed.

(** ** Shapes through the array operations *)

Lemma shaped_map {A B : Type} (g : A -> B) (n : nat) (P : A -> Prop) (Q : B -> Prop)
    (l : list A) :
  shaped n P l -> (forall a, P a -> Q (g a)) -> shaped n Q (map g l).
Proof.
  intros [Hn HP] Hg. split; [now rewrite length_map|].
  rewrite Forall_map. eapply Forall_impl; [|exact HP]. exact Hg.
Qed.

Lemma shaped_mapM {A B : Type} (f : A -> result B) (n : nat) (P : A -> Prop)
    (Q : B -> Prop) (l : list A) :
  shaped n P l -> (forall a, P a -> exists b, f a = Ok b /\ Q b) ->
  exists l', mapM f l = Ok l' /\ shaped n Q l'.
Proof.
  intros [Hn HP] Hf. subst n. induction HP as [|a l Ha HP IH]; simpl.
  - exists []. split; [reflexivity|]. split; [reflexivity | constructor].
  - destruct (Hf a Ha) as (b & -> & Hb). destruct IH as (l' & -> & Hl & HQ).
    exists (b :: l'). split; [reflexivity|]. split; [simpl; now rewrite Hl | now constructor].
Qed.

Lemma shaped_combine {A B : Type} (n : nat) (P : A -> Prop) (Q : B -> Prop)
    (a : list A) (b : list B) :
  shaped n P a -> shaped n Q b ->
  shaped n (fun p => P (fst p) /\ Q (snd p)) (combine a b).
Proof.
  intros [Ha HP] [Hb HQ]. split; [rewrite length_combine; lia|].
  clear Ha Hb. revert b HQ. induction HP as [|x a Hx HP IH]; intros b HQ; simpl.
  - constructor.
  - destruct HQ as [|y b Hy HQ]; constructor; auto.
Qed.

Lemma shaped_zipM {A B C : Type} (f : A -> B -> result C) (n : nat) (P : A -> Prop)
    (Q : B -> Prop) (S : C -> Prop) (a : list A) (b : list B) :
  shaped n P a -> shaped n Q b ->
  (forall x y, P x -> Q y -> exists z, f x y = Ok z /\ S z) ->
  exists c, zipM f a b = Ok c /\ shaped n S c.
Proof.
  intros Ha Hb Hf. unfold zipM.
  replace (Nat.eqb (length a) (length b)) with true
    by (symmetry; apply Nat.eqb_eq; destruct Ha, Hb; congruence).
  apply (shaped_mapM _ n _ S _ (shaped_combine n P Q a b Ha Hb)).
  intros [x y] [Hx Hy]. now apply Hf.
Qed.

Lemma shaped_singleton {A : Type} (P : A -> Prop) (l : list A) :
  shaped 1 P l -> exists x, l = [x] /\ P x.
Proof.
  intros [Hn HP]. destruct l as [|x [|y l]]; try discriminate.
  exists x. split; [reflexivity|]. now inversion HP.
Qed.

Lemma shaped_bzip {A B C : Type} (f : A -> B -> result C) (n m : nat) (P : A -> Prop)
    (Q : B -> Prop) (S : C -> Prop) (a : list A) (b : list B) :
  shaped n P a -> shaped m Q b -> compat n m ->
  (forall x y, P x -> Q y -> exists z, f x y = Ok z /\ S z) ->
  exists c, bzip f a b = Ok c /\ shaped (bres n m) S c.
Proof.
  intros Ha Hb Hc Hf. unfold bzip, bres.
  destruct (Nat.eqb_spec (length a) (length b)) as [E|E].
  - assert (n = m) by (destruct Ha, Hb; congruence). subst m.
    replace (if Nat.eqb n 1 then n else n) with n by (destruct (Nat.eqb n 1); reflexivity).
    apply (shaped_mapM _ n _ S _ (shaped_combine n P Q a b Ha Hb)).
    intros [x y] [Hx Hy]. now apply Hf.
  - assert (Hnm : n <> m) by (destruct Ha, Hb; congruence).
    destruct Hc as [Hc|[Hc|Hc]]; [contradiction| |].
    + subst n. simpl. destruct (shaped_singleton _ _ Ha) as (x & -> & Hx).
      apply (shaped_mapM _ m Q S _ Hb). intros y Hy. now apply Hf.
    + subst m. destruct (shaped_singleton _ _ Hb) as (y & -> & Hy).
      destruct (Nat.eqb_spec n 1) as [->|_]; [contradiction|].
      destruct a as [|x [|x' a]].
      * apply (shaped_mapM _ n P S _ Ha). intros x Hx. now apply Hf.
      * destruct Ha as [Hn _]. simpl in Hn. congruence.
      * apply (shaped_mapM _ n P S _ Ha). intros x0 Hx. now apply Hf.
Qed.

Lemma shaped_impl {A : Type} (n : nat) (P Q : A -> Prop) (l : list A) :
  shaped n P l -> (forall a, P a -> Q a) -> shaped n Q l.
Proof. intros [Hn HP] H. split; [exact Hn|]. eapply Forall_impl; [exact H | exact HP]. Qed.

Lemma shaped_nth {A : Type} (n : nat) (P : A -> Prop) (l : list A) (i : nat) (d : A) :
  shaped n P l -> (i < n)%nat -> P (nth i l d).
Proof.
  intros [Hn HP] Hi. rewrite Forall_forall in HP. apply HP. apply nth_In. lia.
Qed.

Lemma dot_shape (n : nat) (a b : Vec) :
  vec_shape n a -> vec_shape n b -> exists s, dot a b = Ok s.
Proof.
  unfold vec_shape, dot. intros Ha Hb.
  replace (Nat.eqb (length a) (length b)) with true
    by (symmetry; apply Nat.eqb_eq; congruence).
  eauto.
Qed.

Lemma Linear_forward_shape (l : Linear.t) (b r cin out : nat) (x : T3) :
  t3_shape b r cin x -> mat_shape out cin (Linear.weight l) ->
  exists y, Linear.forward l x = Ok y /\ t3_shape b r out y.
Proof.
  intros Hx Hw. unfold Linear.forward.
  apply (shaped_mapM _ b _ _ _ Hx). intros m Hm.
  apply (shaped_mapM _ r _ _ _ Hm). intros row Hrow.
  destruct (shaped_mapM (dot row) out _ (fun _ => True) _ Hw) as (v & -> & Hv & _).
  - intros w Hw'. destruct (dot_shape cin row w Hrow Hw') as (s & ->). eauto.
  - eauto.
Qed.

Lemma chunks_shape (nh w : nat) (v : Vec) :
  vec_shape (nh * w) v -> shaped nh (vec_shape w) (chunks nh w v).
Proof.
  unfold vec_shape. revert v. induction nh as [|nh IH]; intros v Hv; simpl.
  - split; [reflexivity | constructor].
  - simpl in Hv. destruct (IH (skipn w v)) as [Hn HF]; [rewrite length_skipn; lia|].
    split; [simpl; now rewrite Hn|].
    constructor; [|exact HF]. rewrite length_firstn. lia.
Qed.

Lemma split_heads_shape (nh w r : nat) (m : Mat) :
  mat_shape r (nh * w) m ->
  exists hm, split_heads nh w m = Ok hm /\ shaped nh (mat_shape r w) hm.
Proof.
  intros Hm. unfold split_heads.
  destruct (shaped_mapM (fun row => if Nat.eqb (length row) (nh * w)
                                    then Ok (chunks nh w row) else Raise RuntimeError)
              r _ (shaped nh (vec_shape w)) _ Hm) as (rows & -> & Hrows).
  - intros row Hrow. unfold vec_shape in Hrow. rewrite Hrow, Nat.eqb_refl.
    eexists. split; [reflexivity|]. now apply chunks_shape.
  - eexists. split; [reflexivity|]. split; [now rewrite length_map, length_seq|].
    rewrite Forall_map. apply Forall_forall. intros h Hh. apply in_seq in Hh.
    apply (shaped_map _ r _ _ _ Hrows). intros rw Hrw.
    apply (shaped_nth nh _ rw h [] Hrw). lia.
Qed.

Lemma view_heads_shape (b nh w r : nat) (x : T3) :
  t3_shape b r (nh * w) x ->
  exists y, view_heads b nh w x = Ok y /\ t4_shape b nh r w y.
Proof.
  intros Hx. unfold view_heads. destruct Hx as [Hb HF].
  rewrite Hb, Nat.eqb_refl.
  apply (shaped_mapM _ b (mat_shape r (nh * w)) _ _ (conj Hb HF)).
  intros m Hm. now apply split_heads_shape.
Qed.

Lemma chunk_shape (w i n b h r : nat) (x : T4) :
  t4_shape b h r (n * w) x -> (i < n)%nat -> t4_shape b h r w (chunk w i x).
Proof.
  intros Hx Hi. unfold chunk.
  apply (shaped_map _ b _ _ _ Hx). intros x3 H3.
  apply (shaped_map _ h _ _ _ H3). intros m Hm.
  apply (shaped_map _ r _ _ _ Hm). intros v Hv.
  unfold vec_shape in *. rewrite length_firstn, length_skipn, Hv. nia.
Qed.


Lemma same_width_shape (r1 r2 w : nat) (a b : Mat) :
  mat_shape r1 w a -> mat_shape r2 w b -> same_width a b = true.
Proof.
  intros [_ Ha] [_ Hb]. unfold same_width. apply forallb_forall. intros x Hx.
  apply forallb_forall. intros y Hy. rewrite Forall_forall in Ha, Hb.
  apply Nat.eqb_eq. rewrite (Ha x Hx), (Hb y Hy). reflexivity.
Qed.

Lemma cat_dim2_shape (b h l r w : nat) (x y : T4) :
  t4_shape b h l w x -> t4_shape b h r w y ->
  exists z, cat_dim2 x y = Ok z /\ t4_shape b h (l + r) w z.
Proof.
  intros Hx Hy. unfold cat_dim2.
  apply (shaped_zipM _ b _ _ _ _ _ Hx Hy). intros x3 y3 Hx3 Hy3.
  apply (shaped_zipM _ h _ _ _ _ _ Hx3 Hy3). intros m n Hm Hn.
  rewrite (same_width_shape l r w m n Hm Hn).
  eexists. split; [reflexivity|]. destruct Hm as [Hlm Hfm], Hn as [Hln Hfn].
  split; [rewrite length_app; lia | now apply Forall_app].
Qed.

Lemma matmul_transpose_b_shape (b h r s w : nat) (q k : T4) :
  t4_shape b h r w q -> t4_shape b h s w k ->
  exists z, matmul_transpose_b q k = Ok z /\ t4_shape b h r s z.
Proof.
  intros Hq Hk. unfold matmul_transpose_b.
  apply (shaped_zipM _ b _ _ _ _ _ Hq Hk). intros q3 k3 Hq3 Hk3.
  apply (shaped_zipM _ h _ _ _ _ _ Hq3 Hk3). intros qm km Hqm Hkm.
  unfold matmul_nt. apply (shaped_mapM _ r _ _ _ Hqm). intros row Hrow.
  destruct (shaped_mapM (dot row) s _ (fun _ => True) _ Hkm) as (v & -> & Hv & _).
  - intros krow Hkrow. destruct (dot_shape w row krow Hrow Hkrow) as (x & ->). eauto.
  - eauto.
Qed.

Lemma transpose_shape (s d : nat) (m : Mat) :
  mat_shape s d m -> (0 < s)%nat -> mat_shape d s (transpose m).
Proof.
  intros [Hs HF] Hpos. unfold transpose. destruct m as [|r0 m]; [simpl in Hs; lia|].
  assert (Hr0 : length r0 = d) by (now inversion HF).
  rewrite Hr0. split; [now rewrite length_map, length_seq|].
  rewrite Forall_map. apply Forall_forall. intros c _.
  unfold vec_shape. now rewrite length_map.
Qed.

Lemma matmul_shape (b h r s d : nat) (w v : T4) :
  t4_shape b h r s w -> t4_shape b h s d v -> (0 < s)%nat ->
  exists z, matmul w v = Ok z /\ t4_shape b h r d z.
Proof.
  intros Hw Hv Hs. unfold matmul.
  apply (shaped_zipM _ b _ _ _ _ _ Hw Hv). intros w3 v3 Hw3 Hv3.
  apply (shaped_zipM _ h _ _ _ _ _ Hw3 Hv3). intros wm vm Hwm Hvm.
  unfold matmul_nn. apply (shaped_mapM _ r _ _ _ Hwm). intros row Hrow.
  destruct (shaped_mapM (dot row) d _ (fun _ => True) _ (transpose_shape s d vm Hvm Hs))
    as (x & -> & Hx & _).
  - intros col Hcol. destruct (dot_shape s row col Hrow Hcol) as (x & ->). eauto.
  - eauto.
Qed.

Lemma broadcast4_shape (f : R -> R -> R) (b h r c b' h' r' c' : nat) (x y : T4) :
  t4_shape b h r c x -> t4_shape b' h' r' c' y ->
  compat b b' -> compat h h' -> compat r r' -> compat c c' ->
  exists z, broadcast4 f x y = Ok z
            /\ t4_shape (bres b b') (bres h h') (bres r r') (bres c c') z.
Proof.
  intros Hx Hy Cb Ch Cr Cc. unfold broadcast4, broadcast3.
  apply (shaped_bzip _ b b' _ _ _ _ _ Hx Hy Cb). intros x3 y3 Hx3 Hy3.
  apply (shaped_bzip _ h h' _ _ _ _ _ Hx3 Hy3 Ch). intros xm ym Hxm Hym.
  apply (shaped_bzip _ r r' _ _ _ _ _ Hxm Hym Cr). intros xv yv Hxv Hyv.
  unfold vec_shape in *.
  destruct (shaped_bzip (fun a b0 => Ok (f a b0)) c c' (fun _ => True) (fun _ => True)
              (fun _ => True) xv yv) as (z & -> & Hz & _); eauto.
  - split; [exact Hxv | apply Forall_forall; trivial].
  - split; [exact Hyv | apply Forall_forall; trivial].
Qed.

Lemma map4_shape (f : R -> R) (b h r c : nat) (x : T4) :
  t4_shape b h r c x -> t4_shape b h r c (map4 f x).
Proof.
  intros Hx. unfold map4.
  apply (shaped_map _ b _ _ _ Hx). intros x3 H3.
  apply (shaped_map _ h _ _ _ H3). intros m Hm.
  apply (shaped_map _ r _ _ _ Hm). intros v Hv.
  unfold vec_shape in *. now rewrite length_map.
Qed.

Lemma softmax_shape (b h r c : nat) (x : T4) :
  t4_shape b h r c x -> t4_shape b h r c (softmax x).
Proof.
  intros Hx. unfold softmax.
  apply (shaped_map _ b _ _ _ Hx). intros x3 H3.
  apply (shaped_map _ h _ _ _ H3). intros m Hm.
  apply (shaped_map _ r _ _ _ Hm). intros v Hv.
  unfold vec_shape, softmax_row in *. now rewrite length_map.
Qed.

Lemma concat_heads_length (h d : nat) (vs : list Vec) :
  shaped h (vec_shape d) vs -> length (concat vs) = (h * d)%nat.
Proof.
  intros [Hh HF]. subst h. induction HF as [|v vs Hv HF IH]; simpl; [reflexivity|].
  rewrite length_app, IH. unfold vec_shape in Hv. lia.
Qed.

Lemma concat_const_length {A : Type} (c : nat) (ls : list (list A)) :
  Forall (fun l => length l = c) ls -> length (concat ls) = (length ls * c)%nat.
Proof.
  induction 1 as [|l ls Hl _ IH]; simpl; [reflexivity|].
  rewrite length_app, IH, Hl. reflexivity.
Qed.

Lemma merge_heads_shape (h r d : nat) (heads : list Mat) :
  shaped h (mat_shape r d) heads ->
  exists m, merge_heads r (h * d) heads = Ok m /\ mat_shape r (h * d) m.
Proof.
  intros Hh. unfold merge_heads.
  set (flat := concat (map (fun i => concat (map (fun hm : Mat => nth i hm []) heads))
                           (seq 0 (length (hd [] heads))))).
  assert (Hflat : length flat = (r * (h * d))%nat).
  { subst flat. destruct heads as [|m0 heads'] eqn:Eh.
    - destruct Hh as [Hlen _]. simpl in Hlen. subst h. simpl. lia.
    - assert (Hr : length m0 = r).
      { destruct Hh as [_ HF]. inversion HF as [|? ? [Hm0 _] _]. exact Hm0. }
      cbn [hd]. rewrite Hr. rewrite <- Eh in *.
      rewrite (concat_const_length (h * d)).
      + now rewrite length_map, length_seq.
      + rewrite Forall_map. apply Forall_forall. intros i Hi. apply in_seq in Hi.
        apply concat_heads_length.
        apply (shaped_map _ h _ _ _ Hh). intros hm Hhm.
        apply (shaped_nth r _ hm i [] Hhm). lia. }
  rewrite Hflat, Nat.eqb_refl. eexists. split; [reflexivity|].
  apply chunks_shape. exact Hflat.
Qed.

Lemma fits_compat (n m : nat) : fits n m -> compat n m /\ bres n m = n.
Proof.
  unfold fits, compat, bres. intros [-> | ->].
  - split; [now left|]. now destruct (Nat.eqb n 1).
  - split; [now right; right|]. destruct (Nat.eqb_spec n 1); congruence.
Qed.

Lemma compat_one_l (m : nat) : compat 1 m /\ bres 1 m = m.
Proof. split; [right; now left | reflexivity]. Qed.

(** Adding, multiplying or subtracting a tensor that fits leaves the
    shape of the left operand. *)
Lemma broadcast4_fits (f : R -> R -> R) (b h r c : nat) (x y : T4) :
  t4_shape b h r c x -> t4_fits b h r c y ->
  exists z, broadcast4 f x y = Ok z /\ t4_shape b h r c z.
Proof.
  intros Hx (b' & h' & r' & c' & Hy & Fb & Fh & Fr & Fc).
  destruct (fits_compat _ _ Fb) as [Cb Eb], (fits_compat _ _ Fh) as [Ch Eh],
    (fits_compat _ _ Fr) as [Cr Er], (fits_compat _ _ Fc) as [Cc Ec].
  destruct (broadcast4_shape f _ _ _ _ _ _ _ _ x y Hx Hy Cb Ch Cr Cc) as (z & E & Hz).
  rewrite Eb, Eh, Er, Ec in Hz. eauto.
Qed.

Lemma map4_fits (f : R -> R) (b h r c : nat) (x : T4) :
  t4_fits b h r c x -> t4_fits b h r c (map4 f x).
Proof.
  intros (b' & h' & r' & c' & Hx & F). exists b', h', r', c'.
  split; [now apply map4_shape | exact F].
Qed.

Lemma shaped_bzip_into {A B : Type} (f : A -> B -> result A) (n m : nat) (P : A -> Prop)
    (Q : B -> Prop) (S : A -> Prop) (a : list A) (b : list B) :
  shaped n P a -> shaped m Q b -> fits n m ->
  (forall x y, P x -> Q y -> exists z, f x y = Ok z /\ S z) ->
  exists c, bzip_into f a b = Ok c /\ shaped n S c.
Proof.
  intros Ha Hb Hc Hf. unfold bzip_into.
  destruct (Nat.eqb_spec (length a) (length b)) as [E|E].
  - assert (n = m) by (destruct Ha, Hb; congruence). subst m.
    apply (shaped_mapM _ n _ S _ (shaped_combine n P Q a b Ha Hb)).
    intros [x y] [Hx Hy]. now apply Hf.
  - destruct Hc as [-> | ->]; [destruct Ha, Hb; congruence|].
    destruct (shaped_singleton _ _ Hb) as (y & -> & Hy).
    apply (shaped_mapM _ n P S _ Ha). intros x Hx. now apply Hf.
Qed.

(** An in-place operation with a tensor that fits leaves the shape of the
    left operand. *)
Lemma inplace4_fits (f : R -> R -> R) (b h r c : nat) (x y : T4) :
  t4_shape b h r c x -> t4_fits b h r c y ->
  exists z, inplace4 f x y = Ok z /\ t4_shape b h r c z.
Proof.
  intros Hx (b' & h' & r' & c' & Hy & Fb & Fh & Fr & Fc). unfold inplace4.
  apply (shaped_bzip_into _ b b' _ _ _ _ _ Hx Hy Fb). intros x3 y3 Hx3 Hy3.
  apply (shaped_bzip_into _ h h' _ _ _ _ _ Hx3 Hy3 Fh). intros xm ym Hxm Hym.
  apply (shaped_bzip_into _ r r' _ _ _ _ _ Hxm Hym Fr). intros xv yv Hxv Hyv.
  unfold vec_shape in *.
  destruct (shaped_bzip_into (fun u v => Ok (f u v)) c c' (fun _ => True) (fun _ => True)
              (fun _ => True) xv yv) as (z & -> & Hz & _); eauto.
  - split; [exact Hxv | apply Forall_forall; trivial].
  - split; [exact Hyv | apply Forall_forall; trivial].
Qed.

Lemma t4_shape_fits (b h r c bsz : nat) (x : T4) :
  t4_shape 1 h r c x -> t4_fits bsz h r c x.
Proof.
  intros Hx. exists 1%nat, h, r, c. split; [exact Hx|].
  split; [now right|]. repeat split; now left.
Qed.

Lemma t4_fits_batch (bsz h r c : nat) (x : T4) :
  t4_fits 1 h r c x -> t4_fits bsz h r c x.
Proof.
  intros (b' & h' & r' & c' & Hx & Fb & F). exists b', h', r', c'.
  split; [exact Hx|]. split; [|exact F]. right. destruct Fb; assumption.
Qed.

Lemma zeros_shape (h q k : nat) : t4_shape 1 h q k (zeros h q k).
Proof.
  unfold zeros. split; [reflexivity|]. constructor; [|constructor].
  split; [apply repeat_length|]. apply Forall_forall. intros m Hm.
  apply repeat_spec in Hm. subst m. split; [apply repeat_length|].
  apply Forall_forall. intros v Hv. apply repeat_spec in Hv. subst v.
  apply repeat_length.
Qed.

Lemma slice_last_rows_shape (n b h r c : nat) (x : T4) :
  t4_shape b h r c x -> (0 < n <= r)%nat -> t4_shape b h n c (slice_last_rows n x).
Proof.
  intros Hx Hn. unfold slice_last_rows.
  apply (shaped_map _ b _ _ _ Hx). intros x3 H3.
  apply (shaped_map _ h _ _ _ H3). intros m [Hr HF].
  unfold last_rows. destruct (Nat.eqb_spec n 0); [lia|].
  split; [rewrite length_skipn; lia|].
  rewrite <- (firstn_skipn (length m - n) m) in HF. now apply Forall_app in HF.
Qed.

Lemma shape1_of (b r c : nat) (x : T3) : t3_shape b r c x -> (0 < b)%nat -> shape1 x = r.
Proof.
  intros [Hb HF] Hpos. destruct x as [|m x]; [simpl in Hb; lia|].
  inversion HF as [|? ? [Hm _] _]. exact Hm.
Qed.

Lemma shape2_of (b h r c : nat) (x : T4) :
  t4_shape b h r c x -> (0 < b)%nat -> (0 < h)%nat -> shape2 x = r.
Proof.
  intros [Hb HF] Hpb Hph. destruct x as [|x3 x]; [simpl in Hb; lia|].
  inversion HF as [|? ? H3 _]. unfold shape2. simpl.
  exact (shape1_of h r c x3 H3 Hph).
Qed.

(** Folding a fitting mask into the zero bias of one query row. *)
Lemma masked_zero_bias_fits (nh bsz L : nat) (m : T4) :
  t4_fits 1 nh 1 (L + 1) m ->
  exists z,
    inplace4 Rplus (slice_last_rows 1 (zeros nh (1 + L) (1 + L)))
      (map4 (fun x => (1 - x) * -1000) m) = Ok z
    /\ t4_fits bsz nh 1 (L + 1) z.
Proof.
  intros Hm.
  pose proof (slice_last_rows_shape 1 _ _ _ _ _
                (zeros_shape nh (1 + L) (1 + L)) ltac:(lia)) as Hz.
  replace (1 + L)%nat with (L + 1)%nat in * by lia.
  destruct (inplace4_fits Rplus _ _ _ _ _ _ Hz
              (map4_fits (fun x => (1 - x) * -1000) _ _ _ _ _ Hm)) as (z & E & Hzs).
  exists z. split; [exact E|]. now apply t4_shape_fits.
Qed.

(** The attention proper, from the scores on: softmax, dropout, product
    with the values, merge of the heads and output projection all go
    through on fitting shapes. *)
Lemma decode_step_returns (self : MHA.t) hs enc mask pk pv pb ql (bsz L : nat) :
  well_formed self -> MHA.is_cross_attention self = false -> (0 < bsz)%nat ->
  t3_shape bsz 1 (MHA.hidden_size self) hs ->
  t4_shape bsz (MHA.num_heads self) L (MHA.head_size self) pk ->
  t4_shape bsz (MHA.num_heads self) L (MHA.head_size self) pv ->
  step_arguments_fit self bsz L enc mask pb ql ->
  exists tr,
    MHA.forward_trace self hs enc mask (Some [pk; pv]) true pb ql = Ok tr
    /\ t4_shape bsz (MHA.num_heads self) (L + 1) (MHA.head_size self) (MHA.t_key tr)
    /\ t4_shape bsz (MHA.num_heads self) (L + 1) (MHA.head_size self) (MHA.t_value tr)
    /\ exists o, fst (MHA.t_result tr) = MHA.WithCache o (MHA.t_key tr, MHA.t_value tr).
Proof.
  intros (Hh & Wq & Wkv & Wqkv & Wd & Hdrop) Hc Hb Hhs Hpk Hpv Hfit.
  set (nh := MHA.num_heads self) in *. set (hd := MHA.head_size self) in *.
  set (H := MHA.hidden_size self) in *.
  unfold MHA.forward_trace. rewrite Hc. cbn [bind option_map].
  (* projection and split into heads *)
  destruct (Linear_forward_shape _ _ _ _ _ _ Hhs Wqkv) as (x & -> & Hx). cbn [bind].
  replace (length hs) with bsz by (now destruct Hhs).
  replace (3 * H)%nat with (nh * (3 * hd))%nat in Hx by lia.
  destruct (view_heads_shape _ _ _ _ _ Hx) as (y & Ey & Hy). fold nh hd. rewrite Ey.
  cbn [bind]. unfold to_dtype.
  pose proof (chunk_shape hd 0 3 _ _ _ _ Hy ltac:(lia)) as Hq0.
  pose proof (chunk_shape hd 1 3 _ _ _ _ Hy ltac:(lia)) as Hk0.
  pose proof (chunk_shape hd 2 3 _ _ _ _ Hy ltac:(lia)) as Hv0.
  destruct (cat_dim2_shape _ _ _ _ _ _ _ Hpk Hk0) as (key & -> & Hkey).
  destruct (cat_dim2_shape _ _ _ _ _ _ _ Hpv Hv0) as (value & -> & Hvalue).
  cbn [bind].
  destruct (matmul_transpose_b_shape _ _ _ _ _ _ _ Hq0 Hkey) as (scores & -> & Hs).
  cbn [bind]. rewrite (shape1_of _ _ _ _ Hhs Hb).
  assert (Htail : forall weights : T4,
             t4_shape bsz nh 1 (L + 1) weights ->
             exists ctx merged out,
               matmul (MHA.dropout self weights) value = Ok ctx
               /\ mapM (merge_heads 1 H) ctx = Ok merged
               /\ Linear.forward (MHA.dense self) merged = Ok out).
  { intros weights Hw.
    destruct (matmul_shape _ _ _ _ _ _ _ (Hdrop _ _ _ _ _ Hw) Hvalue ltac:(lia))
      as (ctx & Ectx & Hctx).
    destruct (shaped_mapM (merge_heads 1 H) bsz _ (mat_shape 1 H) ctx Hctx)
      as (merged & Em & Hmerged).
    { intros a Ha. rewrite Hh. now apply merge_heads_shape. }
    destruct (Linear_forward_shape _ _ _ _ _ _ Hmerged Wd) as (out & Eo & _).
    eauto 6. }
  assert (Hsoft : forall (biased : T4) (am : option T4),
             t4_shape bsz nh 1 (L + 1) biased ->
             match am with Some m => t4_fits bsz nh 1 (L + 1) m | None => True end ->
             exists scores' weights,
               match am with
               | Some attention_mask =>
                   if MHA.scale_mask_softmax_fusion self then
                     attention_weights <-
                       fused_scale_mask_softmax biased attention_mask (-10000) ;;
                     Ok (biased, attention_weights)
                   else
                     attention_scores <-
                       broadcast4 Rmult (MHA.apply_coeff self biased) attention_mask ;;
                     attention_scores0 <-
                       broadcast4 Rminus attention_scores
                         (map4 (fun m => 10000 * (1 - m)) attention_mask) ;;
                     Ok (attention_scores0, softmax attention_scores0)
               | None => Ok (biased, softmax biased)
               end = Ok (scores', weights)
               /\ t4_shape bsz nh 1 (L + 1) weights).
  { intros biased [m|] Hbs Hm.
    - destruct (MHA.scale_mask_softmax_fusion self).
      + unfold fused_scale_mask_softmax.
        destruct (broadcast4_fits (fun s m0 => if Req_dec_T m0 0 then -10000 else s)
                    _ _ _ _ _ _ Hbs Hm) as (masked & -> & Hmk).
        cbn [bind]. do 2 eexists. split; [reflexivity|]. now apply softmax_shape.
      + assert (Hco : t4_shape bsz nh 1 (L + 1) (MHA.apply_coeff self biased)).
        { unfold MHA.apply_coeff. destruct (MHA.coeff self); [now apply map4_shape | exact Hbs]. }
        destruct (broadcast4_fits Rmult _ _ _ _ _ _ Hco Hm) as (kept & -> & Hkept).
        cbn [bind].
        destruct (broadcast4_fits Rminus _ _ _ _ _ _ Hkept
                    (map4_fits (fun m0 => 10000 * (1 - m0)) _ _ _ _ _ Hm))
          as (out & -> & Hout).
        cbn [bind]. do 2 eexists. split; [reflexivity|]. now apply softmax_shape.
    - do 2 eexists. split; [reflexivity|]. now apply softmax_shape. }
  unfold step_arguments_fit in Hfit. fold nh in Hfit. destruct pb as [b|].
  - destruct Hfit as [Hbias Hmask]. cbn [bind].
    destruct (inplace4_fits Rplus _ _ _ _ _ _ Hs Hbias) as (biased & -> & Hbs).
    cbn [bind].
    destruct (Hsoft biased (option_map to_global mask) Hbs) as (sc & w & -> & Hw).
    { destruct mask; exact Hmask. }
    cbn [bind]. fold H. destruct (Htail w Hw) as (ctx & merged & out & E1 & E2 & E3).
    rewrite E1. cbn [bind]. rewrite E2. cbn [bind]. rewrite E3. cbn [bind].
    eexists. split; [reflexivity|]. cbn. eauto.
  - destruct Hfit as (Hrel & -> & -> & Hnh & m & -> & Hm).
    rewrite Hrel. cbn [negb bind option_map]. unfold to_global.
    rewrite (shape2_of _ _ _ _ _ Hpk Hb Hnh).
    destruct (masked_zero_bias_fits nh bsz L m Hm) as (bias & -> & Hbias).
    cbn [bind].
    destruct (inplace4_fits Rplus _ _ _ _ _ _ Hs Hbias) as (biased & -> & Hbs).
    cbn [bind].
    destruct (Hsoft biased (Some m) Hbs (t4_fits_batch bsz _ _ _ _ Hm))
      as (sc & w & -> & Hw).
    cbn [bind]. fold H. destruct (Htail w Hw) as (ctx & merged & out & E1 & E2 & E3).
    rewrite E1. cbn [bind]. rewrite E2. cbn [bind]. rewrite E3. cbn [bind].
    eexists. split; [reflexivity|]. cbn. eauto.
Qed.

Lemma t4_shape_rows (b h r c : nat) (x : T4) : t4_shape b h r c x -> rows r x.
Proof.
  intros [_ HF]. unfold rows. eapply Forall_impl; [|exact HF].
  intros x3 [_ H3]. eapply Forall_impl; [|exact H3]. now intros m [Hm _].
Qed.

Lemma zipM_Forall2 {A B C : Type} (f : A -> B -> result C) (a : list A) (b : list B)
    (c : list C) (Q : B -> Prop) (S : A -> C -> Prop) :
  zipM f a b = Ok c -> Forall Q b ->
  (forall x y z, Q y -> f x y = Ok z -> S x z) -> Forall2 S a c.
Proof.
  unfold zipM. destruct (Nat.eqb_spec (length a) (length b)) as [E|]; [|discriminate].
  intros H HQ Hf. revert b c E H HQ.
  induction a as [|x a IH]; intros [|y b] c E H HQ; simpl in *; try discriminate.
  - injection H as <-. constructor.
  - repeat step_ok H. injection H as <-. inversion HQ as [|? ? Hy HQ']. subst.
    constructor; [now apply (Hf x y) | apply (IH b); auto].
Qed.

(** A successful concatenation along the sequence dimension appends the
    positions of the second tensor, entry by entry and head by head. *)
Lemma cat_dim2_extends (n : nat) (a b c : T4) :
  cat_dim2 a b = Ok c -> rows n b -> extends_by n a c.
Proof.
  unfold cat_dim2, rows, extends_by. intros H Hb.
  apply (zipM_Forall2 _ _ _ _ _ _ H Hb). intros x3 y3 z3 Hy3 H3.
  apply (zipM_Forall2 _ _ _ _ _ _ H3 Hy3). intros m m' z Hm' Hz.
  destruct (same_width m m'); [|discriminate]. injection Hz as <-. eauto.
Qed.

(** C5.  Self attention with [use_cache]: from a cache whose key and
    value hold [L] positions and a hidden state of query length 1, the
    cache that [forward] returns is the supplied one with exactly one
    position appended to the key and to the value of every entry of the
    batch and every head, so each holds [L + 1] positions; and on a
    well-formed layer with a hidden state and a cache of fitting shapes
    and either a supplied bias, with or without a mask, that broadcast
    into the scores, or no bias and a mask that broadcasts into the bias
    of shape (1, num_heads, 1, L + 1) to which the layer adds it in place,
    [forward] does return, with a key and a value of shape
    (bsz, num_heads, L + 1, head_size). *)
Theorem self_attention_cache_grows_by_one (self : MHA.t) hs enc mask past_key past_value
    pb ql (L : nat) :
  MHA.is_cross_attention self = false ->
  query_len 1 hs -> rows L past_key -> rows L past_value ->
  (forall out bias,
      MHA.forward self hs enc mask (Some [past_key; past_value]) true pb ql = Ok (out, bias) ->
      exists o key value,
        out = MHA.WithCache o (key, value) /\ rows (L + 1) key /\ rows (L + 1) value
        /\ extends_by 1 past_key key /\ extends_by 1 past_value value)
  /\ (forall bsz,
        well_formed self -> (0 < bsz)%nat ->
        t3_shape bsz 1 (MHA.hidden_size self) hs ->
        t4_shape bsz (MHA.num_heads self) L (MHA.head_size self) past_key ->
        t4_shape bsz (MHA.num_heads self) L (MHA.head_size self) past_value ->
        step_arguments_fit self bsz L enc mask pb ql ->
        exists o key value bias,
          MHA.forward self hs enc mask (Some [past_key; past_value]) true pb ql
          = Ok (MHA.WithCache o (key, value), bias)
          /\ rows (L + 1) key /\ rows (L + 1) value
          /\ extends_by 1 past_key key /\ extends_by 1 past_value value
          /\ t4_shape bsz (MHA.num_heads self) (L + 1) (MHA.head_size self) key
          /\ t4_shape bsz (MHA.num_heads self) (L + 1) (MHA.head_size self) value
          /\ ((0 < MHA.num_heads self)%nat ->
              shape2 key = (L + 1)%nat /\ shape2 value = (L + 1)%nat)).
Proof.
  intros Hself Hq Hk Hv.
  assert (Hpart : forall out bias,
             MHA.forward self hs enc mask (Some [past_key; past_value]) true pb ql
             = Ok (out, bias) ->
             exists o key value,
               out = MHA.WithCache o (key, value) /\ rows (L + 1) key /\ rows (L + 1) value
               /\ extends_by 1 past_key key /\ extends_by 1 past_value value).
  { intros out bias H. unfold MHA.forward in H. step_ok H.
    unfold MHA.forward_trace in E. rewrite Hself in E. cbn [bind] in E.
    repeat step_ok E. injection E as <-. simpl in H. injection H as <- <-.
    match goal with
    | Eq : bind (Linear.forward _ _) _ = Ok (_, _, _) |- _ => rename Eq into Eqkv
    end.
    apply bind_Ok in Eqkv; destruct Eqkv as (x & El & Eq).
    apply bind_Ok in Eq; destruct Eq as (y & Ev & Eq).
    apply bind_Ok in Eq; destruct Eq as (key & Ek & Eq).
    apply bind_Ok in Eq; destruct Eq as (value & Ew & Eq).
    injection Eq as _ <- <-.
    pose proof (view_heads_rows _ _ _ _ _ _ Ev (Linear_forward_query_len _ _ _ _ El Hq))
      as Hy.
    pose proof (cat_dim2_rows _ _ _ _ _ Ek Hk (chunk_rows _ 1 _ _ Hy)).
    pose proof (cat_dim2_rows _ _ _ _ _ Ew Hv (chunk_rows _ 2 _ _ Hy)).
    pose proof (cat_dim2_extends _ _ _ _ Ek (chunk_rows _ 1 _ _ Hy)).
    pose proof (cat_dim2_extends _ _ _ _ Ew (chunk_rows _ 2 _ _ Hy)).
    do 3 eexists. split; [reflexivity|]. auto. }
  split; [exact Hpart|].
  intros bsz Hwf Hb Hhs Hpk Hpv Hfit.
  destruct (decode_step_returns self hs enc mask past_key past_value pb ql bsz L
              Hwf Hself Hb Hhs Hpk Hpv Hfit) as (tr & E & Hkey & Hvalue & o & Eo).
  assert (Hf : MHA.forward self hs enc mask (Some [past_key; past_value]) true pb ql
               = Ok (MHA.WithCache o (MHA.t_key tr, MHA.t_value tr), snd (MHA.t_result tr))).
  { unfold MHA.forward. rewrite E. cbn [bind]. rewrite <- Eo.
    now rewrite <- surjective_pairing. }
  destruct (Hpart _ _ Hf) as (o' & key & value & Eout & Hrk & Hrv & Hek & Hev).
  injection Eout as _ <- <-.
  exists o, (MHA.t_key tr), (MHA.t_value tr), (snd (MHA.t_result tr)).
  split; [exact Hf|]. repeat (split; [assumption|]).
  intros Hnh. split; eapply shape2_of; eassumption.
Qed.

Lemma layer_2_2_well_formed : well_formed (Fixtures.layer 2 2 false).
Proof.
  unfold well_formed, mat_shape.
  split; [reflexivity|]. repeat (split; [split; [reflexivity | repeat constructor]|]).
  intros b h r c x Hx. exact Hx.
Qed.

Lemma self_attention_cache_grows_by_one_witness :
  (forall out bias,
      MHA.forward (Fixtures.layer 2 2 false) [[[1; 2]]] None (Some [[[[1; 1; 1]]]])
        (Some [[[[[3]; [4]]; [[5]; [6]]]]; [[[[7]; [8]]; [[9]; [10]]]]]) true None None
      = Ok (out, bias) ->
      exists o key value,
        out = MHA.WithCache o (key, value) /\ rows (2 + 1) key /\ rows (2 + 1) value
        /\ extends_by 1 [[[[3]; [4]]; [[5]; [6]]]] key
        /\ extends_by 1 [[[[7]; [8]]; [[9]; [10]]]] value)
  /\ exists o key value bias,
       MHA.forward (Fixtures.layer 2 2 false) [[[1; 2]]] None (Some [[[[1; 1; 1]]]])
         (Some [[[[[3]; [4]]; [[5]; [6]]]]; [[[[7]; [8]]; [[9]; [10]]]]]) true None None
       = Ok (MHA.WithCache o (key, value), bias)
       /\ rows (2 + 1) key /\ rows (2 + 1) value
       /\ extends_by 1 [[[[3]; [4]]; [[5]; [6]]]] key
       /\ extends_by 1 [[[[7]; [8]]; [[9]; [10]]]] value
       /\ t4_shape 1 2 (2 + 1) 1 key /\ t4_shape 1 2 (2 + 1) 1 value
       /\ shape2 key = (2 + 1)%nat /\ shape2 value = (2 + 1)%nat.
Proof.
  destruct (self_attention_cache_grows_by_one (Fixtures.layer 2 2 false) [[[1; 2]]] None
              (Some [[[[1; 1; 1]]]]) [[[[3]; [4]]; [[5]; [6]]]] [[[[7]; [8]]; [[9]; [10]]]]
              None None 2 eq_refl) as [Hpart Htot].
  - repeat constructor.
  - repeat constructor.
  - repeat constructor.
  - split; [exact Hpart|].
    destruct (Htot 1%nat) as (o & key & value & bias & E & H1 & H2 & H3 & H4 & H5 & H6 & H7).
    + exact layer_2_2_well_formed.
    + lia.
    + repeat constructor.
    + repeat constructor.
    + repeat constructor.
    + split; [reflexivity|]. split; [reflexivity|]. split; [reflexivity|].
      split; [simpl; lia|].
      exists [[[[1; 1; 1]]]]. split; [reflexivity|].
      exists 1%nat, 1%nat, 1%nat, 3%nat.
      split; [repeat constructor|].
      split; [now left|]. split; [now right|]. split; now left.
    + exists o, key, value, bias. destruct H7 as [H7 H8]; [simpl; lia|].
      repeat (split; [assumption|]). assumption.
Defined.

(** ** Which exceptions an operation can raise *)

Section RaisesOnly.
Variable P : exn -> Prop.

Lemma raises_only_Ok {A : Type} (a : A) : raises_only P (Ok a).
Proof. intros e H. discriminate. Qed.

Lemma raises_only_Raise {A : Type} (e : exn) : P e -> raises_only P (@Raise A e).
Proof. intros He e' [= <-]. exact He. Qed.

Lemma raises_only_bind {A B : Type} (c : result A) (k : A -> result B) :
  raises_only P c -> (forall a, raises_only P (k a)) -> raises_only P (bind c k).
Proof.
  intros Hc Hk e H. apply bind_Raise in H as [H|(a & _ & H)]; [now apply Hc | now apply (Hk a)].
Qed.

Lemma raises_only_mapM {A B : Type} (f : A -> result B) (l : list A) :
  (forall a, raises_only P (f a)) -> raises_only P (mapM f l).
Proof.
  intros Hf. induction l as [|a l IH]; simpl.
  - apply raises_only_Ok.
  - apply raises_only_bind; [apply Hf|]. intros b.
    apply raises_only_bind; [exact IH|]. intros bs. apply raises_only_Ok.
Qed.

Hypothesis P_runtime : P RuntimeError.

Lemma raises_only_zipM {A B C : Type} (f : A -> B -> result C) (a : list A) (b : list B) :
  (forall x y, raises_only P (f x y)) -> raises_only P (zipM f a b).
Proof.
  intros Hf. unfold zipM. destruct (Nat.eqb _ _).
  - apply raises_only_mapM. intros [x y]. apply Hf.
  - now apply raises_only_Raise.
Qed.

Lemma raises_only_bzip {A B C : Type} (f : A -> B -> result C) (a : list A) (b : list B) :
  (forall x y, raises_only P (f x y)) -> raises_only P (bzip f a b).
Proof.
  intros Hf. unfold bzip. destruct (Nat.eqb _ _).
  - apply raises_only_mapM. intros [x y]. apply Hf.
  - destruct a as [|x [|x' a]]; destruct b as [|y [|y' b]];
      try (now apply raises_only_Raise); apply raises_only_mapM; intros; apply Hf.
Qed.

Lemma raises_only_bzip_into {A B : Type} (f : A -> B -> result A) (a : list A)
    (b : list B) :
  (forall x y, raises_only P (f x y)) -> raises_only P (bzip_into f a b).
Proof.
  intros Hf. unfold bzip_into. destruct (Nat.eqb _ _).
  - apply raises_only_mapM. intros [x y]. apply Hf.
  - destruct b as [|y [|y' b]];
      try (now apply raises_only_Raise); apply raises_only_mapM; intros; apply Hf.
Qed.

Lemma raises_only_inplace4 (f : R -> R -> R) (a b : T4) : raises_only P (inplace4 f a b).
Proof.
  unfold inplace4. repeat (apply raises_only_bzip_into; intros). apply raises_only_Ok.
Qed.

Lemma raises_only_dot (a b : Vec) : raises_only P (dot a b).
Proof.
  unfold dot. destruct (Nat.eqb _ _); [apply raises_only_Ok | now apply raises_only_Raise].
Qed.

Lemma raises_only_broadcast3 (f : R -> R -> R) (a b : T3) : raises_only P (broadcast3 f a b).
Proof.
  unfold broadcast3. repeat (apply raises_only_bzip; intros). apply raises_only_Ok.
Qed.

Lemma raises_only_broadcast4 (f : R -> R -> R) (a b : T4) : raises_only P (broadcast4 f a b).
Proof. unfold broadcast4. apply raises_only_bzip. intros. apply raises_only_broadcast3. Qed.

Lemma raises_only_Linear (l : Linear.t) (x : T3) : raises_only P (Linear.forward l x).
Proof.
  unfold Linear.forward. repeat (apply raises_only_mapM; intros). apply raises_only_dot.
Qed.

Lemma raises_only_view_heads (bsz nh w : nat) (x : T3) :
  raises_only P (view_heads bsz nh w x).
Proof.
  unfold view_heads. destruct (Nat.eqb _ _); [|now apply raises_only_Raise].
  apply raises_only_mapM. intros m. unfold split_heads.
  apply raises_only_bind; [|intros; apply raises_only_Ok].
  apply raises_only_mapM. intros row.
  destruct (Nat.eqb _ _); [apply raises_only_Ok | now apply raises_only_Raise].
Qed.

Lemma raises_only_cat_dim2 (a b : T4) : raises_only P (cat_dim2 a b).
Proof.
  unfold cat_dim2. repeat (apply raises_only_zipM; intros).
  destruct (same_width _ _); [apply raises_only_Ok | now apply raises_only_Raise].
Qed.

Lemma raises_only_matmul_transpose_b (a b : T4) : raises_only P (matmul_transpose_b a b).
Proof.
  unfold matmul_transpose_b, matmul_nt. repeat (apply raises_only_zipM; intros).
  repeat (apply raises_only_mapM; intros). apply raises_only_dot.
Qed.

Lemma raises_only_matmul (a b : T4) : raises_only P (matmul a b).
Proof.
  unfold matmul, matmul_nn. repeat (apply raises_only_zipM; intros).
  repeat (apply raises_only_mapM; intros). apply raises_only_dot.
Qed.

Lemma raises_only_merge_heads (n h : nat) (x : list Mat) : raises_only P (merge_heads n h x).
Proof.
  unfold merge_heads.
  destruct (Nat.eqb _ _); [apply raises_only_Ok | now apply raises_only_Raise].
Qed.

Lemma raises_only_fused (x mask : T4) (fill : R) :
  raises_only P (fused_scale_mask_softmax x mask fill).
Proof.
  unfold fused_scale_mask_softmax. apply raises_only_bind;
    [apply raises_only_broadcast4 | intros; apply raises_only_Ok].
Qed.

Hypothesis P_zero_division : P ZeroDivisionError.
Hypothesis P_math_domain : P (ValueError "math domain error").
Hypothesis P_index : P IndexError.

Lemma raises_only_bucket (rp : list (list Z)) (b : bool) (nb md : Z) :
  raises_only P (MHA._relative_position_bucket rp b nb md).
Proof.
  unfold MHA._relative_position_bucket.
  apply raises_only_bind; [|intros; apply raises_only_Ok].
  destruct (Z.eqb _ _); [now apply raises_only_Raise|].
  destruct (Z.leb _ _); [now apply raises_only_Raise | apply raises_only_Ok].
Qed.

Lemma raises_only_compute_bias (self : MHA.t) (q k : nat) :
  raises_only P (MHA.compute_bias self q k).
Proof.
  unfold MHA.compute_bias. apply raises_only_bind; [apply raises_only_bucket|]. intros.
  apply raises_only_bind; [|intros; apply raises_only_Ok].
  unfold Embedding.forward. repeat (apply raises_only_mapM; intros).
  destruct (Z.ltb _ _); [now apply raises_only_Raise|].
  destruct (nth_error _ _); [apply raises_only_Ok | now apply raises_only_Raise].
Qed.

End RaisesOnly.

Ltac raises_step Pr Pz Pm Pi :=
  first
    [ apply raises_only_Ok
    | apply raises_only_Raise; solve [assumption | discriminate]
    | apply (raises_only_Linear _ Pr)
    | apply (raises_only_view_heads _ Pr)
    | apply (raises_only_cat_dim2 _ Pr)
    | apply (raises_only_matmul_transpose_b _ Pr)
    | apply (raises_only_matmul _ Pr)
    | apply (raises_only_broadcast4 _ Pr)
    | apply (raises_only_inplace4 _ Pr)
    | apply (raises_only_fused _ Pr)
    | apply raises_only_compute_bias; assumption
    | apply raises_only_mapM; intros; apply (raises_only_merge_heads _ Pr)
    | apply raises_only_bind; [|intros]
    | match goal with
      | |- raises_only _ (match ?x with _ => _ end) => destruct x
      end ].

Lemma no_key_value_source_only_when_both_absent (self : MHA.t) hs enc mask pkv uc pb ql :
  MHA.forward_trace self hs enc mask pkv uc pb ql
  = Raise (ValueError MHA.no_key_value_source) ->
  MHA.is_cross_attention self = true /\ pkv = None /\ enc = None.
Proof.
  intros H.
  assert (Pr : not_no_key_value_source RuntimeError) by discriminate.
  assert (Pz : not_no_key_value_source ZeroDivisionError) by discriminate.
  assert (Pm : not_no_key_value_source (ValueError "math domain error")) by discriminate.
  assert (Pi : not_no_key_value_source IndexError) by discriminate.
  assert (Pa : not_no_key_value_source AssertionError) by discriminate.
  assert (Pt : not_no_key_value_source AttributeError) by discriminate.
  destruct (MHA.is_cross_attention self) eqn:Hc, pkv as [l|], enc as [e|];
    try (split; [reflexivity | split; reflexivity]); exfalso;
    revert H; unfold MHA.forward_trace; rewrite Hc;
    [ destruct l as [|k [|v [|w l]]] | destruct l as [|k [|v [|w l]]] | |
      destruct l as [|k [|v [|w l]]] | destruct l as [|k [|v [|w l]]] | | ];
    cbn [bind option_map]; try discriminate;
    match goal with
    | |- ?c = _ -> False =>
        intros H; cut (raises_only not_no_key_value_source c);
        [ intros Hr; exact (Hr _ H eq_refl) | clear H ]
    end;
    repeat raises_step Pr Pz Pm Pi.
Qed.

Lemma forward_Raise (self : MHA.t) hs enc mask pkv uc pb ql e :
  MHA.forward self hs enc mask pkv uc pb ql = Raise e <->
  MHA.forward_trace self hs enc mask pkv uc pb ql = Raise e.
Proof.
  unfold MHA.forward. destruct (MHA.forward_trace _ _ _ _ _ _ _ _); simpl; split;
    intros H; try discriminate; now injection H as ->.
Qed.

Lemma forward_Ok (self : MHA.t) hs enc mask pkv uc pb ql r :
  MHA.forward self hs enc mask pkv uc pb ql = Ok r <->
  exists tr, MHA.forward_trace self hs enc mask pkv uc pb ql = Ok tr /\ MHA.t_result tr = r.
Proof.
  unfold MHA.forward. destruct (MHA.forward_trace _ _ _ _ _ _ _ _) as [tr|e]; simpl; split.
  - intros [= <-]. eauto.
  - intros (tr' & [= <-] & <-). reflexivity.
  - discriminate.
  - intros (tr' & H & _). discriminate.
Qed.

(** C7.  Cross attention.  With neither [past_key_value] nor
    [encoder_states] the call raises: the error of the missing key/value
    source, unless the query projection has already failed on its shapes.
    That error is raised under no other condition.  A supplied
    [past_key_value] is used as key and value unchanged, and is the cache
    returned under [use_cache]. *)
Theorem cross_attention_key_value_source (self : MHA.t) hs enc mask pkv uc pb ql :
  MHA.is_cross_attention self = true ->
  (pkv = None -> enc = None ->
     MHA.forward self hs enc mask pkv uc pb ql = Raise (ValueError MHA.no_key_value_source)
     \/ MHA.forward self hs enc mask pkv uc pb ql = Raise RuntimeError)
  /\ (MHA.forward self hs enc mask pkv uc pb ql = Raise (ValueError MHA.no_key_value_source) ->
      pkv = None /\ enc = None)
  /\ (forall key value tr,
        pkv = Some [key; value] ->
        MHA.forward_trace self hs enc mask pkv uc pb ql = Ok tr ->
        MHA.t_key tr = key /\ MHA.t_value tr = value
        /\ (uc = true -> exists o, fst (MHA.t_result tr) = MHA.WithCache o (key, value))).
Proof.
  intros Hc. split; [|split].
  - intros -> ->. rewrite !forward_Raise. unfold MHA.forward_trace. rewrite Hc.
    cbn [bind option_map].
    destruct (Linear.forward (MHA.query self) hs) as [x|e] eqn:El; cbn [bind].
    + destruct (view_heads _ _ _ x) as [q|e] eqn:Ev; cbn [bind]; [now left|].
      right. f_equal. symmetry.
      exact (raises_only_view_heads (eq RuntimeError) eq_refl _ _ _ _ _ Ev).
    + right. f_equal. symmetry.
      exact (raises_only_Linear (eq RuntimeError) eq_refl _ _ _ El).
  - rewrite forward_Raise. intros H.
    now apply no_key_value_source_only_when_both_absent in H.
  - intros key value tr -> H. unfold MHA.forward_trace in H. rewrite Hc in H.
    cbn [bind] in H. repeat step_ok H. injection H as <-. simpl.
    match goal with
    | Eq : bind (Linear.forward _ _) _ = Ok (_, _, _) |- _ =>
        apply bind_Ok in Eq; destruct Eq as (x & _ & Eq);
        apply bind_Ok in Eq; destruct Eq as (q & _ & Eq);
        injection Eq as _ <- <-
    end.
    split; [reflexivity|]. split; [reflexivity|]. intros ->. eauto.
Qed.

Lemma cross_attention_key_value_source_witness :
  (MHA.forward (Fixtures.layer 1 1 true) [[[1]]] None None None false None None
   = Raise (ValueError MHA.no_key_value_source)
   \/ MHA.forward (Fixtures.layer 1 1 true) [[[1]]] None None None false None None
      = Raise RuntimeError)
  /\ exists tr,
       MHA.forward_trace (Fixtures.layer 1 1 true) [[[1]]] (Some [[[6]; [7]]])
         (Some [[[[1; 1]]]]) (Some [[[[[2]; [3]]]]; [[[[4]; [5]]]]]) true None (Some 2%nat)
       = Ok tr
       /\ MHA.t_key tr = [[[[2]; [3]]]] /\ MHA.t_value tr = [[[[4]; [5]]]]
       /\ (true = true ->
           exists o, fst (MHA.t_result tr) = MHA.WithCache o ([[[[2]; [3]]]], [[[[4]; [5]]]])).
Proof.
  split.
  - exact (proj1 (cross_attention_key_value_source (Fixtures.layer 1 1 true) [[[1]]] None
                    None None false None None eq_refl) eq_refl eq_refl).
  - eexists. split; [reflexivity|].
    apply (proj2 (proj2 (cross_attention_key_value_source (Fixtures.layer 1 1 true) [[[1]]]
                           (Some [[[6]; [7]]]) (Some [[[[1; 1]]]])
                           (Some [[[[[2]; [3]]]]; [[[[4]; [5]]]]]) true None (Some 2%nat)
                           eq_refl))); reflexivity.
Defined.

(** Without a bias and without a mask no call returns. *)
Lemma forward_trace_without_mask_raises (self : MHA.t) hs enc pkv uc ql :
  exists e, MHA.forward_trace self hs enc None pkv uc None ql = Raise e.
Proof.
  unfold MHA.forward_trace. cbn [option_map].
  apply bind_always_raises. intros past.
  apply bind_always_raises. intros [[query key] value].
  apply bind_always_raises. intros scores.
  match goal with
  | |- exists e, bind ?c _ = Raise e =>
      assert (Hc : exists e, c = Raise e)
        by (apply bind_always_raises; intros; eexists; reflexivity);
      destruct Hc as (e & ->); exists e; reflexivity
  end.
Qed.

(** A call that returns with some mask reaches the folding of the mask,
    so the same call without a mask stops there. *)
Lemma forward_trace_without_mask_attribute_error (self : MHA.t) hs enc mask pkv uc ql tr :
  MHA.forward_trace self hs enc (Some mask) pkv uc None ql = Ok tr ->
  MHA.forward_trace self hs enc None pkv uc None ql = Raise AttributeError.
Proof.
  intros H. unfold MHA.forward_trace in *. cbn [option_map] in *.
  step_ok H. rewrite E. cbn [bind].
  step_ok H. rewrite E0. cbn [bind]. destruct v0 as [[query key] value].
  step_ok H. rewrite E1. cbn [bind].
  apply bind_Ok in H. destruct H as (b & Eb & _).
  apply bind_Ok in Eb. destruct Eb as (full & Efull & _).
  rewrite Efull. reflexivity.
Qed.

(** C10 (amended).  With [position_bias = None] and
    [attention_mask = None] no call returns an output.  A call that would
    return with a mask fails, without one, with the [AttributeError] of
    the absent mask; a call stopped earlier fails with that earlier
    error. *)
Theorem no_mask_no_bias_never_returns (self : MHA.t) hs enc pkv uc ql :
  (exists e, MHA.forward self hs enc None pkv uc None ql = Raise e)
  /\ (forall mask r,
        MHA.forward self hs enc (Some mask) pkv uc None ql = Ok r ->
        MHA.forward self hs enc None pkv uc None ql = Raise AttributeError).
Proof.
  split.
  - destruct (forward_trace_without_mask_raises self hs enc pkv uc ql) as (e & He).
    exists e. now apply forward_Raise.
  - intros mask r H. apply forward_Ok in H as (tr & H & _).
    apply forward_Raise. now apply forward_trace_without_mask_attribute_error in H.
Qed.

Lemma no_mask_no_bias_never_returns_witness :
  (exists e,
      MHA.forward (Fixtures.layer 1 1 false) [[[1]]] None None None false None None
      = Raise e)
  /\ MHA.forward (Fixtures.layer 1 1 false) [[[1]]] None None None false None None
     = Raise AttributeError.
Proof.
  split.
  - exact (proj1 (no_mask_no_bias_never_returns (Fixtures.layer 1 1 false) [[[1]]] None
                    None false None)).
  - eapply (proj2 (no_mask_no_bias_never_returns (Fixtures.layer 1 1 false) [[[1]]] None
                     None false None) [[[[1]]]]).
    reflexivity.
Defined.

(** Cross attention without a key/value source, without a mask and without
    a bias: the call stops at the missing source, before the mask is
    touched. *)
Lemma no_mask_no_bias_counterexample :
  MHA.forward (Fixtures.layer 1 1 true) [[[1]]] None None None false None None
  = Raise (ValueError MHA.no_key_value_source)
  /\ Raise (ValueError MHA.no_key_value_source)
     <> @Raise (MHA.attn_output * T4) AttributeError.
Proof. split; [reflexivity | discriminate]. Qed.

(** C8 (failing input).  Without a supplied bias the call with no mask
    raises, the call with the mask of ones returns. *)
Lemma all_ones_mask_vs_no_mask :
  MHA.forward (Fixtures.layer 1 1 false) [[[1]; [2]]] None None None false None None
  = Raise AttributeError
  /\ exists r,
       MHA.forward (Fixtures.layer 1 1 false) [[[1]; [2]]] None
         (Some [[[[1; 1]; [1; 1]]]]) None false None None = Ok r.
Proof. split; [reflexivity | eexists; reflexivity]. Qed.

Lemma ratio_injective (a b : R) : 0 < a -> 0 < b -> a / (1 + a) = b / (1 + b) -> a = b.
Proof.
  intros Ha Hb H.
  apply (Rmult_eq_compat_r ((1 + a) * (1 + b))) in H.
  field_simplify in H; lra.
Qed.

Lemma exp_2 : exp 2 = exp 1 * exp 1.
Proof. rewrite <- exp_plus. f_equal; lra. Qed.

Lemma exp_1_gt_1 : 1 < exp 1.
Proof. pose proof (exp_ineq1 1 ltac:(lra)). lra. Qed.

(** With scaling by depth enabled and a supplied bias, the mask of ones
    still changes the output: the masked path multiplies the scores by
    [coeff], the path without a mask does not. *)
Lemma all_ones_mask_rescales_scores :
  exists o1 o2 b1 b2,
    MHA.forward (Fixtures.scaled_layer 1 1) [[[0]; [1]]] None None None false
      (Some (zeros 1 2 2)) None = Ok (MHA.Plain o1, b1)
    /\ MHA.forward (Fixtures.scaled_layer 1 1) [[[0]; [1]]] None
         (Some [[[[1; 1]; [1; 1]]]]) None false (Some (zeros 1 2 2)) None
       = Ok (MHA.Plain o2, b2)
    /\ o1 <> o2.
Proof.
  do 4 eexists. split; [reflexivity|]. split; [reflexivity|].
  simpl. intros H. injection H as _ H.
  replace ((1 * 1 + 0) * (0 * 1 + 0) + 0 + 0) with 0 in H by lra.
  replace ((1 * 1 + 0) * (1 * 1 + 0) + 0 + 0) with 1 in H by lra.
  replace (0 * 2 * 1 - 10000 * (1 - 1)) with 0 in H by lra.
  replace (1 * 2 * 1 - 10000 * (1 - 1)) with 2 in H by lra.
  rewrite exp_0, exp_2 in H.
  pose proof exp_1_gt_1 as He. set (a := exp 1) in *.
  assert (E : a / (1 + a) = a * a / (1 + a * a)).
  { transitivity ((1 / (1 + (a + 0)) * (0 * 1 + 0) + (a / (1 + (a + 0)) * (1 * 1 + 0) + 0))
                  * 1 + 0); [field; lra|].
    rewrite H. field. nra. }
  apply ratio_injective in E; nra.
Qed.

Lemma mapM_same {A : Type} (f : A -> result A) (P : A -> Prop) (l : list A) :
  Forall P l -> (forall x, P x -> f x = Ok x) -> mapM f l = Ok l.
Proof.
  intros HP Hf. induction HP as [|x l Hx HP IH]; simpl; [reflexivity|].
  now rewrite (Hf x Hx), IH.
Qed.

Lemma bzip_same {A B : Type} (f : A -> B -> result A) (n m : nat) (P : A -> Prop)
    (Q : B -> Prop) (a : list A) (b : list B) :
  shaped n P a -> shaped m Q b -> fits n m ->
  (forall x y, P x -> Q y -> f x y = Ok x) -> bzip f a b = Ok a.
Proof.
  intros Ha Hb Hfit Hf. unfold bzip.
  destruct (Nat.eqb_spec (length a) (length b)) as [E|E].
  - destruct Ha as [_ HP], Hb as [_ HQ]. clear Hfit. revert b E HQ.
    induction HP as [|x a Hx HP IH]; intros [|y b] E HQ; simpl in *; try discriminate.
    + reflexivity.
    + inversion HQ as [|? ? Hy HQ']. subst. rewrite (Hf x y Hx Hy). cbn [bind].
      rewrite (IH b) by (auto; lia). reflexivity.
  - destruct Hfit as [-> | ->]; [destruct Ha, Hb; congruence|].
    destruct (shaped_singleton _ _ Hb) as (y & -> & Hy).
    destruct Ha as [Hn HP].
    destruct a as [|x [|x' a]]; [reflexivity | simpl in E; congruence |].
    apply (mapM_same _ P); [exact HP|]. intros x0 Hx0. now apply Hf.
Qed.

(** An elementwise operation against a fitting tensor whose entries all
    act as a neutral element returns its left operand. *)
Lemma broadcast4_same (f : R -> R -> R) (Q : R -> Prop) (b h r c b' h' r' c' : nat)
    (x y : T4) :
  t4_shape b h r c x -> t4_all Q b' h' r' c' y ->
  fits b b' -> fits h h' -> fits r r' -> fits c c' ->
  (forall s m, Q m -> f s m = s) ->
  broadcast4 f x y = Ok x.
Proof.
  intros Hx Hy Fb Fh Fr Fc Hf. unfold broadcast4, broadcast3.
  apply (bzip_same _ b b' _ _ _ _ Hx Hy Fb). intros x3 y3 Hx3 Hy3.
  apply (bzip_same _ h h' _ _ _ _ Hx3 Hy3 Fh). intros xm ym Hxm Hym.
  apply (bzip_same _ r r' _ _ _ _ Hxm Hym Fr). intros xv yv Hxv Hyv.
  apply (bzip_same _ c c' (fun _ => True) Q _ _); auto.
  - split; [exact Hxv | apply Forall_forall; trivial].
  - intros s m _ Hm. now rewrite Hf.
Qed.

Lemma t4_all_map4 (g : R -> R) (Q Q' : R -> Prop) (b h r c : nat) (x : T4) :
  t4_all Q b h r c x -> (forall m, Q m -> Q' (g m)) -> t4_all Q' b h r c (map4 g x).
Proof.
  intros Hx Hg. unfold map4, t4_all in *.
  apply (shaped_map _ b _ _ _ Hx). intros x3 H3.
  apply (shaped_map _ h _ _ _ H3). intros m Hm.
  apply (shaped_map _ r _ _ _ Hm). intros v Hv.
  apply (shaped_map _ c _ _ _ Hv). exact Hg.
Qed.

(** Where the bias is supplied and the scores are not rescaled, the mask
    of ones changes nothing: the call returns what the call without a mask
    returns. *)
Lemma ones_mask_is_neutral (self : MHA.t) hs enc pkv uc bias ql tr m (b h r c : nat) :
  MHA.coeff self = None ->
  MHA.forward_trace self hs enc None pkv uc (Some bias) ql = Ok tr ->
  t4_shape b h r c (MHA.t_biased_scores tr) ->
  ones_mask b h r c m ->
  exists tr',
    MHA.forward_trace self hs enc (Some m) pkv uc (Some bias) ql = Ok tr'
    /\ MHA.t_result tr' = MHA.t_result tr
    /\ MHA.t_attention_weights tr' = MHA.t_attention_weights tr.
Proof.
  intros Hco H Hshape (b' & h' & r' & c' & Hm & Fb & Fh & Fr & Fc).
  unfold MHA.forward_trace in *. cbn [option_map] in *. unfold to_global in *.
  step_ok H. rewrite E. cbn [bind].
  step_ok H. rewrite E0. cbn [bind]. destruct v0 as [[query key] value].
  step_ok H. rewrite E1. cbn [bind] in *.
  step_ok H. rewrite E2. cbn [bind] in *.
  assert (Hbs : t4_shape b h r c v1).
  { repeat step_ok H. injection H as <-. exact Hshape. }
  assert (Hmask :
            (if MHA.scale_mask_softmax_fusion self then
               attention_weights <- fused_scale_mask_softmax v1 m (-10000) ;;
               Ok (v1, attention_weights)
             else
               attention_scores <- broadcast4 Rmult (MHA.apply_coeff self v1) m ;;
               attention_scores0 <-
                 broadcast4 Rminus attention_scores
                   (map4 (fun m0 => 10000 * (1 - m0)) m) ;;
               Ok (attention_scores0, softmax attention_scores0))
            = Ok (v1, softmax v1)).
  { destruct (MHA.scale_mask_softmax_fusion self).
    - unfold fused_scale_mask_softmax.
      rewrite (broadcast4_same _ (eq 1) _ _ _ _ _ _ _ _ _ _ Hbs Hm Fb Fh Fr Fc).
      + reflexivity.
      + intros s m0 <-. destruct (Req_dec_T 1 0); [lra | reflexivity].
    - unfold MHA.apply_coeff. rewrite Hco.
      rewrite (broadcast4_same _ (eq 1) _ _ _ _ _ _ _ _ _ _ Hbs Hm Fb Fh Fr Fc)
        by (intros s m0 <-; lra).
      cbn [bind].
      rewrite (broadcast4_same _ (eq 0) _ _ _ _ _ _ _ _ _ _ Hbs
                 (t4_all_map4 (fun m0 => 10000 * (1 - m0)) (eq 1) (eq 0) _ _ _ _ _ Hm
                    ltac:(intros ? <-; lra)) Fb Fh Fr Fc)
        by (intros s m0 <-; lra).
      reflexivity. }
  rewrite Hmask. cbn [bind] in *.
  repeat step_ok H. injection H as <-.
  repeat match goal with E : _ = Ok _ |- _ => rewrite E; cbn [bind] end.
  eexists. split; [reflexivity|]. split; reflexivity.
Qed.

Example ones_mask_is_neutral_on_two_tokens :
  exists tr tr',
    MHA.forward_trace (Fixtures.layer 1 1 false) [[[1]; [2]]] None None None false
      (Some (zeros 1 2 2)) None = Ok tr
    /\ MHA.forward_trace (Fixtures.layer 1 1 false) [[[1]; [2]]] None
         (Some [[[[1; 1]; [1; 1]]]]) None false (Some (zeros 1 2 2)) None = Ok tr'
    /\ MHA.t_result tr' = MHA.t_result tr
    /\ MHA.t_attention_weights tr' = MHA.t_attention_weights tr.
Proof.
  assert (E0 : exists tr0,
             MHA.forward_trace (Fixtures.layer 1 1 false) [[[1]; [2]]] None None None false
               (Some (zeros 1 2 2)) None = Ok tr0) by (eexists; run; reflexivity).
  destruct E0 as (tr0 & E0).
  destruct (ones_mask_is_neutral (Fixtures.layer 1 1 false) _ _ _ _ _ _ tr0
              [[[[1; 1]; [1; 1]]]] 1 1 2 2 eq_refl E0) as (tr' & E & R1 & R2).
  - run_in E0. injection E0 as <-. repeat constructor.
  - exists 1%nat, 1%nat, 2%nat, 2%nat. split; [repeat constructor|].
    repeat split; now left.
  - exists tr0, tr'. auto.
Qed.

(** ** TransformerLayer *)

Lemma apply_drop_path_cache (m : TransformerLayer.drop_path_module) o kv y :
  keeps_cache m -> TransformerLayer.apply_drop_path m (MHA.WithCache o kv) = Ok y ->
  exists o', y = MHA.WithCache o' kv.
Proof.
  destruct m as [|f]; simpl; intros Hk H.
  - injection H as <-. eauto.
  - eauto.
Qed.

Lemma unpack_cache_Ok x o kv :
  TransformerLayer.unpack_cache x = Ok (o, kv) -> x = MHA.WithCache o kv.
Proof. destruct x; simpl; [discriminate | now intros [= -> ->]]. Qed.

Lemma forward_use_cache (self : MHA.t) hs enc mask pkv pb ql r :
  MHA.forward self hs enc mask pkv true pb ql = Ok r ->
  exists o kv, fst r = MHA.WithCache o kv.
Proof.
  intros H. apply forward_Ok in H as (tr & H & <-).
  unfold MHA.forward_trace in H. repeat step_ok H. injection H as <-. simpl. eauto.
Qed.

(** C9.  A decoder layer under [use_cache].  A supplied
    [past_key_value] whose length is not 4 is rejected.  Otherwise the
    first two entries go to the self attention and the last two to the
    cross attention, and the returned [presents] is the cache pair of the
    self attention followed by the cache pair of the cross attention. *)
Theorem decoder_cache_threading (self : TransformerLayer.t) hs am es eam pkv pb edpb :
  TransformerLayer.is_decoder self = true ->
  keeps_cache (TransformerLayer.drop_path self) ->
  (forall l, pkv = Some l -> length l <> 4%nat ->
     TransformerLayer.forward self hs am es eam pkv true pb edpb = Raise AssertionError)
  /\ (forall r,
        TransformerLayer.forward self hs am es eam pkv true pb edpb = Ok r ->
        exists x1 o1 ks vs pb1 x2 o2 kc vc pb2,
          MHA.forward (TransformerLayer.self_attention self) x1 None am
            (option_map (firstn 2) pkv) true pb None
          = Ok (MHA.WithCache o1 (ks, vs), pb1)
          /\ MHA.forward (TransformerLayer.cross_attention self) x2 es eam
               (option_map (skipn 2) pkv) true edpb (Some (shape2 ks))
             = Ok (MHA.WithCache o2 (kc, vc), pb2)
          /\ TransformerLayer.presents r = Some [ks; vs; kc; vc]).
Proof.
  intros Hd Hk. split.
  - intros l -> Hl. unfold TransformerLayer.forward. rewrite Hd.
    destruct (Nat.eqb_spec (length l) 4); [contradiction | reflexivity].
  - intros r H. unfold TransformerLayer.forward in H. rewrite Hd in H.
    assert (Hp : exists sp cp,
               match pkv with
               | Some l => if Nat.eqb (length l) 4
                           then Ok (Some (firstn 2 l), Some (skipn 2 l))
                           else Raise AssertionError
               | None => Ok (None, None)
               end = Ok (sp, cp)
               /\ sp = option_map (firstn 2) pkv /\ cp = option_map (skipn 2) pkv).
    { destruct pkv as [l|]; simpl.
      - destruct (Nat.eqb (length l) 4); [eauto | simpl in H; discriminate].
      - eauto. }
    destruct Hp as (sp & cp & Ep & -> & ->). rewrite Ep in H. cbn [bind] in H.
    repeat step_ok H. injection H as <-. cbn [TransformerLayer.presents].
    match goal with
    | El : bind (TransformerLayer.unpack_cache _) _ = Ok _ |- _ =>
        apply bind_Ok in El; destruct El as ([os [ks vs]] & Eu & El);
        apply unpack_cache_Ok in Eu; subst; injection El as <- <-
    end.
    match goal with
    | Es : MHA.forward (TransformerLayer.self_attention self) _ _ _ _ true _ _ = Ok (?a, _),
      Ed : TransformerLayer.apply_drop_path _ ?a = Ok _ |- _ =>
        destruct (forward_use_cache _ _ _ _ _ _ _ _ Es) as (os0 & kv0 & Ea);
        cbn [fst] in Ea; subst;
        destruct (apply_drop_path_cache _ _ _ _ Hk Ed) as (os0' & Ekv);
        injection Ekv as _ <-
    end.
    match goal with
    | El : bind (MHA.forward (TransformerLayer.cross_attention self) _ _ _ _ true _ _) _
           = Ok _ |- _ =>
        apply bind_Ok in El; destruct El as ([ac pbc] & Ecross & Elet)
    end.
    destruct (forward_use_cache _ _ _ _ _ _ _ _ Ecross) as (oc & [kc vc] & Ea).
    cbn [fst] in Ea. subst.
    cbn [TransformerLayer.unpack_cache bind fst snd app nth] in *.
    repeat step_ok Elet. injection Elet as _ _ <- _.
    unfold to_global in *.
    replace (option_map (fun x : T4 => x) am) with am in * by (destruct am; reflexivity).
    do 10 eexists. split; [eassumption|]. split; [eassumption|]. reflexivity.
Qed.

Lemma decoder_cache_threading_witness :
  TransformerLayer.forward (Fixtures.decoder 1 1) [[[1]]] (Some [[[[1; 1]]]]) (Some [[[1]]])
    (Some [[[[1]]]]) (Some [[[[[2]]]]; [[[[3]]]]]) true None None = Raise AssertionError
  /\ exists r,
       TransformerLayer.forward (Fixtures.decoder 1 1) [[[1]]] (Some [[[[1; 1]]]])
         (Some [[[1]]]) (Some [[[[1]]]])
         (Some [[[[[2]]]]; [[[[3]]]]; [[[[4]]]]; [[[[5]]]]]) true None None
       = Ok r
       /\ exists x1 o1 ks vs pb1 x2 o2 kc vc pb2,
            MHA.forward (TransformerLayer.self_attention (Fixtures.decoder 1 1)) x1 None
              (Some [[[[1; 1]]]])
              (option_map (firstn 2) (Some [[[[[2]]]]; [[[[3]]]]; [[[[4]]]]; [[[[5]]]]]))
              true None None
            = Ok (MHA.WithCache o1 (ks, vs), pb1)
            /\ MHA.forward (TransformerLayer.cross_attention (Fixtures.decoder 1 1)) x2
                 (Some [[[1]]]) (Some [[[[1]]]])
                 (option_map (skipn 2) (Some [[[[[2]]]]; [[[[3]]]]; [[[[4]]]]; [[[[5]]]]]))
                 true None (Some (shape2 ks))
               = Ok (MHA.WithCache o2 (kc, vc), pb2)
            /\ TransformerLayer.presents r = Some [ks; vs; kc; vc].
Proof.
  split.
  - apply (proj1 (decoder_cache_threading (Fixtures.decoder 1 1) [[[1]]]
                    (Some [[[[1; 1]]]]) (Some [[[1]]]) (Some [[[[1]]]])
                    (Some [[[[[2]]]]; [[[[3]]]]]) None None eq_refl I)
             [[[[[2]]]]; [[[[3]]]]] eq_refl).
    simpl. lia.
  - eexists. split; [run; reflexivity|].
    refine (proj2 (decoder_cache_threading (Fixtures.decoder 1 1) [[[1]]]
                     (Some [[[[1; 1]]]]) (Some [[[1]]]) (Some [[[[1]]]])
                     (Some [[[[[2]]]]; [[[[3]]]]; [[[[4]]]]; [[[[5]]]]]) None None eq_refl I)
              _ _).
    run. reflexivity.
Defined.

(** * Further properties of the embedded code *)

(** ** [_relative_position_bucket]: failures, order and saturation *)

Section BucketOrder.

Local Open Scope Z_scope.

Lemma Int_part_le (x y : R) : (x <= y)%R -> Int_part x <= Int_part y.
Proof.
  intros H. destruct (base_Int_part x) as [Hx _]. destruct (base_Int_part y) as [_ Hy].
  assert (L : (IZR (Int_part x) < IZR (Int_part y + 1))%R) by (rewrite plus_IZR; lra).
  apply lt_IZR in L. lia.
Qed.


Lemma to_long_le (x y : R) : (0 <= x <= y)%R -> to_long x <= to_long y.
Proof.
  intros [H0 Hxy]. unfold to_long.
  destruct (Rle_dec 0 x) as [_|N]; [|contradiction].
  destruct (Rle_dec 0 y) as [_|N]; [|lra].
  now apply Int_part_le.
Qed.


Lemma ln_le_mono (x y : R) : (0 < x <= y)%R -> (ln x <= ln y)%R.
Proof.
  intros [Hx [Hlt | ->]]; [left; now apply ln_increasing | right; reflexivity].
Qed.

Lemma ratio_le (a b c : Z) : 0 < c -> a <= b -> (IZR a / IZR c <= IZR b / IZR c)%R.
Proof.
  intros Hc Hab. apply IZR_lt in Hc. apply IZR_le in Hab.
  unfold Rdiv. apply Rmult_le_compat_r; [|exact Hab].
  left. now apply Rinv_0_lt_compat.
Qed.

Lemma log_ratio_pos (max_exact max_distance : Z) :
  0 < max_exact -> max_exact < max_distance ->
  (0 < ln (IZR max_distance / IZR max_exact))%R.
Proof.
  intros Hme Hmd. rewrite <- ln_1. apply ln_increasing; [lra|]. apply ratio_gt_1; lia.
Qed.

(** The logarithmic regime is monotone in the distance. *)
Lemma if_large_mono (q1 q2 max_exact nb max_distance : Z) :
  0 < max_exact -> max_exact <= q1 <= q2 -> max_exact < max_distance -> max_exact <= nb ->
  MHA.if_large q1 max_exact nb (ln (IZR max_distance / IZR max_exact))
  <= MHA.if_large q2 max_exact nb (ln (IZR max_distance / IZR max_exact)).
Proof.
  intros Hme [Hq1 Hq12] Hmd Hnb. unfold MHA.if_large.
  pose proof (log_ratio_pos _ _ Hme Hmd) as Hden.
  assert (Hw : (0 <= IZR (nb - max_exact))%R) by (apply IZR_le; lia).
  assert (H1 : (0 <= ln (IZR q1 / IZR max_exact))%R)
    by (apply ln_nonneg, ratio_ge_1; lia).
  assert (H12 : (ln (IZR q1 / IZR max_exact) <= ln (IZR q2 / IZR max_exact))%R).
  { apply ln_le_mono. split; [|apply ratio_le; lia].
    pose proof (ratio_ge_1 q1 max_exact Hme Hq1). lra. }
  assert (Hinv : (0 < / ln (IZR max_distance / IZR max_exact))%R)
    by now apply Rinv_0_lt_compat.
  assert (Hle : (0 <= ln (IZR q1 / IZR max_exact) / ln (IZR max_distance / IZR max_exact)
                      * IZR (nb - max_exact)
                 <= ln (IZR q2 / IZR max_exact) / ln (IZR max_distance / IZR max_exact)
                    * IZR (nb - max_exact))%R).
  { unfold Rdiv. split.
    - apply Rmult_le_pos; [|exact Hw]. apply Rmult_le_pos; lra.
    - apply Rmult_le_compat_r; [exact Hw|]. apply Rmult_le_compat_r; lra. }
  pose proof (to_long_le _ _ Hle). lia.
Qed.


(** When the call returns, [max_exact] is not zero and the logarithm of
    the ratio is defined. *)
Lemma relative_position_bucket_Ok (rp : list (list Z)) (bidirectional : bool)
    (num_buckets max_distance : Z) (buckets : list (list Z)) :
  MHA._relative_position_bucket rp bidirectional num_buckets max_distance = Ok buckets ->
  let nb := if bidirectional then num_buckets / 2 else num_buckets in
  nb / 2 <> 0 /\ 0 < max_distance * (nb / 2)
  /\ buckets = map2 (fun p => MHA.bucket_at p bidirectional num_buckets max_distance) rp.
Proof.
  intros H nb.
  assert (C : nb / 2 <> 0 /\ 0 < max_distance * (nb / 2)).
  { unfold MHA._relative_position_bucket in H. fold nb in H.
    destruct (Z.eqb_spec (nb / 2) 0) as [E|E]; [discriminate|].
    destruct (Z.leb_spec (max_distance * (nb / 2)) 0) as [E'|E']; [discriminate|].
    split; assumption. }
  destruct C as [C1 C2]. split; [exact C1|]. split; [exact C2|].
  pose proof (relative_position_bucket_elementwise rp bidirectional num_buckets
                max_distance C1 C2) as E.
  rewrite E in H. now injection H as <-.
Qed.

Lemma entry2_map2 {A B : Type} (f : A -> B) (m : list (list A)) (i j : nat) :
  entry2 (map2 f m) i j = option_map f (entry2 m i j).
Proof.
  unfold entry2, map2. rewrite nth_error_map.
  destruct (nth_error m i) as [row|]; simpl; [apply nth_error_map | reflexivity].
Qed.

(** Reading one bucket of a returned matrix. *)
Lemma relative_position_bucket_entry (rp : list (list Z)) (bidirectional : bool)
    (num_buckets max_distance : Z) (buckets : list (list Z)) (i j : nat) (p : Z) :
  MHA._relative_position_bucket rp bidirectional num_buckets max_distance = Ok buckets ->
  entry2 rp i j = Some p ->
  entry2 buckets i j = Some (MHA.bucket_at p bidirectional num_buckets max_distance).
Proof.
  intros H Hp. destruct (relative_position_bucket_Ok _ _ _ _ _ H) as (_ & _ & ->).
  rewrite entry2_map2, Hp. reflexivity.
Qed.

Lemma half_bounds (n : Z) : 2 <= n -> 1 <= n / 2 /\ 2 * (n / 2) <= n /\ n / 2 < n.
Proof.
  intros Hn. assert (1 <= n / 2) by (apply Z.div_le_lower_bound; lia).
  assert (2 * (n / 2) <= n) by (apply Z.mul_div_le; lia). lia.
Qed.

(** A configuration on which the call returns: at least 2 buckets per
    direction and a [max_distance] above [max_exact]. *)
Lemma valid_buckets_return (rp : list (list Z)) (bidirectional : bool)
    (num_buckets max_distance : Z) :
  (if bidirectional then 4 else 2) <= num_buckets -> num_buckets / 2 < max_distance ->
  MHA._relative_position_bucket rp bidirectional num_buckets max_distance
  = Ok (map2 (fun p => MHA.bucket_at p bidirectional num_buckets max_distance) rp).
Proof.
  intros Hnb Hmd. apply relative_position_bucket_elementwise.
  - destruct bidirectional.
    + pose proof (half_bounds num_buckets ltac:(lia)).
      assert (2 <= num_buckets / 2) by (apply Z.div_le_lower_bound; lia).
      pose proof (half_bounds (num_buckets / 2) ltac:(lia)). lia.
    + pose proof (half_bounds num_buckets ltac:(lia)). lia.
  - destruct bidirectional.
    + pose proof (half_bounds num_buckets ltac:(lia)).
      assert (2 <= num_buckets / 2) by (apply Z.div_le_lower_bound; lia).
      pose proof (half_bounds (num_buckets / 2) ltac:(lia)). nia.
    + pose proof (half_bounds num_buckets ltac:(lia)). nia.
Qed.


(** Monotonicity of one bucket in the distance, unidirectional mode. *)
Lemma bucket_at_antitone (p1 p2 num_buckets max_distance : Z) :
  2 <= num_buckets -> num_buckets / 2 < max_distance -> p2 <= p1 ->
  MHA.bucket_at p1 false num_buckets max_distance
  <= MHA.bucket_at p2 false num_buckets max_distance.
Proof.
  intros Hnb Hmd Hp. unfold MHA.bucket_at.
  pose proof (half_bounds num_buckets Hnb) as (Hme1 & Hme2 & Hme3).
  set (me := num_buckets / 2) in *.
  destruct (Z.ltb_spec (-1 * Z.min p1 0) me) as [S1|L1];
    destruct (Z.ltb_spec (-1 * Z.min p2 0) me) as [S2|L2]; try lia.
  - pose proof (if_large_bounds (-1 * Z.min p2 0) me num_buckets max_distance
                  ltac:(lia) L2 Hmd ltac:(lia)) as B.
    unfold MHA.if_large in *.
    assert (0 <= to_long (ln (IZR (-1 * Z.min p2 0) / IZR me)
                          / ln (IZR max_distance / IZR me) * IZR (num_buckets - me))).
    { apply to_long_nonneg.
      pose proof (log_ratio_pos me max_distance ltac:(lia) Hmd).
      assert (0 <= ln (IZR (-1 * Z.min p2 0) / IZR me))%R
        by (apply ln_nonneg, ratio_ge_1; lia).
      assert (0 <= IZR (num_buckets - me))%R by (apply IZR_le; lia).
      apply Rmult_le_pos; [|assumption]. apply Rmult_le_pos; [assumption|].
      left. now apply Rinv_0_lt_compat. }
    lia.
  - pose proof (if_large_mono (-1 * Z.min p1 0) (-1 * Z.min p2 0) me num_buckets
                  max_distance ltac:(lia) ltac:(lia) Hmd ltac:(lia)). lia.
Qed.

(** X2.  Unidirectional buckets are ordered by distance into the past:
    within one returned matrix, a position that lies further back (a
    smaller relative position) never gets a smaller bucket. *)
Theorem unidirectional_bucket_monotone (rp buckets : list (list Z))
    (num_buckets max_distance : Z) (i j i' j' : nat) (p p' b b' : Z) :
  2 <= num_buckets -> num_buckets / 2 < max_distance ->
  MHA._relative_position_bucket rp false num_buckets max_distance = Ok buckets ->
  entry2 rp i j = Some p -> entry2 rp i' j' = Some p' -> p' <= p ->
  entry2 buckets i j = Some b -> entry2 buckets i' j' = Some b' ->
  b <= b'.
Proof.
  intros Hnb Hmd H Hp Hp' Hle Hb Hb'.
  rewrite (relative_position_bucket_entry _ _ _ _ _ _ _ _ H Hp) in Hb.
  rewrite (relative_position_bucket_entry _ _ _ _ _ _ _ _ H Hp') in Hb'.
  injection Hb as <-. injection Hb' as <-. now apply bucket_at_antitone.
Qed.

Lemma unidirectional_bucket_monotone_witness :
  MHA._relative_position_bucket [[0; -1; -1; -2]] false 32 128 = Ok [[0; 1; 1; 2]]
  /\ 1 <= 2.
Proof.
  split; [reflexivity|].
  apply (unidirectional_bucket_monotone [[0; -1; -1; -2]] [[0; 1; 1; 2]] 32 128
           0 1 0 3 (-1) (-2)); try reflexivity; lia.
Defined.

(** X3.  In unidirectional mode, the one a decoder uses, every position
    that is not in the past (relative position zero or positive) lands in
    bucket 0: the keys ahead of a query are indistinguishable from the
    query's own position. *)
Theorem future_positions_share_bucket_zero (rp buckets : list (list Z))
    (num_buckets max_distance : Z) (i j : nat) (p : Z) :
  2 <= num_buckets ->
  MHA._relative_position_bucket rp false num_buckets max_distance = Ok buckets ->
  entry2 rp i j = Some p -> 0 <= p ->
  entry2 buckets i j = Some 0.
Proof.
  intros Hnb H Hp Hpos.
  rewrite (relative_position_bucket_entry _ _ _ _ _ _ _ _ H Hp). f_equal.
  unfold MHA.bucket_at. pose proof (half_bounds num_buckets Hnb).
  destruct (Z.ltb_spec (-1 * Z.min p 0) (num_buckets / 2)); lia.
Qed.

Lemma future_positions_share_bucket_zero_witness :
  entry2 [[0; 0; 0]; [1; 0; 0]] 0 2 = Some 0.
Proof.
  apply (future_positions_share_bucket_zero [[0; 1; 2]; [-1; 0; 1]] [[0; 0; 0]; [1; 0; 0]]
           32 128 0 2 2); try reflexivity; lia.
Defined.

(** X4.  In bidirectional mode, the one an encoder uses, on a
    configuration with at least four buckets and [max_distance] above
    [max_exact = num_buckets // 2 // 2], the bucket tells the side: a key
    after the query gets a bucket in the upper half [num_buckets // 2 ..],
    the key as far before the query a bucket below [num_buckets // 2]; and
    the bucket of a key [p] positions after the query is that of the key
    [p] positions before it, shifted by [num_buckets // 2]. *)
Theorem bidirectional_bucket_halves (rp buckets : list (list Z))
    (num_buckets max_distance : Z) (i j i' j' : nat) (p b b' : Z) :
  4 <= num_buckets -> num_buckets / 2 / 2 < max_distance ->
  MHA._relative_position_bucket rp true num_buckets max_distance = Ok buckets ->
  entry2 rp i j = Some p -> entry2 rp i' j' = Some (- p) -> 0 < p ->
  entry2 buckets i j = Some b -> entry2 buckets i' j' = Some b' ->
  0 <= b' < num_buckets / 2 /\ num_buckets / 2 <= b < 2 * (num_buckets / 2)
  /\ b = num_buckets / 2 + b'.
Proof.
  intros Hnb Hmd H Hp Hp' Hpos Hb Hb'.
  rewrite (relative_position_bucket_entry _ _ _ _ _ _ _ _ H Hp) in Hb.
  rewrite (relative_position_bucket_entry _ _ _ _ _ _ _ _ H Hp') in Hb'.
  injection Hb as <-. injection Hb' as <-. unfold MHA.bucket_at.
  assert (Hnb2 : 2 <= num_buckets / 2) by (apply Z.div_le_lower_bound; lia).
  pose proof (half_bounds (num_buckets / 2) Hnb2) as (Hme1 & Hme2 & Hme3).
  set (nb := num_buckets / 2) in *. set (me := nb / 2) in *.
  replace (Z.abs (- p)) with (Z.abs p) by lia.
  destruct (Z.ltb_spec 0 p) as [_|]; [|lia].
  destruct (Z.ltb_spec 0 (- p)) as [|_]; [lia|].
  destruct (Z.ltb_spec (Z.abs p) me) as [S|L].
  - lia.
  - pose proof (if_large_bounds (Z.abs p) me nb max_distance ltac:(lia) L Hmd ltac:(lia)).
    lia.
Qed.

Lemma bidirectional_bucket_halves_witness :
  0 <= 1 < 32 / 2 /\ 32 / 2 <= 17 < 2 * (32 / 2) /\ 17 = 32 / 2 + 1.
Proof.
  apply (bidirectional_bucket_halves [[0; 1]; [-1; 0]] [[0; 17]; [1; 0]] 32 128
           0 1 1 0 1); try reflexivity; lia.
Defined.



(** X6.  Near the query the buckets are exact: a position whose distance
    is below [max_exact], and which in unidirectional mode is at or before
    the query, gets its own distance as bucket, shifted to the upper half
    for a key after the query in bidirectional mode. *)
Theorem near_positions_exact (rp buckets : list (list Z)) (bidirectional : bool)
    (num_buckets max_distance : Z) (i j : nat) (p : Z) :
  let nb := if bidirectional then num_buckets / 2 else num_buckets in
  MHA._relative_position_bucket rp bidirectional num_buckets max_distance = Ok buckets ->
  entry2 rp i j = Some p ->
  Z.abs p < nb / 2 -> (bidirectional = false -> p <= 0) ->
  entry2 buckets i j = Some ((if bidirectional && (0 <? p) then nb else 0) + Z.abs p).
Proof.
  intros nb H Hp Hnear Hside.
  rewrite (relative_position_bucket_entry _ _ _ _ _ _ _ _ H Hp). f_equal.
  unfold MHA.bucket_at. fold nb. destruct bidirectional; cbn [andb].
  - destruct (Z.ltb_spec (Z.abs p) (nb / 2)); [|lia].
    destruct (Z.ltb_spec 0 p); lia.
  - specialize (Hside eq_refl).
    destruct (Z.ltb_spec (-1 * Z.min p 0) (nb / 2)); lia.
Qed.

Lemma near_positions_exact_witness :
  entry2 [[0; 17]; [1; 0]] 0 1 = Some (32 / 2 + Z.abs 1).
Proof.
  apply (near_positions_exact [[0; 1]; [-1; 0]] [[0; 17]; [1; 0]] true 32 128 0 1 1);
    try reflexivity; intros; discriminate.
Defined.

End BucketOrder.

(** ** [compute_bias] *)

Lemma mapM_Ok_map {A B : Type} (f : A -> result B) (g : A -> B) (l : list A) :
  Forall (fun a => f a = Ok (g a)) l -> mapM f l = Ok (map g l).
Proof.
  induction 1 as [|a l Ha _ IH]; simpl; [reflexivity | now rewrite Ha, IH].
Qed.

Lemma relative_position_entry (q k i j : nat) :
  (i < q)%nat -> (j < k)%nat ->
  entry2 (map (fun c => map (fun m => (m - c)%Z) (map Z.of_nat (seq 0 k)))
              (map Z.of_nat (seq 0 q))) i j
  = Some (Z.of_nat j - Z.of_nat i)%Z.
Proof.
  intros Hi Hj. unfold entry2.
  rewrite !nth_error_map, (nth_error_nth' _ 0%nat) by (rewrite length_seq; lia).
  rewrite seq_nth by lia. cbn [option_map].
  rewrite !nth_error_map, (nth_error_nth' _ 0%nat) by (rewrite length_seq; lia).
  rewrite seq_nth by lia. reflexivity.
Qed.

Lemma entry2_Some_bounds {A : Type} (f : nat -> nat -> A) (q k i j : nat) (x : A) :
  entry2 (map (fun c => map (fun m => f c m) (seq 0 k)) (seq 0 q)) i j = Some x ->
  (i < q)%nat /\ (j < k)%nat /\ x = f i j.
Proof.
  unfold entry2. rewrite nth_error_map.
  destruct (nth_error (seq 0 q) i) as [c|] eqn:Ec; [|discriminate]. cbn [option_map].
  rewrite nth_error_map.
  destruct (nth_error (seq 0 k) j) as [m|] eqn:Em; [|discriminate]. cbn [option_map].
  intros [= <-].
  assert (Hi : (i < length (seq 0 q))%nat) by (apply nth_error_Some; congruence).
  assert (Hj : (j < length (seq 0 k))%nat) by (apply nth_error_Some; congruence).
  rewrite length_seq in Hi, Hj.
  rewrite (nth_error_nth' _ 0%nat) in Ec by (rewrite length_seq; lia).
  rewrite (nth_error_nth' _ 0%nat) in Em by (rewrite length_seq; lia).
  rewrite seq_nth in Ec, Em by lia. injection Ec as <-. injection Em as <-.
  auto.
Qed.

(** What a successful [compute_bias] has looked up: the bucket of every
    pair of positions has a row in the table, and the entry of head [h]
    at these positions is element [h] of that row. *)
Lemma compute_bias_entries (self : MHA.t) (q k : nat) (bias : T4) :
  MHA.compute_bias self q k = Ok bias ->
  exists values : list (list Vec),
    bias = [map (fun h => map2 (fun v : Vec => nth h v 0) values)
                (seq 0 (MHA.num_heads self))]
    /\ length values = q
    /\ Forall (fun row => length row = k) values
    /\ forall i j, (i < q)%nat -> (j < k)%nat ->
         exists row, bias_row self i j = Some row /\ entry2 values i j = Some row.
Proof.
  unfold MHA.compute_bias. intros H. repeat step_ok H. injection H as <-.
  rename v into buckets, v0 into values. exists values.
  split; [reflexivity|].
  destruct (relative_position_bucket_Ok _ _ _ _ _ E) as (_ & _ & ->).
  unfold Embedding.forward in E0.
  split; [|split].
  - rewrite (mapM_length E0). unfold map2. now rewrite !length_map, length_seq.
  - apply (mapM_Forall (fun row => length row = k) _ E0).
    + unfold map2. rewrite !Forall_map. apply Forall_forall. intros c _.
      now rewrite !length_map, length_seq.
    + intros a b Ha Hb. now rewrite (mapM_length Hb).
  - intros i j Hi Hj.
    pose proof (relative_position_entry q k i j Hi Hj) as Hrp.
    match type of Hrp with
    | entry2 ?rp _ _ = _ =>
        pose proof (entry2_map2 (fun p => MHA.bucket_at p (negb (MHA.is_decoder self))
                                            (MHA.relative_attention_num_buckets self) 128)
                      rp i j) as Hb
    end.
    rewrite Hrp in Hb. cbn [option_map] in Hb. unfold entry2 in Hb |- *.
    match type of Hb with
    | match nth_error ?m i with _ => _ end = _ =>
        destruct (nth_error m i) as [brow|] eqn:Ebrow; [|discriminate]
    end.
    destruct (mapM_nth E0 Ebrow) as (vrow & -> & Hvrow).
    destruct (mapM_nth Hvrow Hb) as (v & -> & Hv).
    exists v. split; [|reflexivity]. unfold bias_row. revert Hv.
    destruct (Z.ltb _ 0); [discriminate|].
    destruct (nth_error (Embedding.weight _) _) as [w|] eqn:Ew; [|discriminate].
    intros [= Hwv]. congruence.
Qed.

Lemma entry4_of_bias (heads : nat) (values : list (list Vec)) (h i j : nat) (x : R) :
  entry4 [map (fun h => map2 (fun v : Vec => nth h v 0) values) (seq 0 heads)] 0 h i j
  = Some x ->
  (h < heads)%nat /\ exists row, entry2 values i j = Some row /\ x = nth h row 0.
Proof.
  unfold entry4, row4. cbn [nth_error]. rewrite nth_error_map.
  destruct (nth_error (seq 0 heads) h) as [h'|] eqn:Eh; [|discriminate].
  cbn [option_map].
  change (entry2 (map2 (fun v : Vec => nth h' v 0) values) i j = Some x ->
          (h < heads)%nat /\ exists row, entry2 values i j = Some row /\ x = nth h row 0).
  rewrite entry2_map2.
  assert (Hh : (h < length (seq 0 heads))%nat) by (apply nth_error_Some; congruence).
  rewrite length_seq in Hh.
  rewrite (nth_error_nth' _ 0%nat) in Eh by (rewrite length_seq; lia).
  rewrite seq_nth in Eh by lia. injection Eh as <-.
  destruct (entry2 values i j) as [row|]; [|discriminate]. cbn [option_map].
  intros [= <-]. eauto.
Qed.

Lemma bias_of_values_shape (heads q k : nat) (values : list (list Vec)) :
  length values = q -> Forall (fun row => length row = k) values ->
  t4_shape 1 heads q k
    [map (fun h => map2 (fun v : Vec => nth h v 0) values) (seq 0 heads)].
Proof.
  intros Hq Hk. split; [reflexivity|]. constructor; [|constructor].
  split; [now rewrite length_map, length_seq|].
  rewrite Forall_map. apply Forall_forall. intros h _.
  unfold map2. split; [now rewrite length_map|].
  rewrite Forall_map. eapply Forall_impl; [|exact Hk].
  intros row Hrow. unfold vec_shape. now rewrite length_map.
Qed.

Lemma compute_bias_returns (self : MHA.t) (query_length key_length : nat) :
  bias_table_fits self ->
  exists bias,
    MHA.compute_bias self query_length key_length = Ok bias
    /\ t4_shape 1 (MHA.num_heads self) query_length key_length bias.
Proof.
  intros (Hnb & Hmd & Htab). unfold MHA.compute_bias.
  assert (Hleast : ((if negb (MHA.is_decoder self) then 4 else 2)
                    <= MHA.relative_attention_num_buckets self)%Z)
    by (destruct (MHA.is_decoder self); exact Hnb).
  rewrite (valid_buckets_return _ _ _ _ Hleast Hmd). cbn [bind].
  unfold Embedding.forward.
  set (tbl := Embedding.weight (MHA.relative_attention_bias self)) in *.
  set (lookup := fun b : Z => nth (Z.to_nat b) tbl []).
  rewrite (mapM_Ok_map _ (map lookup)).
  - cbn [bind]. eexists. split; [reflexivity|].
    apply bias_of_values_shape.
    + unfold map2. now rewrite !length_map, length_seq.
    + unfold map2. rewrite !Forall_map. apply Forall_forall. intros c _.
      now rewrite !length_map, length_seq.
  - unfold map2. rewrite Forall_map. apply Forall_forall. intros row _.
    apply mapM_Ok_map. rewrite Forall_map. apply Forall_forall. intros p _.
    pose proof (bucket_at_bounds p (negb (MHA.is_decoder self))
                  (MHA.relative_attention_num_buckets self) 128) as B.
    destruct B as [B0 B1]; [destruct (MHA.is_decoder self); lia | | exact Hmd |].
    { intros Hb. rewrite Hb in Hleast. exact Hleast. }
    destruct (Z.ltb_spec (MHA.bucket_at p (negb (MHA.is_decoder self))
                            (MHA.relative_attention_num_buckets self) 128) 0) as [N|_];
      [lia|].
    destruct (nth_error tbl _) as [v|] eqn:Ev.
    + unfold lookup. f_equal. symmetry. now apply nth_error_nth.
    + apply nth_error_None in Ev. lia.
Qed.

Lemma entry4_in_bias (heads : nat) (values : list (list Vec)) (h i j : nat) (row : Vec) :
  (h < heads)%nat -> entry2 values i j = Some row ->
  entry4 [map (fun h => map2 (fun v : Vec => nth h v 0) values) (seq 0 heads)] 0 h i j
  = Some (nth h row 0).
Proof.
  intros Hh Hrow. unfold entry4, row4. cbn [nth_error]. rewrite nth_error_map.
  rewrite (nth_error_nth' _ 0%nat) by (rewrite length_seq; lia).
  rewrite seq_nth by lia. cbn [option_map Nat.add].
  change (entry2 (map2 (fun v : Vec => nth h v 0) values) i j = Some (nth h row 0)).
  now rewrite entry2_map2, Hrow.
Qed.

(** X7.  Shape of the bias: when the bucket count suits the direction of
    the layer and the table has a row for every bucket, [compute_bias]
    returns; what it returns has shape
    (1, num_heads, query_length, key_length), and each of its entries is
    there: element [h] of the table row of the bucket of the two
    positions. *)
Theorem compute_bias_shape (self : MHA.t) (query_length key_length : nat) :
  bias_table_fits self ->
  exists bias,
    MHA.compute_bias self query_length key_length = Ok bias
    /\ t4_shape 1 (MHA.num_heads self) query_length key_length bias
    /\ forall h i j,
         (h < MHA.num_heads self)%nat -> (i < query_length)%nat -> (j < key_length)%nat ->
         exists row,
           bias_row self i j = Some row /\ entry4 bias 0 h i j = Some (nth h row 0).
Proof.
  intros Hfit.
  destruct (compute_bias_returns self query_length key_length Hfit) as (bias & E & Hs).
  exists bias. split; [exact E|]. split; [exact Hs|].
  intros h i j Hh Hi Hj.
  destruct (compute_bias_entries _ _ _ _ E) as (values & -> & _ & _ & Hrow).
  destruct (Hrow i j Hi Hj) as (row & Hb & Ev).
  exists row. split; [exact Hb|]. now apply entry4_in_bias.
Qed.

Lemma compute_bias_shape_witness :
  exists bias,
    MHA.compute_bias (Fixtures.biased_layer 2 2) 3 5 = Ok bias
    /\ t4_shape 1 2 3 5 bias
    /\ forall h i j,
         (h < 2)%nat -> (i < 3)%nat -> (j < 5)%nat ->
         exists row,
           bias_row (Fixtures.biased_layer 2 2) i j = Some row
           /\ entry4 bias 0 h i j = Some (nth h row 0).
Proof.
  apply (compute_bias_shape (Fixtures.biased_layer 2 2) 3 5).
  split; [|split]; [cbv; discriminate | reflexivity | vm_compute; lia].
Defined.

Lemma entry2_bounds {A : Type} (m : list (list A)) (q k i j : nat) (x : A) :
  length m = q -> Forall (fun row => length row = k) m -> entry2 m i j = Some x ->
  (i < q)%nat /\ (j < k)%nat.
Proof.
  intros Hq Hk. unfold entry2.
  destruct (nth_error m i) as [row|] eqn:Erow; [|discriminate]. intros Hx.
  split.
  - rewrite <- Hq. apply nth_error_Some. congruence.
  - rewrite Forall_forall in Hk. rewrite <- (Hk row (nth_error_In _ _ Erow)).
    apply nth_error_Some. congruence.
Qed.



(** X9.  A decoder's bias is blind to the future: in a bias returned by
    the unidirectional mode, every entry of a head on or above the
    diagonal (key position at or after the query position) is the head's
    entry in row 0 of the table. *)
Theorem decoder_bias_constant_on_future (self : MHA.t) (query_length key_length : nat)
    (bias : T4) (h i j : nat) (x : R) :
  MHA.is_decoder self = true ->
  (2 <= MHA.relative_attention_num_buckets self)%Z ->
  MHA.compute_bias self query_length key_length = Ok bias ->
  entry4 bias 0 h i j = Some x -> (i <= j)%nat ->
  exists row,
    nth_error (Embedding.weight (MHA.relative_attention_bias self)) 0 = Some row
    /\ x = nth h row 0.
Proof.
  intros Hdec Hnb H Hx Hij.
  destruct (compute_bias_entries _ _ _ _ H) as (values & -> & Hq & Hk & Hrow).
  destruct (entry4_of_bias _ _ _ _ _ _ Hx) as (Hh & row & Erow & ->).
  destruct (entry2_bounds _ _ _ _ _ _ Hq Hk Erow) as [Hi Hj].
  destruct (Hrow i j Hi Hj) as (row' & Hb & Erow').
  assert (row' = row) by congruence. subst row'.
  exists row. split; [|reflexivity].
  unfold bias_row in Hb. rewrite Hdec in Hb. cbn [negb] in Hb.
  replace (MHA.bucket_at (Z.of_nat j - Z.of_nat i) false
             (MHA.relative_attention_num_buckets self) 128) with 0%Z in Hb; [exact Hb|].
  unfold MHA.bucket_at.
  pose proof (half_bounds _ Hnb).
  destruct (Z.ltb_spec (-1 * Z.min (Z.of_nat j - Z.of_nat i) 0)
              (MHA.relative_attention_num_buckets self / 2)); lia.
Qed.

Lemma decoder_bias_constant_on_future_witness :
  exists row,
    nth_error (Embedding.weight (MHA.relative_attention_bias (Fixtures.biased_layer 1 1))) 0
    = Some row
    /\ INR 0 = nth 0 row 0.
Proof.
  apply (decoder_bias_constant_on_future (Fixtures.biased_layer 1 1) 3 3
           [[[[INR 0; INR 0; INR 0]; [INR 1; INR 0; INR 0]; [INR 2; INR 1; INR 0]]]]
           0 1 2 (INR 0)); try reflexivity; simpl; lia.
Defined.

(** ** The constructors *)

Ltac init_case :=
  repeat match goal with
         | |- context [MHA.p_raises ?p ?c] =>
             let E := fresh "E" in
             destruct (MHA.p_raises p c) eqn:E; cbn [bind]
         end.

Ltac init_returns :=
  split;
  [ split;
    [ first [ intros [? ?]; discriminate
            | intros _; repeat (split; [solve [auto | discriminate]|]);
              repeat constructor; assumption ]
    | intros (_ & _ & _ & _ & _ & ?);
      repeat match goal with
             | H : Forall _ (_ :: _) |- _ => inversion H; clear H; subst
             end;
      first [ congruence | eauto ] ]
  | intros ex Hex;
    first [ discriminate
          | injection Hex as <-; right; eexists; split; [|eassumption]; simpl; auto 10 ] ].

(** X10.  How [MultiheadAttention.__init__] fails and when it returns.
    Its own arithmetic fails in the order of the source: a head count of
    zero raises ZeroDivisionError at the remainder of the assert; a
    non-zero head count that does not divide [hidden_size] raises
    AssertionError; once the first [nn.Dropout] is built, a quotient
    [hidden_size // num_attention_heads] below zero raises ValueError at
    [math.sqrt] and a quotient of zero raises ZeroDivisionError.  The call
    returns if and only if the head count is non-zero and divides
    [hidden_size] with a positive quotient that converts to a float, under
    [apply_query_key_layer_scaling] [layer_idx] is not -1 and
    [layer_idx + 1] converts to a float, and none of the outside
    constructors it calls ([nn.Dropout], [Linear], [Embedding]) raises.
    Every exception is AssertionError, ZeroDivisionError, the ValueError of
    [math.sqrt], OverflowError, or the exception of one of those
    constructors. *)
Theorem init_failures (hidden_size num_attention_heads num_buckets : Z) (is_cross : bool)
    (attention_dropout_prob output_dropout_prob : R)
    (bias_dropout_fusion scale_mask_softmax_fusion scaling : bool)
    (layer_idx : Z) (has_bias is_decoder : bool) (p : MHA.params) :
  let call := MHA.init hidden_size num_attention_heads num_buckets is_cross
                attention_dropout_prob output_dropout_prob
                bias_dropout_fusion scale_mask_softmax_fusion scaling layer_idx
                has_bias is_decoder p in
  let head_size := (hidden_size / num_attention_heads)%Z in
  let calls := MHA.init_calls hidden_size num_attention_heads num_buckets is_cross
                 attention_dropout_prob output_dropout_prob bias_dropout_fusion has_bias in
  (num_attention_heads = 0%Z -> call = Raise ZeroDivisionError)
  /\ (num_attention_heads <> 0%Z -> (hidden_size mod num_attention_heads)%Z <> 0%Z ->
      call = Raise AssertionError)
  /\ (num_attention_heads <> 0%Z -> (hidden_size mod num_attention_heads)%Z = 0%Z ->
      MHA.p_raises p (MHA.Dropout_call attention_dropout_prob) = None ->
      MHA.float_overflows head_size = false ->
      ((head_size < 0)%Z -> call = Raise (ValueError "math domain error"))
      /\ (head_size = 0%Z -> call = Raise ZeroDivisionError))
  /\ ((exists layer, call = Ok layer)
      <-> num_attention_heads <> 0%Z /\ (hidden_size mod num_attention_heads)%Z = 0%Z
          /\ (0 < head_size)%Z /\ MHA.float_overflows head_size = false
          /\ (scaling = true ->
              layer_idx <> (-1)%Z /\ MHA.float_overflows (layer_idx + 1) = false)
          /\ Forall (fun c => MHA.p_raises p c = None) calls)
  /\ (forall e, call = Raise e ->
        In e [AssertionError; ZeroDivisionError; ValueError "math domain error";
              OverflowError]
        \/ exists c, In c calls /\ MHA.p_raises p c = Some e).
Proof.
  intros call head_size calls. subst call head_size calls.
  unfold MHA.init, MHA.init_calls, MHA.construct.
  destruct (Z.eqb_spec num_attention_heads 0) as [Hz|Hz]; cbn [bind].
  { split; [reflexivity|]. split; [contradiction|]. split; [contradiction|]. split.
    - split; [intros [l Hl]; discriminate | intros (H & _); contradiction].
    - intros e [= <-]. left. simpl. auto. }
  split; [contradiction|].
  destruct (Z.eqb_spec (hidden_size mod num_attention_heads) 0) as [Hm|Hm]; cbn [bind].
  2:{ split; [reflexivity|]. split; [contradiction|]. split.
      - split; [intros [l Hl]; discriminate | intros (_ & H & _); contradiction].
      - intros e [= <-]. left. simpl. auto. }
  split; [contradiction|].
  destruct (MHA.p_raises p (MHA.Dropout_call attention_dropout_prob)) as [e1|] eqn:E1;
    cbn [bind].
  { split; [discriminate|]. split.
    - split; [intros [l Hl]; discriminate|].
      intros (_ & _ & _ & _ & _ & H). inversion H; congruence.
    - intros e [= <-]. right. eexists. split; [|exact E1]. simpl. auto. }
  destruct (MHA.float_overflows (hidden_size / num_attention_heads)) eqn:Ef; cbn [bind].
  { split; [discriminate|]. split.
    - split; [intros [l Hl]; discriminate | intros (_ & _ & _ & H & _); discriminate].
    - intros e [= <-]. left. simpl. auto. }
  destruct (Z.ltb_spec (hidden_size / num_attention_heads) 0) as [Hn|Hn]; cbn [bind].
  { split; [intros _ _ _ _; split; [reflexivity | lia]|]. split.
    - split; [intros [l Hl]; discriminate | intros (_ & _ & H & _); lia].
    - intros e [= <-]. left. simpl. auto. }
  destruct (Z.eqb_spec (hidden_size / num_attention_heads) 0) as [Hh|Hh]; cbn [bind].
  { split; [intros _ _ _ _; split; [lia | reflexivity]|]. split.
    - split; [intros [l Hl]; discriminate | intros (_ & _ & H & _); lia].
    - intros e [= <-]. left. simpl. auto. }
  split; [intros _ _ _ _; split; intros; lia|].
  assert (Hpos : (0 < hidden_size / num_attention_heads)%Z) by lia.
  destruct scaling; cbn [bind].
  - destruct (MHA.float_overflows (layer_idx + 1)) eqn:Ec; cbn [bind].
    { split.
      - split; [intros [l Hl]; discriminate|].
        intros (_ & _ & _ & _ & H & _). destruct (H eq_refl); discriminate.
      - intros e [= <-]. left. simpl. auto. }
    destruct (Z.eqb_spec (layer_idx + 1) 0) as [Hc|Hc]; cbn [bind].
    { split.
      - split; [intros [l Hl]; discriminate|].
        intros (_ & _ & _ & _ & H & _). destruct (H eq_refl); lia.
      - intros e [= <-]. left. simpl. auto. }
    assert (Hl : layer_idx <> (-1)%Z) by lia.
    destruct bias_dropout_fusion, is_cross, has_bias; cbn [app bind]; init_case.
    all: init_returns.
  - destruct bias_dropout_fusion, is_cross, has_bias; cbn [app bind]; init_case.
    all: init_returns.
Qed.

Lemma init_failures_witness :
  MHA.init 4 0 32 false 0 0 false false false 0 false false (Fixtures.plain_params 4)
  = Raise ZeroDivisionError
  /\ MHA.init 5 2 32 false 0 0 false false false 0 false false (Fixtures.plain_params 5)
     = Raise AssertionError
  /\ MHA.init (-4) 2 32 false 0 0 false false false 0 false false (Fixtures.plain_params 4)
     = Raise (ValueError "math domain error")
  /\ MHA.init 0 2 32 false 0 0 false false false 0 false false (Fixtures.plain_params 0)
     = Raise ZeroDivisionError
  /\ exists layer,
       MHA.init 4 2 32 false 0 0 false false true 0 false false (Fixtures.plain_params 4)
       = Ok layer.
Proof.
  split; [|split; [|split; [|split]]].
  - destruct (init_failures 4 0 32 false 0 0 false false false 0 false false
                (Fixtures.plain_params 4)) as (H & _).
    apply H. reflexivity.
  - destruct (init_failures 5 2 32 false 0 0 false false false 0 false false
                (Fixtures.plain_params 5)) as (_ & H & _).
    apply H; discriminate.
  - destruct (init_failures (-4) 2 32 false 0 0 false false false 0 false false
                (Fixtures.plain_params 4)) as (_ & _ & H & _).
    apply H; try reflexivity; discriminate.
  - destruct (init_failures 0 2 32 false 0 0 false false false 0 false false
                (Fixtures.plain_params 0)) as (_ & _ & H & _).
    apply H; try reflexivity; discriminate.
  - destruct (init_failures 4 2 32 false 0 0 false false true 0 false false
                (Fixtures.plain_params 4)) as (_ & _ & _ & H & _).
    apply H.
    split; [discriminate|]. split; [reflexivity|]. split; [reflexivity|].
    split; [reflexivity|]. split; [intros _; split; [discriminate | reflexivity]|].
    repeat constructor.
Defined.

Lemma init_Ok_fields (hidden_size num_attention_heads num_buckets : Z) (is_cross : bool)
    (attention_dropout_prob output_dropout_prob : R)
    (bias_dropout_fusion scale_mask_softmax_fusion scaling : bool)
    (layer_idx : Z) (has_bias is_decoder : bool) (p : MHA.params) (layer : MHA.t) :
  MHA.init hidden_size num_attention_heads num_buckets is_cross attention_dropout_prob
    output_dropout_prob bias_dropout_fusion scale_mask_softmax_fusion scaling layer_idx
    has_bias is_decoder p = Ok layer ->
  MHA.hidden_size layer = Z.to_nat hidden_size
  /\ MHA.num_heads layer = Z.to_nat num_attention_heads
  /\ MHA.head_size layer = Z.to_nat (hidden_size / num_attention_heads)
  /\ (hidden_size mod num_attention_heads)%Z = 0%Z
  /\ num_attention_heads <> 0%Z /\ (0 < hidden_size / num_attention_heads)%Z
  /\ MHA.coeff layer = (if scaling then Some (layer_idx + 1)%Z else None)
  /\ (scaling = true -> (layer_idx + 1)%Z <> 0%Z)
  /\ MHA.is_cross_attention layer = is_cross
  /\ MHA.dropout layer = MHA.p_dropout p
  /\ Linear.weight (MHA.query layer) = MHA.p_query p
  /\ Linear.weight (MHA.key_value layer) = MHA.p_key_value p
  /\ Linear.weight (MHA.query_key_value layer) = MHA.p_query_key_value p
  /\ Linear.weight (MHA.dense layer) = MHA.p_dense p.
Proof.
  unfold MHA.init, MHA.construct.
  destruct (Z.eqb_spec num_attention_heads 0) as [Hz|Hz]; cbn [bind]; [discriminate|].
  destruct (Z.eqb_spec (hidden_size mod num_attention_heads) 0) as [Hm|Hm]; cbn [bind];
    [|discriminate].
  destruct (MHA.p_raises p (MHA.Dropout_call attention_dropout_prob)); cbn [bind];
    [discriminate|].
  destruct (MHA.float_overflows (hidden_size / num_attention_heads)); cbn [bind];
    [discriminate|].
  destruct (Z.ltb_spec (hidden_size / num_attention_heads) 0) as [Hn|Hn]; cbn [bind];
    [discriminate|].
  destruct (Z.eqb_spec (hidden_size / num_attention_heads) 0) as [Hh|Hh]; cbn [bind];
    [discriminate|].
  destruct scaling; cbn [bind].
  - destruct (MHA.float_overflows (layer_idx + 1)); cbn [bind]; [discriminate|].
    destruct (Z.eqb_spec (layer_idx + 1) 0) as [Hc|Hc]; cbn [bind]; [discriminate|].
    destruct bias_dropout_fusion, is_cross, has_bias; cbn [bind]; init_case;
      try discriminate; intros [= <-]; cbn; repeat split; auto; lia.
  - destruct bias_dropout_fusion, is_cross, has_bias; cbn [bind]; init_case;
      try discriminate; intros [= <-]; cbn; repeat split; auto; try lia; discriminate.
Qed.

(** X11.  What the constructor establishes.  For a head count that is not
    negative, a layer it returns stores the sizes it was given, splits the
    hidden size evenly over at least one head of at least one feature,
    [hidden_size = num_heads * head_size]; its [coeff] is [layer_idx + 1]
    under [apply_query_key_layer_scaling] and None otherwise, never zero;
    and when the drawn weights have the sizes the constructor asks for and
    the dropout keeps shapes, the layer is well formed. *)
Theorem init_establishes_invariants (hidden_size num_attention_heads num_buckets : Z)
    (is_cross : bool) (attention_dropout_prob output_dropout_prob : R)
    (bias_dropout_fusion scale_mask_softmax_fusion scaling : bool)
    (layer_idx : Z) (has_bias is_decoder : bool) (p : MHA.params) (layer : MHA.t) :
  (0 <= num_attention_heads)%Z ->
  MHA.init hidden_size num_attention_heads num_buckets is_cross attention_dropout_prob
    output_dropout_prob bias_dropout_fusion scale_mask_softmax_fusion scaling layer_idx
    has_bias is_decoder p = Ok layer ->
  Z.of_nat (MHA.hidden_size layer) = hidden_size
  /\ Z.of_nat (MHA.num_heads layer) = num_attention_heads
  /\ MHA.hidden_size layer = (MHA.num_heads layer * MHA.head_size layer)%nat
  /\ (0 < MHA.num_heads layer)%nat /\ (0 < MHA.head_size layer)%nat
  /\ MHA.coeff layer <> Some 0%Z
  /\ (MHA.coeff layer = None <-> scaling = false)
  /\ (mat_shape (MHA.hidden_size layer) (MHA.hidden_size layer) (MHA.p_query p) ->
      mat_shape (2 * MHA.hidden_size layer) (MHA.hidden_size layer) (MHA.p_key_value p) ->
      mat_shape (3 * MHA.hidden_size layer) (MHA.hidden_size layer)
        (MHA.p_query_key_value p) ->
      mat_shape (MHA.hidden_size layer) (MHA.hidden_size layer) (MHA.p_dense p) ->
      (forall b h r c x, t4_shape b h r c x -> t4_shape b h r c (MHA.p_dropout p x)) ->
      well_formed layer).
Proof.
  intros Hheads H.
  destruct (init_Ok_fields _ _ _ _ _ _ _ _ _ _ _ _ _ _ H)
    as (Eh & En & Es & Hm & Hn & Hs & Ec & Hc & _ & Ed & Eq & Ekv & Eqkv & Edn).
  assert (Hdiv : hidden_size
                 = (num_attention_heads * (hidden_size / num_attention_heads))%Z).
  { pose proof (Z_div_mod_eq_full hidden_size num_attention_heads). lia. }
  assert (Hsplit : MHA.hidden_size layer = (MHA.num_heads layer * MHA.head_size layer)%nat).
  { rewrite Eh, En, Es. rewrite Hdiv at 1. apply Z2Nat.inj_mul; lia. }
  split; [rewrite Eh; nia|]. split; [rewrite En; lia|].
  split; [exact Hsplit|]. split; [lia|]. split; [lia|].
  split; [rewrite Ec; destruct scaling; [specialize (Hc eq_refl); congruence | discriminate]|].
  split.
  - rewrite Ec. destruct scaling; split; congruence.
  - intros Wq Wkv Wqkv Wd Hdrop. unfold well_formed.
    rewrite Eq, Ekv, Eqkv, Edn, Ed. auto 10.
Qed.

Lemma init_establishes_invariants_witness :
  Z.of_nat (MHA.hidden_size (Fixtures.layer 4 2 false)) = 4%Z
  /\ Z.of_nat (MHA.num_heads (Fixtures.layer 4 2 false)) = 2%Z
  /\ MHA.hidden_size (Fixtures.layer 4 2 false)
     = (MHA.num_heads (Fixtures.layer 4 2 false)
        * MHA.head_size (Fixtures.layer 4 2 false))%nat
  /\ (0 < MHA.num_heads (Fixtures.layer 4 2 false))%nat
  /\ (0 < MHA.head_size (Fixtures.layer 4 2 false))%nat.
Proof.
  assert (H02 : (0 <= 2)%Z) by lia.
  destruct (init_establishes_invariants 4 2 32 false 0 0 false false false 0 false false
              (Fixtures.plain_params 4) (Fixtures.layer 4 2 false) H02 eq_refl)
    as (H0 & H0' & H1 & H2 & H3 & _).
  auto.
Defined.

(** X12.  [TransformerLayer.build_attention] never returns an attention
    layer: it passes [head_size=], which is no parameter of
    [MultiheadAttention.__init__], so the call raises TypeError before the
    constructor runs, whatever the arguments.  The same keywords without
    [head_size] bind. *)
Theorem build_attention_never_returns (self : TransformerLayer.attributes)
    (is_cross_attention : bool) (relative_attention_num_buckets : Z)
    (has_relative_attention_bias is_decoder : bool) (p : MHA.params) :
  TransformerLayer.build_attention self is_cross_attention relative_attention_num_buckets
    has_relative_attention_bias is_decoder p = Raise TypeError
  /\ Call.mem "head_size"
       (Call.positional MHA.init_signature ++ Call.keyword_only MHA.init_signature) = false
  /\ Call.bind_arguments MHA.init_signature 2
       (tl TransformerLayer.build_attention_keywords) = Ok tt.
Proof. repeat split. Qed.

(** ** [LayerNorm.forward] *)

Lemma broadcast_mul_shape (n m : nat) (w h : Vec) :
  length w = n -> length h = m -> compat n m ->
  exists y, broadcast_mul w h = Ok y /\ length y = bres n m.
Proof.
  intros Hw Hh Hc. unfold broadcast_mul, bres.
  destruct (Nat.eqb_spec (length w) (length h)) as [E|E].
  - eexists. split; [reflexivity|]. rewrite length_map, length_combine.
    destruct (Nat.eqb n 1); lia.
  - destruct Hc as [Hc|[Hc|Hc]]; [lia| |].
    + subst n. rewrite Hc. cbn [Nat.eqb]. destruct w as [|x [|x' w]]; try discriminate.
      eexists. split; [reflexivity|]. now rewrite length_map.
    + subst m. rewrite Hc in *. destruct h as [|y [|y' h]]; try discriminate.
      destruct (Nat.eqb_spec n 1) as [N|N]; [lia|].
      destruct w as [|x [|x' w]];
        eexists; (split; [reflexivity|]); now rewrite length_map.
Qed.

Lemma broadcast_mul_mismatch (w h : Vec) :
  ~ compat (length w) (length h) -> broadcast_mul w h = Raise RuntimeError.
Proof.
  intros Hc. unfold broadcast_mul, compat in *.
  destruct (Nat.eqb_spec (length w) (length h)) as [E|E]; [tauto|].
  destruct w as [|x [|x' w]], h as [|y [|y' h]]; simpl in *; try reflexivity; tauto.
Qed.

Lemma forward_row_shape (self : LayerNorm.t) (n m : nat) (row : Vec) :
  length (LayerNorm.weight self) = n -> length row = m -> compat n m ->
  exists y, LayerNorm.forward_row self row = Ok y /\ vec_shape (bres n m) y.
Proof.
  intros Hw Hr Hc. unfold LayerNorm.forward_row, to_dtype, vec_shape.
  apply broadcast_mul_shape; [exact Hw | | exact Hc].
  destruct (LayerNorm.weight_dtype self); now rewrite length_map.
Qed.

(** The norm keeps the shape of a hidden state whose last dimension is
    that of the weight. *)
Lemma LayerNorm_forward_shape (self : LayerNorm.t) (b r n : nat) (x : T3) :
  length (LayerNorm.weight self) = n -> t3_shape b r n x ->
  exists y, LayerNorm.forward self x = Ok y /\ t3_shape b r n y.
Proof.
  intros Hw Hx. unfold LayerNorm.forward.
  apply (shaped_mapM _ b _ _ _ Hx). intros m Hm.
  apply (shaped_mapM _ r _ _ _ Hm). intros row Hrow.
  destruct (forward_row_shape self n n row Hw Hrow) as (y & Ey & Hy); [now left|].
  exists y. split; [exact Ey|]. unfold bres in Hy.
  destruct (Nat.eqb n 1); exact Hy.
Qed.

(** X13.  [LayerNorm.forward] on a hidden state of shape (b, r, m) and a
    weight of [n] features: it returns exactly when [m] and [n] broadcast
    against each other (equal, or one of them 1), with a result of shape
    (b, r, m) when [n] is 1 and (b, r, n) otherwise; on a non-empty state
    whose last dimension does not broadcast it raises RuntimeError. *)
Theorem layer_norm_shape_behaviour (self : LayerNorm.t) (b r m : nat) (x : T3) :
  t3_shape b r m x ->
  let n := length (LayerNorm.weight self) in
  (compat n m ->
   exists y, LayerNorm.forward self x = Ok y /\ t3_shape b r (bres n m) y)
  /\ (~ compat n m -> (0 < b)%nat -> (0 < r)%nat ->
      LayerNorm.forward self x = Raise RuntimeError).
Proof.
  intros Hx n. split.
  - intros Hc. unfold LayerNorm.forward.
    apply (shaped_mapM _ b _ _ _ Hx). intros mt Hm.
    apply (shaped_mapM _ r _ _ _ Hm). intros row Hrow.
    now apply (forward_row_shape self n m row).
  - intros Hc Hb Hr. unfold LayerNorm.forward.
    destruct Hx as [Hlen HF]. destruct x as [|mt x]; [simpl in Hlen; lia|].
    inversion HF as [|? ? [Hml HmF] _]. subst.
    destruct mt as [|row mt]; [simpl in Hr; lia|].
    inversion HmF as [|? ? Hrow _]. subst.
    cbn [mapM]. unfold LayerNorm.forward_row at 1, to_dtype.
    rewrite broadcast_mul_mismatch; [reflexivity|].
    unfold vec_shape in Hrow.
    destruct (LayerNorm.weight_dtype self); now rewrite length_map, Hrow.
Qed.

Lemma layer_norm_shape_behaviour_witness :
  exists y,
    LayerNorm.forward (LayerNorm.init 2 1e-6) [[[3; 4]; [0; 1]]] = Ok y
    /\ t3_shape 1 2 (bres 2 2) y.
Proof.
  apply (layer_norm_shape_behaviour (LayerNorm.init 2 1e-6) 1 2 2 [[[3; 4]; [0; 1]]]).
  - repeat constructor.
  - now left.
Defined.

Lemma combine_repeat_mul (c : R) (n : nat) (l : Vec) :
  length l = n ->
  map (fun p => fst p * snd p) (combine (repeat c n) l) = map (Rmult c) l.
Proof.
  revert n. induction l as [|a l IH]; intros [|n] H; simpl in *; try discriminate;
    [reflexivity|].
  f_equal. apply IH. lia.
Qed.

Lemma rsum_sq_nonneg (v : Vec) : 0 <= rsum (map (fun x => x ^ 2) v).
Proof.
  induction v as [|a v IH]; simpl; [lra|]. pose proof (pow2_ge_0 a). simpl in *. lra.
Qed.

Lemma mean_square_nonneg (v : Vec) : 0 <= mean_square v.
Proof.
  unfold mean_square, mean. rewrite length_map.
  destruct v as [|a v].
  - simpl. unfold Rdiv. rewrite Rinv_0. lra.
  - apply Rmult_le_pos; [apply rsum_sq_nonneg|].
    left. apply Rinv_0_lt_compat. apply lt_0_INR. simpl. lia.
Qed.

(** One slice through a freshly initialised norm. *)
Lemma init_forward_row (n : nat) (eps : R) (row : Vec) :
  length row = n ->
  LayerNorm.forward_row (LayerNorm.init n eps) row
  = Ok (map (Rmult (rsqrt (mean_square row + eps))) row).
Proof.
  intros Hn. unfold LayerNorm.forward_row, LayerNorm.init, to_dtype, broadcast_mul.
  cbn [LayerNorm.weight LayerNorm.weight_dtype LayerNorm.variance_epsilon].
  rewrite repeat_length, length_map, Hn, Nat.eqb_refl.
  rewrite combine_repeat_mul by (now rewrite length_map).
  f_equal. rewrite map_map. apply map_ext. intros a. unfold mean_square. ring.
Qed.

Lemma mean_square_normalised (eps : R) (row : Vec) :
  0 < eps ->
  mean_square (map (Rmult (rsqrt (mean_square row + eps))) row)
  = mean_square row / (mean_square row + eps).
Proof.
  intros He. pose proof (mean_square_nonneg row) as Hv.
  unfold mean_square at 1. rewrite mean_sq_scale. fold (mean_square row).
  unfold rsqrt.
  assert (Hs : sqrt (mean_square row + eps) * sqrt (mean_square row + eps)
               = mean_square row + eps) by (apply sqrt_sqrt; lra).
  assert (Hpos : 0 < sqrt (mean_square row + eps)) by (apply sqrt_lt_R0; lra).
  rewrite <- Hs at 3. field. lra.
Qed.

(** X14.  In exact real arithmetic, which the float32 code approximates,
    a freshly initialised norm (weight of ones) with a positive epsilon
    maps every slice of a hidden state with [n] features to one whose mean
    square is [v / (v + eps)], where [v] is the mean square of the input
    slice: never negative and below 1.  Rounding can move the computed
    value to 1 or above. *)
Theorem fresh_norm_mean_square (n b r : nat) (eps : R) (x : T3) :
  0 < eps -> t3_shape b r n x ->
  exists y,
    LayerNorm.forward (LayerNorm.init n eps) x = Ok y
    /\ forall ib i row,
         row3 x ib i = Some row ->
         exists out,
           row3 y ib i = Some out
           /\ mean_square out = mean_square row / (mean_square row + eps)
           /\ 0 <= mean_square out < 1.
Proof.
  intros He Hx.
  destruct (LayerNorm_forward_shape (LayerNorm.init n eps) b r n x) as (y & Ey & _);
    [apply repeat_length | exact Hx |].
  exists y. split; [exact Ey|].
  intros ib i row Hrow. unfold row3 in *.
  destruct (nth_error x ib) as [m|] eqn:Em; [|discriminate].
  unfold LayerNorm.forward in Ey.
  destruct (mapM_nth Ey Em) as (m' & -> & Em').
  destruct (mapM_nth Em' Hrow) as (out & -> & Eout).
  exists out. split; [reflexivity|].
  assert (Hlen : length row = n).
  { destruct Hx as [_ HF]. rewrite Forall_forall in HF.
    destruct (HF m (nth_error_In _ _ Em)) as [_ HmF]. rewrite Forall_forall in HmF.
    exact (HmF row (nth_error_In _ _ Hrow)). }
  rewrite (init_forward_row n eps row Hlen) in Eout. injection Eout as <-.
  rewrite (mean_square_normalised eps row He).
  pose proof (mean_square_nonneg row) as Hv.
  split; [reflexivity|]. split.
  - apply Rmult_le_pos; [exact Hv|]. left. apply Rinv_0_lt_compat. lra.
  - apply Rmult_lt_reg_r with (mean_square row + eps); [lra|].
    unfold Rdiv. rewrite Rmult_assoc, Rinv_l by lra. lra.
Qed.

Lemma fresh_norm_mean_square_witness :
  exists y,
    LayerNorm.forward (LayerNorm.init 2 1e-6) [[[3; 4]]] = Ok y
    /\ forall ib i row,
         row3 [[[3; 4]]] ib i = Some row ->
         exists out,
           row3 y ib i = Some out
           /\ mean_square out = mean_square row / (mean_square row + 1e-6)
           /\ 0 <= mean_square out < 1.
Proof.
  apply (fresh_norm_mean_square 2 1 1 1e-6 [[[3; 4]]]); [lra | repeat constructor].
Defined.

(** ** [MultiheadAttention.forward]: the softmax stage *)

(** The stages of a successful call from the biased scores to the
    attention weights. *)
Lemma forward_trace_softmax_stage (self : MHA.t) hs enc mask pkv uc pb ql tr :
  MHA.forward_trace self hs enc mask pkv uc pb ql = Ok tr ->
  exists weights,
    MHA.t_attention_weights tr = MHA.dropout self weights
    /\ match mask with
       | Some m =>
           if MHA.scale_mask_softmax_fusion self
           then fused_scale_mask_softmax (MHA.t_biased_scores tr) m (-10000) = Ok weights
                /\ MHA.t_attention_scores tr = MHA.t_biased_scores tr
           else (exists kept,
                    broadcast4 Rmult (MHA.apply_coeff self (MHA.t_biased_scores tr)) m
                    = Ok kept
                    /\ broadcast4 Rminus kept (score_penalty m)
                       = Ok (MHA.t_attention_scores tr))
                /\ weights = softmax (MHA.t_attention_scores tr)
       | None =>
           MHA.t_attention_scores tr = MHA.t_biased_scores tr
           /\ weights = softmax (MHA.t_biased_scores tr)
       end.
Proof.
  intros H. unfold MHA.forward_trace in H.
  repeat step_ok H. injection H as <-. cbn.
  match goal with
  | Em : match pb with Some _ => _ | None => _ end = Ok (_, _, ?am) |- _ =>
      assert (Ham : am = mask)
        by (destruct pb; simpl in Em;
            [ injection Em as _ _ <-; now destruct mask
            | apply bind_Ok in Em; destruct Em as (? & _ & Em);
              destruct mask; [|discriminate]; simpl in Em;
              apply bind_Ok in Em; destruct Em as (? & _ & Em);
              now injection Em as _ _ <- ])
  end.
  subst.
  match goal with
  | Es : match mask with Some _ => _ | None => _ end = Ok (?sc, ?w) |- _ =>
      exists w; split; [reflexivity|]; destruct mask as [m|];
      [ destruct (MHA.scale_mask_softmax_fusion self);
        [ apply bind_Ok in Es; destruct Es as (w' & Ew & Es);
          injection Es as <- <-; split; [exact Ew | reflexivity]
        | apply bind_Ok in Es; destruct Es as (kept & Ek & Es);
          apply bind_Ok in Es; destruct Es as (out & Eo & Es);
          injection Es as <- <-; split; [exists kept; split; assumption | reflexivity] ]
      | injection Es as <- <-; split; reflexivity ]
  end.
Qed.

Lemma nth_error_bnth {A : Type} (l : list A) (i : nat) (x : A) :
  nth_error l i = Some x -> bnth l i = Some x.
Proof.
  destruct l as [|a [|b l]]; simpl; auto.
  destruct i as [|[|i]]; simpl; intros H; congruence.
Qed.

Lemma bnth_map {A B : Type} (g : A -> B) (l : list A) (i : nat) :
  bnth (map g l) i = option_map g (bnth l i).
Proof.
  destruct l as [|a [|b l]]; simpl; try reflexivity.
  - now destruct i.
  - destruct i as [|[|i]]; simpl; try reflexivity. apply nth_error_map.
Qed.

Lemma mapM_singleton {A B : Type} (f : A -> result B) (l : list A) (y : B) :
  mapM f l = Ok [y] -> exists x, l = [x] /\ f x = Ok y.
Proof.
  intros H. pose proof (mapM_length H) as Hl.
  destruct l as [|x [|x' l]]; try discriminate.
  simpl in H. step_ok H. injection H as <-. eauto.
Qed.

Lemma combine_singleton {A B : Type} (a : list A) (b : list B) (x : A) (y : B) :
  length a = length b -> combine a b = [(x, y)] -> a = [x] /\ b = [y].
Proof.
  destruct a as [|a0 [|a1 a]], b as [|b0 [|b1 b]]; simpl; intros Hl H; try discriminate.
  now injection H as -> ->.
Qed.

Lemma bnth_mapM {A B : Type} (f : A -> result B) (l : list A) (l' : list B) (i : nat)
    (z : B) :
  mapM f l = Ok l' -> bnth l' i = Some z -> exists x, bnth l i = Some x /\ f x = Ok z.
Proof.
  intros H Hz. destruct l' as [|y [|y' l']].
  - destruct i; discriminate.
  - simpl in Hz. injection Hz as ->.
    destruct (mapM_singleton _ _ _ H) as (x & -> & Hx).
    exists x. split; [reflexivity | exact Hx].
  - pose proof (mapM_length H) as Hl.
    assert (Hn : nth_error (y :: y' :: l') i = Some z) by exact Hz.
    assert (Hi : (i < length l)%nat).
    { rewrite <- Hl. apply nth_error_Some. congruence. }
    destruct (nth_error l i) as [x|] eqn:Ex; [|apply nth_error_None in Ex; lia].
    destruct (mapM_nth H Ex) as (z' & Hz' & Hf).
    exists x. split; [now apply nth_error_bnth | congruence].
Qed.

Lemma nth_error_combine {A B : Type} (a : list A) (b : list B) (i : nat) (x : A) (y : B) :
  nth_error (combine a b) i = Some (x, y) ->
  nth_error a i = Some x /\ nth_error b i = Some y.
Proof.
  revert b i. induction a as [|a0 a IH]; intros [|b0 b] [|i]; simpl; try discriminate.
  - now intros [= -> ->].
  - apply IH.
Qed.

Lemma bnth_combine {A B : Type} (a : list A) (b : list B) (i : nat) (x : A) (y : B) :
  length a = length b -> bnth (combine a b) i = Some (x, y) ->
  bnth a i = Some x /\ bnth b i = Some y.
Proof.
  intros E H. destruct (combine a b) as [|p [|p' l]] eqn:Ec.
  - destruct i; discriminate.
  - simpl in H. injection H as ->.
    destruct (combine_singleton _ _ _ _ E Ec) as [-> ->]. split; reflexivity.
  - assert (Hn : nth_error (combine a b) i = Some (x, y)) by (rewrite Ec; exact H).
    destruct (nth_error_combine _ _ _ _ _ Hn) as [Hx Hy].
    split; now apply nth_error_bnth.
Qed.

(** An element of a broadcast result comes from the elements that
    broadcasting aligns with its position. *)
Lemma bzip_bnth {A B C : Type} (f : A -> B -> result C) (a : list A) (b : list B)
    (c : list C) (i : nat) (z : C) :
  bzip f a b = Ok c -> bnth c i = Some z ->
  exists x y, bnth a i = Some x /\ bnth b i = Some y /\ f x y = Ok z.
Proof.
  unfold bzip. destruct (Nat.eqb_spec (length a) (length b)) as [E|E].
  - intros H Hz. destruct (bnth_mapM _ _ _ _ _ H Hz) as ([x y] & Hxy & Hf).
    destruct (bnth_combine _ _ _ _ _ E Hxy) as [Hx Hy].
    exists x, y. auto.
  - destruct a as [|x [|x' a]].
    + destruct b as [|y [|y' b]]; try discriminate.
      intros [= <-] Hz. destruct i; discriminate.
    + intros H Hz. destruct (bnth_mapM _ _ _ _ _ H Hz) as (y & Hy & Hf).
      exists x, y. auto.
    + destruct b as [|y [|y' b]]; try discriminate.
      intros H Hz. destruct (bnth_mapM _ _ _ _ _ H Hz) as (x0 & Hx0 & Hf).
      exists x0, y. auto.
Qed.

Lemma broadcast4_bentry (f : R -> R -> R) (x y z : T4) (b h i j : nat) (v : R) :
  broadcast4 f x y = Ok z -> bentry4 z b h i j = Some v ->
  exists u w, bentry4 x b h i j = Some u /\ bentry4 y b h i j = Some w /\ v = f u w.
Proof.
  unfold broadcast4, broadcast3, bentry4. intros H Hv.
  destruct (bnth z b) as [z3|] eqn:E3; [|discriminate].
  destruct (bzip_bnth _ _ _ _ _ _ H E3) as (x3 & y3 & Ex3 & Ey3 & H3).
  destruct (bnth z3 h) as [zm|] eqn:Em; [|discriminate].
  destruct (bzip_bnth _ _ _ _ _ _ H3 Em) as (xm & ym & Exm & Eym & Hm).
  destruct (bnth zm i) as [zr|] eqn:Er; [|discriminate].
  destruct (bzip_bnth _ _ _ _ _ _ Hm Er) as (xr & yr & Exr & Eyr & Hr).
  destruct (bzip_bnth _ _ _ _ _ _ Hr Hv) as (u & w & Eu & Ew & Hf).
  exists u, w. unfold T3, Mat, Vec in *.
  rewrite Ex3, Ey3. cbv beta iota. rewrite Exm, Eym. cbv beta iota.
  rewrite Exr, Eyr. cbv beta iota.
  repeat split; try assumption. congruence.
Qed.

Lemma bentry4_map4 (g : R -> R) (x : T4) (b h i j : nat) :
  bentry4 (map4 g x) b h i j = option_map g (bentry4 x b h i j).
Proof.
  unfold bentry4, map4, T4, T3, Mat, Vec in *. rewrite bnth_map.
  destruct (bnth x b) as [x3|]; [|reflexivity]. cbn [option_map]. rewrite bnth_map.
  destruct (bnth x3 h) as [m|]; [|reflexivity]. cbn [option_map]. rewrite bnth_map.
  destruct (bnth m i) as [row|]; [|reflexivity]. cbn [option_map]. apply bnth_map.
Qed.

Lemma entry4_bentry4 (x : T4) (b h i j : nat) (v : R) :
  entry4 x b h i j = Some v -> bentry4 x b h i j = Some v.
Proof.
  unfold entry4, row4, bentry4, T4, T3, Mat, Vec in *.
  destruct (nth_error x b) as [x3|] eqn:E3; [|discriminate].
  rewrite (nth_error_bnth _ _ _ E3).
  destruct (nth_error x3 h) as [m|] eqn:Em; [|discriminate].
  rewrite (nth_error_bnth _ _ _ Em).
  destruct (nth_error m i) as [row|] eqn:Er; [|discriminate].
  rewrite (nth_error_bnth _ _ _ Er). apply nth_error_bnth.
Qed.

(** X15.  What the mask does to a score on the non-fused path.  Every
    entry handed to the softmax is [s * m - 10000 * (1 - m)], with [s] the
    biased score (times [coeff], when set) and [m] the mask entry that
    broadcasting aligns with its position: where the mask is 1 the score
    passes unchanged, where it is 0 the entry is exactly -10000 whatever
    the score and the bias were. *)
Theorem masked_scores_entrywise (self : MHA.t) hs enc mask pkv uc pb ql tr
    (b h i j : nat) (z : R) :
  MHA.scale_mask_softmax_fusion self = false ->
  MHA.forward_trace self hs enc (Some mask) pkv uc pb ql = Ok tr ->
  entry4 (MHA.t_attention_scores tr) b h i j = Some z ->
  exists s m,
    bentry4 (MHA.apply_coeff self (MHA.t_biased_scores tr)) b h i j = Some s
    /\ bentry4 mask b h i j = Some m
    /\ z = s * m - 10000 * (1 - m)
    /\ (m = 1 -> z = s) /\ (m = 0 -> z = -10000).
Proof.
  intros Hf H Hz.
  destruct (forward_trace_softmax_stage _ _ _ _ _ _ _ _ _ H) as (w & _ & Hst).
  rewrite Hf in Hst. destruct Hst as ((kept & Ek & Eo) & _).
  apply entry4_bentry4 in Hz.
  destruct (broadcast4_bentry _ _ _ _ _ _ _ _ _ Eo Hz) as (k & p & Hk & Hp & ->).
  destruct (broadcast4_bentry _ _ _ _ _ _ _ _ _ Ek Hk) as (s & m & Hs & Hm & ->).
  unfold score_penalty in Hp. rewrite bentry4_map4, Hm in Hp. injection Hp as <-.
  exists s, m. repeat split; try assumption.
  - intros ->. ring.
  - intros ->. ring.
Qed.

Lemma masked_scores_entrywise_witness :
  exists tr z,
    MHA.forward_trace (Fixtures.layer 1 1 false) [[[1]; [2]]] None
      (Some [[[[1; 0]; [1; 1]]]]) None false None None = Ok tr
    /\ entry4 (MHA.t_attention_scores tr) 0 0 0 1 = Some z
    /\ exists s m,
         bentry4 (MHA.apply_coeff (Fixtures.layer 1 1 false) (MHA.t_biased_scores tr))
           0 0 0 1 = Some s
         /\ bentry4 [[[[1; 0]; [1; 1]]]] 0 0 0 1 = Some m
         /\ z = s * m - 10000 * (1 - m)
         /\ (m = 1 -> z = s) /\ (m = 0 -> z = -10000).
Proof.
  do 2 eexists. split; [reflexivity|]. split; [reflexivity|].
  apply (masked_scores_entrywise (Fixtures.layer 1 1 false) [[[1]; [2]]] None
           [[[[1; 0]; [1; 1]]]] None false None None); reflexivity.
Defined.

(** ** The attention weights *)

Lemma rsum_map_div (d : R) (v : Vec) : rsum (map (fun x => x / d) v) = rsum v / d.
Proof.
  induction v as [|a v IH]; simpl.
  - unfold Rdiv. ring.
  - rewrite IH. unfold Rdiv. ring.
Qed.

Lemma rsum_exp_pos (v : Vec) : v <> [] -> 0 < rsum (map exp v).
Proof.
  intros Hv. destruct v as [|a v]; [contradiction|]. clear Hv. simpl.
  assert (H : 0 <= rsum (map exp v)).
  { induction v as [|b v IH]; simpl; [lra|]. pose proof (exp_pos b). lra. }
  pose proof (exp_pos a). lra.
Qed.

Lemma exp_le_rsum (x : R) (v : Vec) : In x v -> exp x <= rsum (map exp v).
Proof.
  induction v as [|a v IH]; simpl; [contradiction|].
  assert (H : forall l, 0 <= rsum (map exp l)).
  { induction l as [|b l IHl]; simpl; [lra|]. pose proof (exp_pos b). lra. }
  intros [->|Hin].
  - specialize (H v). lra.
  - specialize (IH Hin). pose proof (exp_pos a). lra.
Qed.

(** A softmax over a non-empty slice is a probability distribution. *)
Lemma softmax_row_distribution (v : Vec) :
  v <> [] ->
  rsum (softmax_row v) = 1 /\ Forall (fun p => 0 < p <= 1) (softmax_row v).
Proof.
  intros Hv. pose proof (rsum_exp_pos v Hv) as Hd. unfold softmax_row. split.
  - rewrite <- (map_map exp (fun e => e / rsum (map exp v))), rsum_map_div.
    field. lra.
  - rewrite Forall_map. apply Forall_forall. intros x Hx.
    pose proof (exp_pos x). pose proof (exp_le_rsum x v Hx). split.
    + apply Rmult_lt_0_compat; [assumption | now apply Rinv_0_lt_compat].
    + apply Rmult_le_reg_r with (rsum (map exp v)); [assumption|].
      unfold Rdiv. rewrite Rmult_assoc, Rinv_l by lra. lra.
Qed.

Lemma row4_softmax (x : T4) (b h i : nat) :
  row4 (softmax x) b h i = option_map softmax_row (row4 x b h i).
Proof.
  unfold row4, softmax, T4, T3, Mat, Vec in *. rewrite nth_error_map.
  destruct (nth_error x b) as [x3|]; [|reflexivity]. cbn [option_map].
  rewrite nth_error_map.
  destruct (nth_error x3 h) as [m|]; [|reflexivity]. cbn [option_map].
  apply nth_error_map.
Qed.

(** X16.  Before dropout, the attention weights are a probability
    distribution over the keys: on every path of [forward] (no mask,
    mask, fused mask) each non-empty row of the tensor handed to
    [self.dropout] sums to 1 and has all its entries in (0, 1] (in the
    exact arithmetic of the embedding, where a masked key keeps a positive
    weight). *)
Theorem attention_weights_are_distributions (self : MHA.t) hs enc mask pkv uc pb ql tr :
  MHA.forward_trace self hs enc mask pkv uc pb ql = Ok tr ->
  exists weights,
    MHA.t_attention_weights tr = MHA.dropout self weights
    /\ forall b h i row,
         row4 weights b h i = Some row -> row <> [] ->
         rsum row = 1 /\ Forall (fun p => 0 < p <= 1) row.
Proof.
  intros H.
  destruct (forward_trace_softmax_stage _ _ _ _ _ _ _ _ _ H) as (w & Ew & Hst).
  exists w. split; [exact Ew|].
  assert (Hsm : exists s, w = softmax s).
  { destruct mask as [m|].
    - destruct (MHA.scale_mask_softmax_fusion self).
      + destruct Hst as [Hf _]. unfold fused_scale_mask_softmax in Hf.
        step_ok Hf. injection Hf as <-. eauto.
      + destruct Hst as [_ ->]. eauto.
    - destruct Hst as [_ ->]. eauto. }
  destruct Hsm as (s & ->).
  intros b h i row Hrow Hne. rewrite row4_softmax in Hrow.
  destruct (row4 s b h i) as [v|]; [|discriminate]. injection Hrow as <-.
  apply softmax_row_distribution. intros ->. now apply Hne.
Qed.

Lemma attention_weights_are_distributions_witness :
  exists tr weights,
    MHA.forward_trace (Fixtures.layer 1 1 false) [[[1]; [2]]] None
      (Some [[[[1; 0]; [1; 1]]]]) None false None None = Ok tr
    /\ MHA.t_attention_weights tr = MHA.dropout (Fixtures.layer 1 1 false) weights
    /\ forall b h i row,
         row4 weights b h i = Some row -> row <> [] ->
         rsum row = 1 /\ Forall (fun p => 0 < p <= 1) row.
Proof.
  eexists.
  destruct (attention_weights_are_distributions (Fixtures.layer 1 1 false) [[[1]; [2]]]
              None (Some [[[[1; 0]; [1; 1]]]]) None false None None _ eq_refl)
    as (w & Ew & Hw).
  exists w. split; [reflexivity|]. split; assumption.
Defined.


(** ** [MultiheadAttention.forward] on arguments of fitting shapes *)









(** ** [TransformerLayer.forward] on arguments of fitting shapes *)
















(** ** Threading the bias and the cache through a layer *)

(** A supplied bias comes back from the attention layer as it went in. *)
Lemma forward_supplied_bias (self : MHA.t) hs enc mask pkv uc b ql out b' :
  MHA.forward self hs enc mask pkv uc (Some b) ql = Ok (out, b') -> b' = b.
Proof.
  intros H. apply forward_Ok in H as (tr & H & Hr).
  unfold MHA.forward_trace in H. repeat step_ok H.
  match goal with
  | Em : Ok (_, _, _) = Ok (_, _, _) |- _ => injection Em as <- <- <-
  end.
  injection H as <-. cbn in Hr. now injection Hr as _ <-.
Qed.

(** X21.  A layer hands a supplied bias on unchanged: the [position_bias]
    that [TransformerLayer.forward] returns is the one it was given, and
    so is, for a decoder, the [encoder_decoder_position_bias]; an encoder
    returns no cross-attention bias at all.  A stack that computes the
    bias in its first layer and passes it down therefore uses one bias
    throughout. *)
Theorem layer_threads_supplied_bias (self : TransformerLayer.t) hs am es eam pkv uc pb
    edpb res :
  TransformerLayer.forward self hs am es eam pkv uc pb edpb = Ok res ->
  (forall b, pb = Some b -> TransformerLayer.position_bias res = b)
  /\ (TransformerLayer.is_decoder self = true ->
      forall b, edpb = Some b ->
                TransformerLayer.encoder_decoder_position_bias res = Some b)
  /\ (TransformerLayer.is_decoder self = false ->
      TransformerLayer.encoder_decoder_position_bias res = None).
Proof.
  intros H. unfold TransformerLayer.forward in H.
  step_ok H. destruct v as [sp cp]. step_ok H. step_ok H. destruct v0 as [ao pb1].
  step_ok H. step_ok H. destruct v1 as [ao1 pres]. step_ok H. step_ok H.
  step_ok H. destruct v3 as [[[h2 ln2] pres2] edpb2].
  repeat step_ok H. injection H as <-.
  cbn [TransformerLayer.position_bias TransformerLayer.encoder_decoder_position_bias].
  split; [|split].
  - intros b ->. eapply forward_supplied_bias. eassumption.
  - intros Hd b ->. rewrite Hd in *.
    match goal with
    | Ec : bind (MHA.forward (TransformerLayer.cross_attention self) _ _ _ _ _ _ _) _
           = Ok _ |- _ =>
        apply bind_Ok in Ec; destruct Ec as ([co cb] & Ecross & Ec);
        apply forward_supplied_bias in Ecross; subst cb;
        repeat step_ok Ec; now injection Ec as _ _ _ <-
    end.
  - intros Hd. now rewrite Hd.
Qed.

Lemma layer_threads_supplied_bias_witness :
  exists res,
    TransformerLayer.forward (Fixtures.decoder 1 1) [[[1]]] None (Some [[[2]]]) None None
      false (Some [[[[0]]]]) (Some [[[[5]]]]) = Ok res
    /\ TransformerLayer.position_bias res = [[[[0]]]]
    /\ TransformerLayer.encoder_decoder_position_bias res = Some [[[[5]]]].
Proof.
  eexists. split; [run; reflexivity|].
  match goal with
  | |- TransformerLayer.position_bias ?r = _ /\ _ =>
      destruct (layer_threads_supplied_bias (Fixtures.decoder 1 1) [[[1]]] None
                  (Some [[[2]]]) None None false (Some [[[[0]]]]) (Some [[[[5]]]]) r)
        as (H1 & H2 & _); [run; reflexivity|]
  end.
  split; [now apply H1 | now apply H2].
Defined.

(** X22.  A cache of the wrong length is rejected with AssertionError
    before any attention is computed: the attention layer wants exactly a
    key and a value; a decoder layer wants four entries; an encoder layer
    hands its cache to the self attention, which rejects it once the input
    norm has returned. *)
Theorem wrong_cache_length_rejected (l : list T4) :
  (forall (a : MHA.t) hs enc mask uc pb ql,
      length l <> 2%nat ->
      MHA.forward a hs enc mask (Some l) uc pb ql = Raise AssertionError)
  /\ (forall (self : TransformerLayer.t) hs am es eam uc pb edpb,
        TransformerLayer.is_decoder self = true -> length l <> 4%nat ->
        TransformerLayer.forward self hs am es eam (Some l) uc pb edpb
        = Raise AssertionError)
  /\ (forall (self : TransformerLayer.t) hs am es eam uc pb edpb y,
        TransformerLayer.is_decoder self = false -> length l <> 2%nat ->
        LayerNorm.forward (TransformerLayer.input_layernorm self) hs = Ok y ->
        TransformerLayer.forward self hs am es eam (Some l) uc pb edpb
        = Raise AssertionError).
Proof.
  assert (Hatt : forall (a : MHA.t) hs enc mask uc pb ql,
             length l <> 2%nat ->
             MHA.forward a hs enc mask (Some l) uc pb ql = Raise AssertionError).
  { intros a hs enc mask uc pb ql Hl. unfold MHA.forward, MHA.forward_trace.
    destruct l as [|k [|v [|w l']]]; try reflexivity. now contradiction Hl. }
  split; [exact Hatt|]. split.
  - intros self hs am es eam uc pb edpb Hd Hl. unfold TransformerLayer.forward.
    rewrite Hd. destruct (Nat.eqb_spec (length l) 4); [contradiction | reflexivity].
  - intros self hs am es eam uc pb edpb y Hd Hl Hy. unfold TransformerLayer.forward.
    rewrite Hd. cbn [bind]. unfold to_global. rewrite Hy. cbn [bind].
    rewrite (Hatt _ _ _ _ _ _ _ Hl). reflexivity.
Qed.

Lemma wrong_cache_length_rejected_witness :
  MHA.forward (Fixtures.layer 1 1 false) [[[1]]] None None (Some [[[[[1]]]]]) true None None
  = Raise AssertionError
  /\ TransformerLayer.forward (Fixtures.decoder 1 1) [[[1]]] None None None
       (Some [[[[[1]]]]; [[[[1]]]]]) true None None = Raise AssertionError
  /\ TransformerLayer.forward (Fixtures.encoder 1 1) [[[1]]] None None None
       (Some [[[[[1]]]]]) true None None = Raise AssertionError.
Proof.
  destruct (wrong_cache_length_rejected [[[[[1]]]]]) as (H1 & _ & H3).
  destruct (wrong_cache_length_rejected [[[[[1]]]]; [[[[1]]]]]) as (_ & H2 & _).
  split; [|split].
  - apply H1. simpl. lia.
  - apply H2; [reflexivity | simpl; lia].
  - destruct (LayerNorm.forward (TransformerLayer.input_layernorm (Fixtures.encoder 1 1))
                [[[1]]]) as [y|e] eqn:E; [|discriminate].
    apply (H3 _ _ _ _ _ _ _ _ y); [reflexivity | simpl; lia | exact E].
Defined.

Lemma zipM_nth_l {A B C : Type} (f : A -> B -> result C) (a : list A) (b : list B)
    (c : list C) (i : nat) (x : A) :
  zipM f a b = Ok c -> nth_error a i = Some x ->
  exists y z, nth_error b i = Some y /\ nth_error c i = Some z /\ f x y = Ok z.
Proof.
  intros H Hx.
  assert (Hlen : length a = length b).
  { unfold zipM in H. destruct (Nat.eqb_spec (length a) (length b)); [assumption|discriminate]. }
  destruct (nth_error b i) as [y|] eqn:Ey.
  - destruct (zipM_nth H Hx Ey) as (z & Hz & Hf). eauto.
  - apply nth_error_None in Ey.
    assert (i < length a)%nat by (apply nth_error_Some; congruence). lia.
Qed.

(** Concatenation along the sequence dimension, one matrix at a time. *)
Lemma cat_dim2_mat4 (a b c : T4) (i j : nat) (m : Mat) :
  cat_dim2 a b = Ok c -> mat4 a i j = Some m ->
  exists n, mat4 b i j = Some n /\ mat4 c i j = Some (m ++ n).
Proof.
  unfold cat_dim2, mat4, T4, T3, Mat, Vec in *. intros H Hm.
  destruct (nth_error a i) as [a3|] eqn:Ea; [|discriminate].
  destruct (zipM_nth_l _ _ _ _ _ _ H Ea) as (b3 & c3 & Eb & Ec & H3).
  destruct (zipM_nth_l _ _ _ _ _ _ H3 Hm) as (n & z & En & Ez & Hz).
  exists n. rewrite Eb, Ec. split; [exact En|]. rewrite Ez. f_equal.
  destruct (same_width m n); [|discriminate]. now injection Hz as <-.
Qed.

Lemma cat_dim2_length (a b c : T4) : cat_dim2 a b = Ok c -> length c = length a.
Proof.
  unfold cat_dim2, zipM, T4, T3, Mat, Vec in *.
  destruct (Nat.eqb (length a) (length b)) eqn:E; [|discriminate].
  apply Nat.eqb_eq in E. intros H. rewrite (mapM_length H), length_combine. lia.
Qed.

(** The key and value of self attention with a cache are the cached ones
    with the key and value parts of the projection of the current hidden
    state appended. *)
Lemma self_attention_cache_stage (self : MHA.t) hs enc mask pk pv uc pb ql tr :
  MHA.is_cross_attention self = false ->
  MHA.forward_trace self hs enc mask (Some [pk; pv]) uc pb ql = Ok tr ->
  exists x y,
    Linear.forward (MHA.query_key_value self) hs = Ok x
    /\ view_heads (length hs) (MHA.num_heads self) (3 * MHA.head_size self) x = Ok y
    /\ cat_dim2 pk (chunk (MHA.head_size self) 1 y) = Ok (MHA.t_key tr)
    /\ cat_dim2 pv (chunk (MHA.head_size self) 2 y) = Ok (MHA.t_value tr)
    /\ (uc = true ->
        exists o, fst (MHA.t_result tr) = MHA.WithCache o (MHA.t_key tr, MHA.t_value tr)).
Proof.
  intros Hc H. unfold MHA.forward_trace in H. rewrite Hc in H. cbn [bind] in H.
  step_ok H. destruct v as [[q k] v].
  apply bind_Ok in E; destruct E as (x & El & E).
  apply bind_Ok in E; destruct E as (y & Ev & E).
  apply bind_Ok in E; destruct E as (key & Ek & E).
  apply bind_Ok in E; destruct E as (value & Ew & E).
  injection E as <- <- <-.
  repeat step_ok H. injection H as <-. cbn. unfold to_dtype in *.
  exists x, y. split; [exact El|]. split; [exact Ev|].
  split; [exact Ek|]. split; [exact Ew|].
  intros ->. eauto.
Qed.

(** X23.  The self-attention cache is append-only, and what is appended
    is the projection of the current call.  When [forward] returns under
    [use_cache] from a supplied key and value, the hidden state has a
    projection [query_key_value(hidden_states)] that splits into heads;
    the returned key and value have as many batch entries as the supplied
    ones; and for every batch entry and head the returned key is the
    supplied key followed by the key part of that projection, the returned
    value the supplied value followed by its value part.  A decoding step
    never rewrites what earlier steps cached. *)
Theorem self_attention_cache_extends (self : MHA.t) hs enc mask pk pv pb ql o k v bias :
  MHA.is_cross_attention self = false ->
  MHA.forward self hs enc mask (Some [pk; pv]) true pb ql
  = Ok (MHA.WithCache o (k, v), bias) ->
  exists x y,
    Linear.forward (MHA.query_key_value self) hs = Ok x
    /\ view_heads (length hs) (MHA.num_heads self) (3 * MHA.head_size self) x = Ok y
    /\ length k = length pk /\ length v = length pv
    /\ forall b h m,
         (mat4 pk b h = Some m ->
          exists new,
            mat4 (chunk (MHA.head_size self) 1 y) b h = Some new
            /\ mat4 k b h = Some (m ++ new))
         /\ (mat4 pv b h = Some m ->
             exists new,
               mat4 (chunk (MHA.head_size self) 2 y) b h = Some new
               /\ mat4 v b h = Some (m ++ new)).
Proof.
  intros Hc H. apply forward_Ok in H as (tr & H & Hr).
  destruct (self_attention_cache_stage _ _ _ _ _ _ _ _ _ _ Hc H)
    as (x & y & Ex & Ey & Ek & Ev & Ho).
  destruct (Ho eq_refl) as (o' & Eo). rewrite Hr in Eo. cbn in Eo.
  injection Eo as _ Hk Hv. rewrite <- Hk in Ek. rewrite <- Hv in Ev.
  exists x, y. split; [exact Ex|]. split; [exact Ey|].
  split; [exact (cat_dim2_length _ _ _ Ek)|]. split; [exact (cat_dim2_length _ _ _ Ev)|].
  intros b h m. split; intros Hm.
  - exact (cat_dim2_mat4 _ _ _ _ _ _ Ek Hm).
  - exact (cat_dim2_mat4 _ _ _ _ _ _ Ev Hm).
Qed.

Lemma self_attention_cache_extends_witness :
  exists o k v bias,
    MHA.forward (Fixtures.layer 1 1 false) [[[1]]] None (Some [[[[1; 1; 1]]]])
      (Some [[[[[3]; [4]]]]; [[[[7]; [8]]]]]) true None None
    = Ok (MHA.WithCache o (k, v), bias)
    /\ exists x y,
         Linear.forward (MHA.query_key_value (Fixtures.layer 1 1 false)) [[[1]]] = Ok x
         /\ view_heads 1 1 (3 * 1) x = Ok y
         /\ length k = 1%nat /\ length v = 1%nat
         /\ forall b h m,
              (mat4 [[[[3]; [4]]]] b h = Some m ->
               exists new,
                 mat4 (chunk 1 1 y) b h = Some new /\ mat4 k b h = Some (m ++ new))
              /\ (mat4 [[[[7]; [8]]]] b h = Some m ->
                  exists new,
                    mat4 (chunk 1 2 y) b h = Some new /\ mat4 v b h = Some (m ++ new)).
Proof.
  do 4 eexists. split; [run; reflexivity|].
  eapply (self_attention_cache_extends (Fixtures.layer 1 1 false) [[[1]]] None
            (Some [[[[1; 1; 1]]]]) [[[[3]; [4]]]] [[[[7]; [8]]]] None None);
    [reflexivity | run; reflexivity].
Defined.


(** ** Incremental decoding against a full pass *)

Lemma mapM_app {A B : Type} (f : A -> result B) (a b : list A) (x y : list B) :
  mapM f a = Ok x -> mapM f b = Ok y -> mapM f (a ++ b) = Ok (x ++ y).
Proof.
  revert x. induction a as [|a0 a IH]; intros x Ha Hb; simpl in *.
  - now injection Ha as <-.
  - repeat step_ok Ha. injection Ha as <-. rewrite E. cbn [bind].
    rewrite (IH _ E0 Hb). reflexivity.
Qed.

Lemma Linear_forward_cat (l : Linear.t) (a b x y : T3) :
  Linear.forward l a = Ok x -> Linear.forward l b = Ok y -> length a = length b ->
  Linear.forward l (cat_dim1 a b) = Ok (cat_dim1 x y).
Proof.
  unfold Linear.forward, cat_dim1, zipWith.
  revert b x y. induction a as [|a0 a IH]; intros [|b0 b] x y Ha Hb Hl;
    simpl in *; try discriminate.
  - injection Ha as <-. reflexivity.
  - repeat step_ok Ha. injection Ha as <-. repeat step_ok Hb. injection Hb as <-.
    rewrite (mapM_app _ _ _ _ _ E E1). cbn [bind].
    rewrite (IH b _ _ E0 E2) by lia. reflexivity.
Qed.

Lemma split_heads_app (nh w : nat) (m1 m2 : Mat) (h1 h2 : list Mat) :
  split_heads nh w m1 = Ok h1 -> split_heads nh w m2 = Ok h2 ->
  split_heads nh w (m1 ++ m2) = Ok (zipWith (@app Vec) h1 h2).
Proof.
  unfold split_heads, Mat, Vec in *. intros H1 H2. repeat step_ok H1. repeat step_ok H2.
  injection H1 as <-. injection H2 as <-.
  rewrite (mapM_app _ _ _ _ _ E E0). cbn [bind]. f_equal.
  rewrite zipWith_map. apply map_ext. intros h. now rewrite map_app.
Qed.

Lemma view_heads_cat (bsz nh w : nat) (a b : T3) (x y : T4) :
  view_heads bsz nh w a = Ok x -> view_heads bsz nh w b = Ok y ->
  view_heads bsz nh w (cat_dim1 a b) = Ok (zipWith (zipWith (@app Vec)) x y).
Proof.
  unfold view_heads.
  destruct (Nat.eqb_spec (length a) bsz) as [La|]; [|discriminate].
  destruct (Nat.eqb_spec (length b) bsz) as [Lb|]; [|discriminate].
  intros Ha Hb.
  assert (Hlen : length (cat_dim1 a b) = bsz).
  { unfold cat_dim1, zipWith, T3, Mat, Vec in *. rewrite length_map, length_combine. lia. }
  rewrite Hlen, Nat.eqb_refl.
  assert (Hl : length a = length b) by congruence. clear La Lb Hlen.
  unfold cat_dim1, zipWith.
  revert b x y Ha Hb Hl. induction a as [|a0 a IH]; intros [|b0 b] x y Ha Hb Hl;
    simpl in *; try discriminate.
  - injection Ha as <-. reflexivity.
  - repeat step_ok Ha. injection Ha as <-. repeat step_ok Hb. injection Hb as <-.
    rewrite (split_heads_app _ _ _ _ _ _ E E1). cbn [bind].
    rewrite (IH b _ _ E0 E2) by lia. reflexivity.
Qed.

Lemma map_zipWith {A B C D : Type} (g : C -> D) (f : A -> B -> C) (a : list A)
    (b : list B) :
  map g (zipWith f a b) = zipWith (fun x y => g (f x y)) a b.
Proof. unfold zipWith. rewrite map_map. reflexivity. Qed.

Lemma zipWith_maps {A B A' B' C : Type} (f : A' -> B' -> C) (g : A -> A') (h : B -> B')
    (a : list A) (b : list B) :
  zipWith f (map g a) (map h b) = zipWith (fun x y => f (g x) (h y)) a b.
Proof.
  unfold zipWith. revert b. induction a as [|a0 a IH]; intros [|b0 b]; simpl;
    try reflexivity.
  f_equal. apply IH.
Qed.

Lemma zipWith_ext {A B C : Type} (f g : A -> B -> C) (a : list A) (b : list B) :
  (forall x y, f x y = g x y) -> zipWith f a b = zipWith g a b.
Proof. intros H. unfold zipWith. apply map_ext. intros [x y]. apply H. Qed.

Lemma chunk_cat (w i : nat) (x y : T4) :
  chunk w i (zipWith (zipWith (@app Vec)) x y)
  = zipWith (zipWith (@app Vec)) (chunk w i x) (chunk w i y).
Proof.
  unfold chunk. rewrite map_zipWith, zipWith_maps. apply zipWith_ext. intros x3 y3.
  rewrite map_zipWith, zipWith_maps. apply zipWith_ext. intros m n.
  apply map_app.
Qed.

Lemma mapM_zip_Ok {A B C : Type} (f : A -> B -> result C) (g : A -> B -> C)
    (l : list (A * B)) (c : list C) :
  mapM (fun p => f (fst p) (snd p)) l = Ok c ->
  (forall x y z, f x y = Ok z -> z = g x y) ->
  c = map (fun p => g (fst p) (snd p)) l.
Proof.
  revert c. induction l as [|[x y] l IH]; intros c H Hf; simpl in *.
  - now injection H as <-.
  - repeat step_ok H. injection H as <-. f_equal; [now apply Hf | now apply IH].
Qed.

Lemma zipM_Ok_zipWith {A B C : Type} (f : A -> B -> result C) (g : A -> B -> C)
    (a : list A) (b : list B) (c : list C) :
  zipM f a b = Ok c -> (forall x y z, f x y = Ok z -> z = g x y) -> c = zipWith g a b.
Proof.
  unfold zipM, zipWith. destruct (Nat.eqb _ _); [|discriminate]. apply mapM_zip_Ok.
Qed.

(** A successful concatenation along the sequence dimension appends head
    by head. *)
Lemma cat_dim2_Ok (a b c : T4) :
  cat_dim2 a b = Ok c -> c = zipWith (zipWith (@app Vec)) a b.
Proof.
  unfold cat_dim2. intros H. apply (zipM_Ok_zipWith _ _ _ _ _ H). intros x3 y3 z3 H3.
  apply (zipM_Ok_zipWith _ _ _ _ _ H3). intros m n z Hz.
  destruct (same_width m n); [|discriminate]. now injection Hz as <-.
Qed.

Lemma cat_dim1_length (a b : T3) :
  length a = length b -> length (cat_dim1 a b) = length a.
Proof.
  unfold cat_dim1, zipWith, T3, Mat, Vec in *. intros H.
  rewrite length_map, length_combine. lia.
Qed.

Lemma view_heads_length (bsz nh w : nat) (x : T3) (y : T4) :
  view_heads bsz nh w x = Ok y -> length y = bsz.
Proof.
  unfold view_heads. destruct (Nat.eqb _ _) eqn:E; [|discriminate].
  intros H. apply mapM_length in H. apply Nat.eqb_eq in E.
  unfold T4, T3, Mat, Vec in *. congruence.
Qed.

Lemma chunk_length (w i : nat) (x : T4) : length (chunk w i x) = length x.
Proof. unfold chunk. apply length_map. Qed.

Lemma cat_dim2_lengths (a b c : T4) : cat_dim2 a b = Ok c -> length a = length b.
Proof.
  unfold cat_dim2, zipM. destruct (Nat.eqb _ _) eqn:E; [|discriminate].
  intros _. apply Nat.eqb_eq in E. exact E.
Qed.

(** The key and value of self attention, with and without a cache. *)
Lemma self_attention_projection_stage (self : MHA.t) hs enc mask pkv uc pb ql tr :
  MHA.is_cross_attention self = false ->
  MHA.forward_trace self hs enc mask pkv uc pb ql = Ok tr ->
  exists x y,
    Linear.forward (MHA.query_key_value self) hs = Ok x
    /\ view_heads (length hs) (MHA.num_heads self) (3 * MHA.head_size self) x = Ok y
    /\ match pkv with
       | None =>
           MHA.t_key tr = chunk (MHA.head_size self) 1 y
           /\ MHA.t_value tr = chunk (MHA.head_size self) 2 y
       | Some l =>
           exists pk pv,
             l = [pk; pv]
             /\ cat_dim2 pk (chunk (MHA.head_size self) 1 y) = Ok (MHA.t_key tr)
             /\ cat_dim2 pv (chunk (MHA.head_size self) 2 y) = Ok (MHA.t_value tr)
       end
    /\ (uc = true ->
        exists o, fst (MHA.t_result tr) = MHA.WithCache o (MHA.t_key tr, MHA.t_value tr)).
Proof.
  intros Hc H. unfold MHA.forward_trace in H. rewrite Hc in H.
  step_ok H. apply past_pair_inv in E.
  step_ok H. destruct v0 as [[q k] v1].
  apply bind_Ok in E0; destruct E0 as (x & El & E0).
  apply bind_Ok in E0; destruct E0 as (y & Ev & E0).
  exists x, y. split; [exact El|]. split; [exact Ev|].
  destruct E as [[-> ->]|(pk & pv & -> & ->)].
  - injection E0 as <- <- <-.
    repeat step_ok H. injection H as <-. cbn. split; [auto|]. intros ->. eauto.
  - apply bind_Ok in E0; destruct E0 as (key & Ek & E0).
    apply bind_Ok in E0; destruct E0 as (value & Ew & E0).
    injection E0 as <- <- <-.
    repeat step_ok H. injection H as <-. cbn. unfold to_dtype in *.
    split; [eauto 6|]. intros ->. eauto.
Qed.

(** X24.  Incremental decoding caches what a full pass computes.  If self
    attention under [use_cache] returns on a prefix, then on a
    continuation with the cache of the prefix, and also on prefix and
    continuation in one call, the key and value cached after the two
    incremental calls are those of the single call, whatever masks and
    biases the three calls were given. *)
Theorem incremental_cache_matches_full_pass (self : MHA.t) (prefix continuation : T3)
    mask1 mask2 mask3 pb1 pb2 pb3 o1 k1 v1 b1 o2 k2 v2 b2 o3 k3 v3 b3 :
  MHA.is_cross_attention self = false ->
  MHA.forward self prefix None mask1 None true pb1 None
  = Ok (MHA.WithCache o1 (k1, v1), b1) ->
  MHA.forward self continuation None mask2 (Some [k1; v1]) true pb2 None
  = Ok (MHA.WithCache o2 (k2, v2), b2) ->
  MHA.forward self (cat_dim1 prefix continuation) None mask3 None true pb3 None
  = Ok (MHA.WithCache o3 (k3, v3), b3) ->
  k3 = k2 /\ v3 = v2.
Proof.
  intros Hc H1 H2 H3.
  apply forward_Ok in H1 as (tr1 & H1 & R1).
  apply forward_Ok in H2 as (tr2 & H2 & R2).
  apply forward_Ok in H3 as (tr3 & H3 & R3).
  destruct (self_attention_projection_stage _ _ _ _ _ _ _ _ _ Hc H1)
    as (x1 & y1 & El1 & Ev1 & [Ek1 Ew1] & Ho1).
  destruct (self_attention_projection_stage _ _ _ _ _ _ _ _ _ Hc H2)
    as (x2 & y2 & El2 & Ev2 & (pk & pv & Epast & Ek2 & Ew2) & Ho2).
  destruct (self_attention_projection_stage _ _ _ _ _ _ _ _ _ Hc H3)
    as (x3 & y3 & El3 & Ev3 & [Ek3 Ew3] & Ho3).
  injection Epast as <- <-.
  destruct (Ho1 eq_refl) as (o1' & Eo1). rewrite R1 in Eo1. cbn in Eo1.
  injection Eo1 as _ Hk1 Hv1.
  destruct (Ho2 eq_refl) as (o2' & Eo2). rewrite R2 in Eo2. cbn in Eo2.
  injection Eo2 as _ Hk2 Hv2.
  destruct (Ho3 eq_refl) as (o3' & Eo3). rewrite R3 in Eo3. cbn in Eo3.
  injection Eo3 as _ Hk3 Hv3.
  (* the two hidden states have one batch size *)
  assert (Hlen : length prefix = length continuation).
  { pose proof (view_heads_length _ _ _ _ _ Ev1) as L1.
    pose proof (view_heads_length _ _ _ _ _ Ev2) as L2.
    pose proof (cat_dim2_lengths _ _ _ Ek2) as L3.
    rewrite Hk1, Ek1, !chunk_length in L3. congruence. }
  (* the full pass projects prefix and continuation side by side *)
  pose proof (Linear_forward_cat _ _ _ _ _ El1 El2 Hlen) as El.
  rewrite El in El3. injection El3 as <-.
  pose proof (cat_dim1_length _ _ Hlen) as Hb.
  rewrite Hb in Ev3. rewrite <- Hlen in Ev2.
  rewrite (view_heads_cat _ _ _ _ _ _ _ Ev1 Ev2) in Ev3. injection Ev3 as <-.
  rewrite chunk_cat in Ek3, Ew3.
  apply cat_dim2_Ok in Ek2, Ew2.
  split; congruence.
Qed.

Lemma incremental_cache_matches_full_pass_witness :
  exists o1 k1 v1 b1 o2 k2 v2 b2 o3 k3 v3 b3,
    MHA.forward (Fixtures.layer 1 1 false) [[[1]; [2]]] None None None true
      (Some [[[[0]]]]) None = Ok (MHA.WithCache o1 (k1, v1), b1)
    /\ MHA.forward (Fixtures.layer 1 1 false) [[[3]]] None None (Some [k1; v1]) true
         (Some [[[[0]]]]) None = Ok (MHA.WithCache o2 (k2, v2), b2)
    /\ MHA.forward (Fixtures.layer 1 1 false) (cat_dim1 [[[1]; [2]]] [[[3]]]) None None None
         true (Some [[[[0]]]]) None = Ok (MHA.WithCache o3 (k3, v3), b3)
    /\ k3 = k2 /\ v3 = v2.
Proof.
  do 12 eexists. split; [run; reflexivity|]. split; [run; reflexivity|].
  split; [run; reflexivity|].
  eapply (incremental_cache_matches_full_pass (Fixtures.layer 1 1 false) [[[1]; [2]]]
            [[[3]]] None None None (Some [[[[0]]]]) (Some [[[[0]]]]) (Some [[[[0]]]]));
    [reflexivity | run; reflexivity | run; reflexivity | run; reflexivity].
Defined.
